(** * speech_joey: corpus loading, vocabulary building and batching

    A shallow embedding of [joeynmt/helpers.py] and [joeynmt/data.py].

    Conventions of the embedding.
    - A Python [int] is a [Z]; [//] on integers is [Z.div] (both floor).
    - A Python [str] is a [string]; a character is one of the 256 values of
      [ascii], read as the code points below 256.
    - A raised exception is a value of [exn]; a computation that may raise
      returns a [result].
    - A [dict] whose iteration order is observable ([Counter.items()]) is an
      association list in insertion order. *)

From Stdlib Require Import List ZArith Lia Bool Ascii String.
From Stdlib Require Import Sorted Permutation OrderedTypeEx.
Import ListNotations.

Local Open Scope string_scope.
Local Open Scope list_scope.
Local Open Scope Z_scope.

(* ================================================================== *)
(** ** Python primitives *)
(* ================================================================== *)

Module Py.

(** Exceptions raised on the modelled paths. *)
Inductive exn : Type :=
| IndexError (msg : string)
| NameError (name : string)
| TypeError (msg : string)
| AssertionError
| ZeroDivisionError
| OSError (path : string)
| ExternalError (callee : string) (arg : string).

Inductive result (A : Type) : Type :=
| Ok (a : A)
| Raise (e : exn).

Arguments Ok {A} a.
Arguments Raise {A} e.

Definition bind {A B : Type} (m : result A) (k : A -> result B) : result B :=
  match m with
  | Ok a => k a
  | Raise e => Raise e
  end.

Definition assert (b : bool) : result unit :=
  if b then Ok tt else Raise AssertionError.

Definition is_ok {A : Type} (m : result A) : bool :=
  match m with Ok _ => true | Raise _ => false end.

(** [for x in xs: acc = body(acc, x)], stopping at the first exception. *)
Fixpoint for_each {A S : Type} (body : S -> A -> result S) (xs : list A) (acc : S)
  : result S :=
  match xs with
  | [] => Ok acc
  | x :: rest =>
      match body acc x with
      | Ok acc' => for_each body rest acc'
      | Raise e => Raise e
      end
  end.

(** *** Lists *)

(** [len(l)]. *)
Definition len {A : Type} (l : list A) : Z := Z.of_nat (List.length l).

(** [l[:limit]]: a negative [limit] counts from the end. *)
Definition slice_to {A : Type} (l : list A) (limit : Z) : list A :=
  if limit <? 0 then firstn (Z.to_nat (len l + limit)) l
  else firstn (Z.to_nat limit) l.

(** [list.sort] and [sorted] are stable.  [before x y] tells that [x] may
    stay in front of an [y] that followed it in the input. *)
Fixpoint insert_by {A : Type} (before : A -> A -> bool) (x : A) (l : list A) : list A :=
  match l with
  | [] => [x]
  | y :: rest => if before x y then x :: l else y :: insert_by before x rest
  end.

Definition stable_sort {A : Type} (before : A -> A -> bool) (l : list A) : list A :=
  fold_right (insert_by before) [] l.

(** [sorted(l, key=key)] for a string key and for an integer key, and the
    same with [reverse=True], which keeps equal keys in input order too. *)
Definition sorted_str {A : Type} (key : A -> string) (l : list A) : list A :=
  stable_sort (fun x y => String.leb (key x) (key y)) l.

Definition sorted_int {A : Type} (key : A -> Z) (reverse : bool) (l : list A) : list A :=
  if reverse then stable_sort (fun x y => key y <=? key x) l
  else stable_sort (fun x y => key x <=? key y) l.

(** *** Strings *)

(** [c.isspace()] on the code points below 256. *)
Definition isspace (c : ascii) : bool :=
  let n := N_of_ascii c in
  ((9 <=? n) && (n <=? 13) || (28 <=? n) && (n <=? 32)
   || (n =? 133) || (n =? 160))%N.

Fixpoint lstrip (s : string) : string :=
  match s with
  | String c rest => if isspace c then lstrip rest else s
  | EmptyString => EmptyString
  end.

Fixpoint rstrip (s : string) : string :=
  match s with
  | String c rest =>
      match rstrip rest with
      | EmptyString => if isspace c then EmptyString else String c EmptyString
      | r => String c r
      end
  | EmptyString => EmptyString
  end.

(** [s.strip()]. *)
Definition strip (s : string) : string := rstrip (lstrip s).

(** [list(s)]: the one-character strings of [s]. *)
Fixpoint chars (s : string) : list string :=
  match s with
  | String c rest => String c EmptyString :: chars rest
  | EmptyString => []
  end.

(** [s.split()]: the maximal runs of non-space characters.  [cur] is the
    run being read, in reverse. *)
Fixpoint rev_string (acc s : string) : string :=
  match s with
  | String c rest => rev_string (String c acc) rest
  | EmptyString => acc
  end.

Definition flush (cur : string) : list string :=
  match cur with
  | EmptyString => []
  | _ => [rev_string EmptyString cur]
  end.

Fixpoint split_ws (cur : string) (s : string) : list string :=
  match s with
  | String c rest =>
      if isspace c then flush cur ++ split_ws EmptyString rest
      else split_ws (String c cur) rest
  | EmptyString => flush cur
  end.

Definition split (s : string) : list string := split_ws EmptyString s.

(** [s * n]: no copy at all when [n] is zero or negative. *)
Fixpoint repeat_nat (s : string) (n : nat) : string :=
  match n with
  | O => EmptyString
  | S k => String.append s (repeat_nat s k)
  end.

Definition str_mul (s : string) (n : Z) : string := repeat_nat s (Z.to_nat n).

(** [len(s)]. *)
Definition str_len (s : string) : Z := Z.of_nat (String.length s).

(** Lines as a text file yields them when iterated: cut after every
    newline, the newline kept. *)
Fixpoint file_lines_from (cur : string) (s : string) : list string :=
  match s with
  | String c rest =>
      if Ascii.eqb c "010"%char
      then rev_string EmptyString (String c cur) :: file_lines_from EmptyString rest
      else file_lines_from (String c cur) rest
  | EmptyString => flush cur
  end.

Definition file_lines (s : string) : list string := file_lines_from EmptyString s.

(** [s.splitlines()]: cut at every line boundary, the boundary dropped;
    a carriage return followed by a line feed is one boundary. *)
Definition is_linebreak (c : ascii) : bool :=
  let n := N_of_ascii c in
  ((10 <=? n) && (n <=? 13) || (28 <=? n) && (n <=? 30) || (n =? 133))%N.

Fixpoint splitlines_from (cur : string) (s : string) : list string :=
  match s with
  | String c rest =>
      if is_linebreak c then
        rev_string EmptyString cur ::
          match rest with
          | String c' rest' =>
              if (Ascii.eqb c "013"%char && Ascii.eqb c' "010"%char)%bool
              then splitlines_from EmptyString rest'
              else splitlines_from EmptyString rest
          | EmptyString => []
          end
      else splitlines_from (String c cur) rest
  | EmptyString => flush cur
  end.

Definition splitlines (s : string) : list string := splitlines_from EmptyString s.

End Py.

Export Py.

Declare Scope py_scope.
Delimit Scope py_scope with py.
Notation "x <- m ;; k" := (bind m (fun x => k))
  (at level 61, m at next level, right associativity) : py_scope.
Notation "m ;;; k" := (bind m (fun _ => k))
  (at level 61, right associativity) : py_scope.
Local Open Scope py_scope.

(** [l[i]] on a list: a negative index counts from the end. *)
Definition getitem {A : Type} (l : list A) (i : Z) : result A :=
  let j := if i <? 0 then i + len l else i in
  if j <? 0 then Raise (IndexError "list index out of range")
  else match nth_error l (Z.to_nat j) with
       | Some x => Ok x
       | None => Raise (IndexError "list index out of range")
       end.

(** [collections.Counter]: a dict from element to count, a new key going
    to the end. *)
Fixpoint counter_incr (t : string) (c : list (string * Z)) : list (string * Z) :=
  match c with
  | [] => [(t, 1)]
  | (k, v) :: rest =>
      if String.eqb k t then (k, v + 1) :: rest else (k, v) :: counter_incr t rest
  end.

Definition Counter (elems : list string) : list (string * Z) :=
  fold_left (fun c t => counter_incr t c) elems [].

(* ================================================================== *)
(** ** Vocabulary building ([helpers.py], [build_vocab]) *)
(* ================================================================== *)

(** What [build_vocab] reads of an example: its [src] and [trg]
    attributes, both token lists. *)
Class Bitext (E : Type) : Type := {
  get_src : E -> list string;
  get_trg : E -> list string
}.

(** Modelled from the spec: [DEFAULT_UNK_ID] of [joeynmt.constants], which
    is not among the sources; index 0 is always the unknown token. *)
Definition DEFAULT_UNK_ID : Z := 0.

(** The class [Vocabulary] of [joeynmt.vocabulary], which is not among the
    sources, taken as an interface: its two constructors, [add_tokens]
    and [is_unk]. *)
Class VocabularyClass (V : Type) : Type := {
  Vocabulary_of_tokens : list string -> result V;
  Vocabulary_of_file : string -> result V;
  add_tokens : V -> list string -> V;
  is_unk : V -> string -> bool
}.

Section BuildVocab.

(** The reserved tokens of [joeynmt.constants], whose spelling no
    modelled path depends on. *)
Context (UNK_TOKEN PAD_TOKEN BOS_TOKEN EOS_TOKEN : string).
Context {E : Type} `{Bitext E}.

Definition specials : list string :=
  [UNK_TOKEN; PAD_TOKEN; BOS_TOKEN; EOS_TOKEN].

(** Filter counter by min frequency. *)
Definition filter_min (counter : list (string * Z)) (min_freq : Z)
  : list (string * Z) :=
  filter (fun tc => min_freq <=? snd tc) counter.

(** Cut counter to most frequent, sorted numerically and
    alphabetically. *)
Definition sort_and_cut (counter : list (string * Z)) (limit : Z) : list string :=
  let tokens_and_frequencies := sorted_str fst counter in
  let tokens_and_frequencies := sorted_int snd true tokens_and_frequencies in
  map fst (slice_to tokens_and_frequencies limit).

(** The loop over [dataset.examples] that extends [tokens]. *)
Definition collect_tokens (field : string) (examples : list E) : list string :=
  fold_left
    (fun tokens i =>
       if String.eqb field "src" then tokens ++ get_src i
       else if String.eqb field "trg" then tokens ++ get_trg i
       else tokens)
    examples [].

(** The branch of [build_vocab] taken when [vocab_file is None], up to
    the token list handed to [Vocabulary]. *)
Definition build_vocab_tokens (field : string) (max_size min_freq : Z)
           (examples : list E) : result (list string) :=
  let tokens := collect_tokens field examples in
  let counter := Counter tokens in
  let counter := if -1 <? min_freq then filter_min counter min_freq else counter in
  let vocab_tokens := specials ++ sort_and_cut counter max_size in
  (unk <- getitem vocab_tokens DEFAULT_UNK_ID ;;
   assert (String.eqb unk UNK_TOKEN) ;;;
   assert (len vocab_tokens <=? max_size + len specials) ;;;
   Ok vocab_tokens)%py.

Context {V : Type} `{VocabularyClass V}.

(** [build_vocab]: the vocabulary of a field, read from [vocab_file]
    when one is given and built from the data set otherwise. *)
Definition build_vocab (field : string) (max_size min_freq : Z)
           (dataset : list E) (vocab_file : option string) : result V :=
  (vocab <-
     match vocab_file with
     | Some file =>
         vocab <- Vocabulary_of_file file ;;
         Ok (add_tokens vocab specials)
     | None =>
         vocab_tokens <- build_vocab_tokens field max_size min_freq dataset ;;
         Vocabulary_of_tokens vocab_tokens
     end ;;
   for_each (fun _ s => assert (negb (is_unk vocab s))) (tl specials) tt ;;;
   Ok vocab)%py.

End BuildVocab.

(** *** The ranking the specification asks for *)

(** Number of occurrences of a token in the token stream. *)
Definition freq (tokens : list string) (t : string) : Z :=
  Z.of_nat (count_occ string_dec tokens t).

(** A token survives the frequency filter. *)
Definition survives (min_freq : Z) (tokens : list string) (t : string) : Prop :=
  In t tokens /\ (-1 < min_freq -> min_freq <= freq tokens t).

(** [t1] is ranked no later than [t2]: more frequent, or as frequent and
    not after it in lexicographic order. *)
Definition ranked_before (tokens : list string) (t1 t2 : string) : Prop :=
  freq tokens t2 < freq tokens t1
  \/ (freq tokens t1 = freq tokens t2 /\ String.leb t1 t2 = true).

(** The tokens of the selected field, example after example. *)
Definition field_tokens {E : Type} `{Bitext E} (field : string) (examples : list E)
  : list string :=
  if String.eqb field "src" then flat_map get_src examples
  else if String.eqb field "trg" then flat_map get_trg examples
  else [].

(* ================================================================== *)
(** ** The environment: files and external collaborators *)
(* ================================================================== *)

(** A numpy array of rank two, as far as the loaders look at it: its
    shape and its entries. *)
Record ndarray (Sample : Type) : Type := mk_ndarray {
  nrows : nat;
  ncols : nat;
  entry : nat -> nat -> Sample
}.

Arguments mk_ndarray {Sample} nrows ncols entry.
Arguments nrows {Sample} _.
Arguments ncols {Sample} _.
Arguments entry {Sample} _ _ _.

(** [m.T]. *)
Definition transpose {Sample : Type} (m : ndarray Sample) : ndarray Sample :=
  mk_ndarray (ncols m) (nrows m) (fun i j => entry m j i).

(** [m.shape[0]]. *)
Definition shape0 {Sample : Type} (m : ndarray Sample) : Z := Z.of_nat (nrows m).

(** What the loaders ask of the operating system and of the audio
    libraries.  [None] stands for the callee raising. *)
Record World (Sound Signal Sample : Type) : Type := mk_World {
  expanduser : string -> string;
  (** [open(p).read()], newlines already translated *)
  read_text : string -> option string;
  (** [open(p, 'a')] succeeds *)
  open_append : string -> bool;
  (** [os.path.isfile(p)] *)
  isfile : string -> bool;
  (** [os.path.getsize(p)] *)
  getsize : string -> option Z;
  (** [ta.load(p)]: the waveform and its sample rate *)
  ta_load : string -> option (Sound * Z);
  (** [librosa.load(p, sr=None)] *)
  librosa_load : string -> option (Signal * Z);
  (** [librosa.feature.mfcc(y=y, sr=sr, n_mfcc=n)]: one row per
      coefficient, one column per frame *)
  librosa_feature_mfcc : Signal -> Z -> Z -> option (ndarray Sample)
}.

Arguments mk_World {Sound Signal Sample}.
Arguments expanduser {Sound Signal Sample} _ _.
Arguments read_text {Sound Signal Sample} _ _.
Arguments open_append {Sound Signal Sample} _ _.
Arguments isfile {Sound Signal Sample} _ _.
Arguments getsize {Sound Signal Sample} _ _.
Arguments ta_load {Sound Signal Sample} _ _.
Arguments librosa_load {Sound Signal Sample} _ _.
Arguments librosa_feature_mfcc {Sound Signal Sample} _ _ _ _.

(** The result of an external call. *)
Definition external {A : Type} (callee arg : string) (r : option A) : result A :=
  match r with
  | Some a => Ok a
  | None => Raise (ExternalError callee arg)
  end.

(** [open(p)] for reading, the whole text at once. *)
Definition open_read {Sound Signal Sample : Type} (w : World Sound Signal Sample)
           (p : string) : result string :=
  match read_text w p with
  | Some s => Ok s
  | None => Raise (OSError p)
  end.

(** A global name is looked up in the names the module binds. *)
Definition lookup_global (module_names : list string) (name : string) : result unit :=
  if existsb (String.eqb name) module_names then Ok tt else Raise (NameError name).

(** One line appended to a [_length_statistics] file; [mean] is the exact
    quotient [summa / count]. *)
Record stat_line : Type := mk_stat_line {
  st_mini : Z;
  st_maxi : Z;
  st_mean : Z * Z
}.

(** The statistics files: the lines appended so far, latest first, each
    with the path it went to. *)
Definition sidecar : Type := list (string * stat_line).

(* ================================================================== *)
(** ** torchtext *)
(* ================================================================== *)

Module Torchtext.

(** [str.lower] on the code points below 256. *)
Definition lower_char (c : ascii) : ascii :=
  let n := N_of_ascii c in
  if ((65 <=? n) && (n <=? 90)
      || (192 <=? n) && (n <=? 222) && negb (n =? 215))%N
  then ascii_of_N (n + 32) else c.

Fixpoint str_lower (s : string) : string :=
  match s with
  | String c rest => String (lower_char c) (str_lower rest)
  | EmptyString => EmptyString
  end.

(** Modelled from the spec: [torchtext.data.Field], an external class.
    Section 4.3: the tokenization policy is selected by configuration and
    case folding is applied uniformly when the lowercase option is set. *)
Record Field : Type := mk_Field {
  init_token : option string;
  eos_token : option string;
  pad_token : option string;
  unk_token : option string;
  tokenize : string -> list string;
  lower : bool
}.

Definition preprocess (f : Field) (x : string) : list string :=
  let toks := tokenize f x in
  if lower f then map str_lower toks else toks.

(** Modelled from the spec: [torchtext.data.Dataset], an external class.
    Section 3: an ordered collection of examples with its field schema;
    section 4.3: the filter, when one is given, discards the examples it
    rejects. *)
Record Dataset (E : Type) : Type := mk_Dataset {
  examples : list E;
  fields : list string
}.

Arguments mk_Dataset {E} examples fields.
Arguments examples {E} _.
Arguments fields {E} _.

Definition Dataset_init {E : Type} (exs : list E) (flds : list string)
           (filter_pred : option (E -> bool)) : Dataset E :=
  match filter_pred with
  | Some p => mk_Dataset (filter p exs) flds
  | None => mk_Dataset exs flds
  end.

(** An example of a parallel text corpus. *)
Record Example : Type := mk_Example {
  src : list string;
  trg : list string
}.

(** Modelled from the spec: [torchtext.datasets.TranslationDataset], an
    external class.  Section 4.3: read the two line-aligned files
    [path + exts], strip each line, and produce one example per aligned
    pair of non-empty lines; a missing file is a hard failure. *)
Definition TranslationDataset {Sound Signal Sample : Type}
           (w : World Sound Signal Sample)
           (path : string) (exts : string * string) (flds : Field * Field)
           (filter_pred : option (Example -> bool)) : result (Dataset Example) :=
  (let src_path := expanduser w (path ++ fst exts)%string in
   let trg_path := expanduser w (path ++ snd exts)%string in
   src_file <- open_read w src_path ;;
   trg_file <- open_read w trg_path ;;
   let exs :=
     flat_map
       (fun lines =>
          let src_line := strip (fst lines) in
          let trg_line := strip (snd lines) in
          if negb (String.eqb src_line "") && negb (String.eqb trg_line "")
          then [mk_Example (preprocess (fst flds) src_line)
                           (preprocess (snd flds) trg_line)]
          else [])
       (combine (file_lines src_file) (file_lines trg_file)) in
   Ok (Dataset_init exs ["src"; "trg"] filter_pred))%py.

End Torchtext.

Export Torchtext.

#[export] Instance Bitext_Example : Bitext Example :=
  {| get_src := src; get_trg := trg |}.

(* ================================================================== *)
(** ** Calls with keyword arguments *)
(* ================================================================== *)

(** An argument value at a call of [build_vocab]. *)
Inductive pyarg (D : Type) : Type :=
| PStr (s : string)
| PInt (z : Z)
| PNone
| PData (d : D).

Arguments PStr {D} s.
Arguments PInt {D} z.
Arguments PNone {D}.
Arguments PData {D} d.

(** Binding the keywords of a call to the parameters of a [def]: every
    keyword must name a parameter, and every parameter without a default
    must be given. *)
Definition check_keywords (fname : string) (params required keywords : list string)
  : result unit :=
  match find (fun k => negb (existsb (String.eqb k) params)) keywords with
  | Some k =>
      Raise (TypeError (fname ++ "() got an unexpected keyword argument '" ++ k ++ "'"))
  | None =>
      match find (fun p => negb (existsb (String.eqb p) keywords)) required with
      | Some p =>
          Raise (TypeError (fname ++ "() missing 1 required positional argument: '" ++ p ++ "'"))
      | None => Ok tt
      end
  end.

Definition kwarg {D : Type} (kwargs : list (string * pyarg D)) (name : string)
  : option (pyarg D) :=
  option_map snd (find (fun kv => String.eqb (fst kv) name) kwargs).

Section BuildVocabCall.

Context (UNK_TOKEN PAD_TOKEN BOS_TOKEN EOS_TOKEN : string).
Context {E : Type} `{Bitext E} {V : Type} `{VocabularyClass V}.

(** A call of [build_vocab] that passes keywords only, for
    [def build_vocab(field, max_size, min_freq, dataset, vocab_file=None)].
    The last case is an argument of another type than the annotated
    one, which no call site passes. *)
Definition build_vocab_kw (kwargs : list (string * pyarg (Dataset E))) : result V :=
  (check_keywords "build_vocab"
     ["field"; "max_size"; "min_freq"; "dataset"; "vocab_file"]
     ["field"; "max_size"; "min_freq"; "dataset"]
     (map fst kwargs) ;;;
   match kwarg kwargs "field", kwarg kwargs "max_size",
         kwarg kwargs "min_freq", kwarg kwargs "dataset",
         kwarg kwargs "vocab_file" with
   | Some (PStr field), Some (PInt max_size), Some (PInt min_freq),
     Some (PData dataset), Some (PStr file) =>
       build_vocab UNK_TOKEN PAD_TOKEN BOS_TOKEN EOS_TOKEN
                   field max_size min_freq (examples dataset) (Some file)
   | Some (PStr field), Some (PInt max_size), Some (PInt min_freq),
     Some (PData dataset), (Some PNone | None) =>
       build_vocab UNK_TOKEN PAD_TOKEN BOS_TOKEN EOS_TOKEN
                   field max_size min_freq (examples dataset) None
   | _, _, _, _, _ => Raise (TypeError "build_vocab(): argument type")
   end)%py.

End BuildVocabCall.

(* ================================================================== *)
(** ** Configuration *)
(* ================================================================== *)

(** [cfg]: the keys the loaders read.  The keys read with [cfg[...]] are
    fields, so a configuration that lacks one is not represented; the keys
    read with [.get] are optional. *)
Record Cfg : Type := mk_Cfg {
  data_src : string;
  data_trg : string;
  data_audio : string;
  data_train : string;
  data_dev : string;
  data_test : option string;
  data_level : string;
  data_lowercase : bool;
  data_max_sent_length : Z;
  data_max_audio_length : Z;
  data_voc_limit : option Z;
  data_voc_min_freq : option Z;
  (** [data_cfg.get(key, None)] for the vocabulary file keys *)
  data_get : string -> option string;
  (** [cfg["model"]["encoder"]["embeddings"]["embedding_dim"]] *)
  embedding_dim : Z
}.

(** The configuration with another [max_sent_length]. *)
Definition with_max_sent_length (m : Z) (cfg : Cfg) : Cfg :=
  mk_Cfg (data_src cfg) (data_trg cfg) (data_audio cfg) (data_train cfg)
         (data_dev cfg) (data_test cfg) (data_level cfg) (data_lowercase cfg)
         m (data_max_audio_length cfg) (data_voc_limit cfg)
         (data_voc_min_freq cfg) (data_get cfg) (embedding_dim cfg).

(** [sys.maxsize]. *)
Definition sys_maxsize : Z := 2 ^ 63 - 1.

(** [tok_fun]: [list(s)] at character level, [s.split()] otherwise. *)
Definition tok_fun (level : string) : string -> list string :=
  if String.eqb level "char" then chars else split.

Definition opt_arg {D : Type} (o : option string) : pyarg D :=
  match o with
  | Some s => PStr s
  | None => PNone
  end.

(* ================================================================== *)
(** ** The loaders of [helpers.py] and [data.py] *)
(* ================================================================== *)

(** An example without target. *)
Record MonoExample : Type := mk_MonoExample {
  mono_src : list string
}.

Section Loaders.

Context {Sound Signal Sample : Type}.
Context (UNK_TOKEN PAD_TOKEN BOS_TOKEN EOS_TOKEN : string).
Context {V : Type}.

(** The names bound at the top level of the module the code is in. *)
Variable module_names : list string.

(** The [build_vocab] the module sees, called with keywords, on text
    and on audio data sets. *)
Variable text_build_vocab : list (string * pyarg (Dataset Example)) -> result V.

Variable w : World Sound Signal Sample.

(** *** Text *)

(** The fields of the two sides of a parallel text corpus. *)
Definition src_field (cfg : Cfg) : Field :=
  mk_Field None (Some EOS_TOKEN) (Some PAD_TOKEN) (Some UNK_TOKEN)
           (tok_fun (data_level cfg)) (data_lowercase cfg).

Definition trg_field (cfg : Cfg) : Field :=
  mk_Field (Some BOS_TOKEN) (Some EOS_TOKEN) (Some PAD_TOKEN) (Some UNK_TOKEN)
           (tok_fun (data_level cfg)) (data_lowercase cfg).

(** The [filter_pred] of the training split of [load_data]. *)
Definition text_filter_pred (cfg : Cfg) (x : Example) : bool :=
  (len (src x) <=? data_max_sent_length cfg)
  && (len (trg x) <=? data_max_sent_length cfg).

(** The training split of [load_data]: the only one with a [filter_pred]. *)
Definition load_train (cfg : Cfg) : result (Dataset Example) :=
  TranslationDataset w (data_train cfg)
    ("." ++ data_src cfg, "." ++ data_trg cfg)%string
    (src_field cfg, trg_field cfg)
    (Some (text_filter_pred cfg)).

Definition load_dev (cfg : Cfg) : result (Dataset Example) :=
  TranslationDataset w (data_dev cfg)
    ("." ++ data_src cfg, "." ++ data_trg cfg)%string
    (src_field cfg, trg_field cfg) None.

(** Create a monolingual dataset (only sources) given path and field. *)
Definition MonoDataset (path ext : string) (field : Field)
  : result (Dataset MonoExample) :=
  (let src_path := expanduser w (path ++ ext)%string in
   src_file <- open_read w src_path ;;
   let exs :=
     flat_map
       (fun src_line =>
          let src_line := strip src_line in
          if negb (String.eqb src_line "")
          then [mk_MonoExample (preprocess field src_line)]
          else [])
       (file_lines src_file) in
   Ok (Dataset_init exs ["src"] None))%py.

Definition load_test (cfg : Cfg)
  : result (option (Dataset Example + Dataset MonoExample)) :=
  match data_test cfg with
  | Some test_path =>
      if isfile w (test_path ++ "." ++ data_trg cfg)%string
      then
        (d <- TranslationDataset w test_path
                ("." ++ data_src cfg, "." ++ data_trg cfg)%string
                (src_field cfg, trg_field cfg) None ;;
         Ok (Some (inl d)))%py
      else
        (d <- MonoDataset test_path ("." ++ data_src cfg)%string (src_field cfg) ;;
         Ok (Some (inr d)))%py
  | None => Ok None
  end.

(** Load train, dev and test data as specified in configuration.  The
    two final assignments to the [vocab] attribute of the fields are not
    represented: no loader reads it. *)
Definition load_data (cfg : Cfg)
  : result (Dataset Example * Dataset Example
            * option (Dataset Example + Dataset MonoExample) * V * V) :=
  (train_data <- load_train cfg ;;
   let max_size :=
     match data_voc_limit cfg with Some n => n | None => sys_maxsize end in
   let min_freq :=
     match data_voc_min_freq cfg with Some n => n | None => 1 end in
   let src_vocab_file := data_get cfg "src_vocab" in
   let trg_vocab_file := data_get cfg "trg_vocab" in
   src_vocab <- text_build_vocab
                  [("field", PStr "src"); ("min_freq", PInt min_freq);
                   ("max_size", PInt max_size); ("dataset", PData train_data);
                   ("vocab_file", opt_arg src_vocab_file)] ;;
   trg_vocab <- text_build_vocab
                  [("field", PStr "trg"); ("min_freq", PInt min_freq);
                   ("max_size", PInt max_size); ("dataset", PData train_data);
                   ("vocab_file", opt_arg trg_vocab_file)] ;;
   dev_data <- load_dev cfg ;;
   test_data <- load_test cfg ;;
   Ok (train_data, dev_data, test_data, src_vocab, trg_vocab))%py.

(** *** Audio *)

(** An example of a speech corpus: the transcript, the waveform, the
    signal, the features and the placeholder source. *)
Record AudioExample : Type := mk_AudioExample {
  a_trg : list string;
  a_audio : Sound;
  a_audio2 : Signal;
  a_mfcc : ndarray Sample;
  a_src : list string
}.

#[export] Instance Bitext_AudioExample : Bitext AudioExample :=
  {| get_src := a_src; get_trg := a_trg |}.

Variable audio_build_vocab
  : list (string * pyarg (Dataset AudioExample)) -> result V.

(** The variables of the loop of [AudioDataset.__init__]. *)
Record loop_state : Type := mk_loop_state {
  ls_examples : list AudioExample;
  ls_maxi : Z;
  ls_mini : Z;
  ls_summa : Z;
  ls_count : Z
}.

(** Appending an example and updating the statistics with [check]. *)
Definition record_example (st : loop_state) (ex : AudioExample) (check : Z)
  : loop_state :=
  let maxi := if ls_maxi st <? check then check else ls_maxi st in
  let mini := if check <? ls_mini st then check else ls_mini st in
  mk_loop_state (ls_examples st ++ [ex]) maxi mini
                (ls_summa st + check) (ls_count st + 1).

(** The body of the loop over the zipped lines. *)
Definition loop_body (field : Field) (num : Z) (char_level train : bool)
           (st : loop_state) (lines : string * string) : result loop_state :=
  (let text_line := strip (fst lines) in
   let audio_line := strip (snd lines) in
   lookup_global module_names "ta" ;;;
   sound_rate <- external "ta.load" audio_line (ta_load w audio_line) ;;
   let sound := fst sound_rate in
   lookup_global module_names "librosa" ;;;
   y_sr <- external "librosa.load" audio_line (librosa_load w audio_line) ;;
   let y := fst y_sr in
   let sr := snd y_sr in
   features <- external "librosa.feature.mfcc" audio_line
                 (librosa_feature_mfcc w y sr num) ;;
   let featuresT := transpose features in
   lookup_global module_names "torch" ;;;
   let featureS := featuresT in
   let audio_dummy :=
     if char_level then str_mul "a" (shape0 featuresT - 1)
     else str_mul "a " (shape0 featuresT - 1) in
   let check := shape0 featuresT / (str_len text_line + 1) in
   let ex := mk_AudioExample (preprocess field text_line) sound y featureS
                             (preprocess field audio_dummy) in
   if train then
     if negb (String.eqb text_line "") && negb (String.eqb audio_line "")
     then
       size <- external "os.path.getsize" audio_line (getsize w audio_line) ;;
       if (44 <? size) && (check <? 10)
       then Ok (record_example st ex check)
       else Ok st
     else Ok st
   else Ok (record_example st ex check))%py.

(** [AudioDataset.__init__].  [sc] is the state of the statistics files
    before the call; the state after it comes with the data set. *)
Definition AudioDataset (path text_ext audio_ext : string) (field : Field)
           (num : Z) (char_level train : bool)
           (filter_pred : option (AudioExample -> bool)) (sc : sidecar)
  : result (Dataset AudioExample * sidecar) :=
  (let flds := ["trg"; "audio"; "audio2"; "mfcc"; "src"] in
   let text_path := expanduser w (path ++ text_ext)%string in
   let audio_path := expanduser w (path ++ audio_ext)%string in
   let init := mk_loop_state [] 1 10 0 0 in
   let log_path := expanduser w (path ++ "_length_statistics")%string in
   (if open_append w log_path then Ok tt else Raise (OSError log_path)) ;;;
   text_all <- open_read w text_path ;;
   audio_all <- open_read w audio_path ;;
   if negb (len (splitlines text_all) =? len (splitlines audio_all))
   then Raise (IndexError "The size of the text and audio dataset differs.")
   else
     text_file <- open_read w text_path ;;
     audio_file <- open_read w audio_path ;;
     st <- for_each (loop_body field num char_level train)
                    (combine (file_lines text_file) (file_lines audio_file))
                    init ;;
     mean <- (if ls_count st =? 0 then Raise ZeroDivisionError
              else Ok (ls_summa st, ls_count st)) ;;
     let sc' := (log_path, mk_stat_line (ls_mini st) (ls_maxi st) mean) :: sc in
     Ok (Dataset_init (ls_examples st) flds filter_pred, sc'))%py.

(** An example of a speech corpus without transcript. *)
Record MonoAudioExample : Type := mk_MonoAudioExample {
  ma_src : Sound
}.

(** [MonoAudioDataset.__init__]. *)
Definition MonoAudioDataset (path audio_ext : string)
  : result (Dataset MonoAudioExample) :=
  (let audio_path := expanduser w (path ++ audio_ext)%string in
   audio_file <- open_read w audio_path ;;
   exs <- for_each
            (fun exs audio_line =>
               let audio_line := strip audio_line in
               lookup_global module_names "ta" ;;;
               sound_rate <- external "ta.load" audio_line (ta_load w audio_line) ;;
               if negb (String.eqb audio_line "")
               then
                 size <- external "os.path.getsize" audio_line
                           (getsize w audio_line) ;;
                 if 44 <? size
                 then Ok (exs ++ [mk_MonoAudioExample (fst sound_rate)])
                 else Ok exs
               else Ok exs)
            (file_lines audio_file) [] ;;
   Ok (Dataset_init exs ["src"] None))%py.

(** The keyword under which [load_audio_data] passes the training set
    to [build_vocab]: the two modules differ in it. *)
Variable dataset_keyword : string.

(** The [filter_pred] of the training split of [load_audio_data]. *)
Definition audio_filter_pred (cfg : Cfg) (x : AudioExample) : bool :=
  (len (a_src x) <=? data_max_audio_length cfg)
  && (len (a_trg x) <=? data_max_sent_length cfg).

(** The field of the transcripts and of the placeholder sources. *)
Definition audio_field (cfg : Cfg) : Field :=
  mk_Field None (Some EOS_TOKEN) (Some PAD_TOKEN) (Some UNK_TOKEN)
           (tok_fun (data_level cfg)) (data_lowercase cfg).

(** The side of the language pair that is audio. *)
Definition audio_lang (cfg : Cfg) : string :=
  if String.eqb (data_audio cfg) "src" then data_src cfg else data_trg cfg.

(** The training split of [load_audio_data]: the only one with a
    [filter_pred]. *)
Definition load_audio_train (cfg : Cfg) (sc : sidecar)
  : result (Dataset AudioExample * sidecar) :=
  AudioDataset (data_train cfg) ("." ++ audio_lang cfg)%string ".txt"
    (audio_field cfg) (embedding_dim cfg)
    (String.eqb (data_level cfg) "char") true
    (Some (audio_filter_pred cfg)) sc.

(** A split of [load_audio_data] other than the training split. *)
Definition load_audio_eval (path : string) (cfg : Cfg) (sc : sidecar)
  : result (Dataset AudioExample * sidecar) :=
  AudioDataset path ("." ++ audio_lang cfg)%string ".txt"
    (audio_field cfg) (embedding_dim cfg)
    (String.eqb (data_level cfg) "char") false None sc.

(** Load train, dev and test audio data as specified in configuration. *)
Definition load_audio_data (cfg : Cfg) (sc : sidecar)
  : result (Dataset AudioExample * Dataset AudioExample
            * option (Dataset AudioExample + Dataset MonoAudioExample)
            * V * V * sidecar) :=
  (train <- load_audio_train cfg sc ;;
   let train_data := fst train in
   let max_size :=
     match data_voc_limit cfg with Some n => n | None => sys_maxsize end in
   let min_freq :=
     match data_voc_min_freq cfg with Some n => n | None => 1 end in
   let trg_vocab_file := data_get cfg (audio_lang cfg ++ "_vocab")%string in
   trg_vocab <- audio_build_vocab
                  [("field", PStr "trg"); ("min_freq", PInt min_freq);
                   ("max_size", PInt max_size);
                   (dataset_keyword, PData train_data);
                   ("vocab_file", opt_arg trg_vocab_file)] ;;
   let src_vocab := trg_vocab in
   dev <- load_audio_eval (data_dev cfg) cfg (snd train) ;;
   let dev_data := fst dev in
   match data_test cfg with
   | Some test_path =>
       if isfile w (test_path ++ "." ++ audio_lang cfg)%string
       then
         test <- load_audio_eval test_path cfg (snd dev) ;;
         Ok (train_data, dev_data, Some (inl (fst test)),
             src_vocab, trg_vocab, snd test)
       else
         test <- MonoAudioDataset test_path ".txt" ;;
         Ok (train_data, dev_data, Some (inr test),
             src_vocab, trg_vocab, snd dev)
   | None => Ok (train_data, dev_data, None, src_vocab, trg_vocab, snd dev)
   end)%py.

End Loaders.

(** *** Batching *)

(** The torchtext iterator [make_data_iter] asks for: the class and the
    arguments it is constructed with.  The iterator itself is torchtext's. *)
Record IteratorRequest : Type := mk_IteratorRequest {
  it_bucket : bool;
  it_repeat : bool;
  it_sort : bool;
  it_batch_size : Z;
  it_train : bool;
  it_sort_within_batch : option bool;
  (** [sort_key] is [lambda x: len(x.src)] when given *)
  it_sort_key_src_len : bool;
  it_shuffle : option bool
}.

(** Returns a torchtext iterator for a torchtext dataset. *)
Definition make_data_iter (batch_size : Z) (train shuffle : bool) : IteratorRequest :=
  if train
  then mk_IteratorRequest true false false batch_size true (Some true) true
                          (Some shuffle)
  else mk_IteratorRequest false false false batch_size false None false None.

(* ================================================================== *)
(** ** The two modules *)
(* ================================================================== *)

(** [joeynmt/helpers.py]. *)
Module Helpers.

(** The names bound at the top level of [helpers.py], by its imports and
    by its definitions. *)
Definition module_names : list string :=
  ["copy"; "glob"; "os"; "sys"; "ta"; "librosa"; "Counter"; "Logger";
   "Callable"; "np"; "yaml"; "torch"; "nn"; "TranslationDataset"; "data";
   "Dataset"; "UNK_TOKEN"; "DEFAULT_UNK_ID"; "EOS_TOKEN"; "BOS_TOKEN";
   "PAD_TOKEN"; "Vocabulary"; "plot_heatmap";
   "log_cfg"; "build_vocab"; "array_to_sentence"; "arrays_to_sentences";
   "clones"; "subsequent_mask"; "log_data_info"; "load_data"; "MonoDataset";
   "load_audio_data"; "AudioDataset"; "MonoAudioDataset"; "load_config";
   "bpe_postprocess"; "store_attention_plots"; "get_latest_checkpoint";
   "load_model_from_checkpoint"; "make_data_iter"; "tile"; "freeze_params"].

Section Instance.

Context {Sound Signal Sample : Type}.
Context (UNK_TOKEN PAD_TOKEN BOS_TOKEN EOS_TOKEN : string).
Context {V : Type} `{VocabularyClass V}.
Variable w : World Sound Signal Sample.

Definition AudioDataset :=
  AudioDataset (Sound := Sound) (Signal := Signal) (Sample := Sample)
               module_names w.

Definition load_audio_train : Cfg -> sidecar -> _ :=
  load_audio_train UNK_TOKEN PAD_TOKEN EOS_TOKEN module_names w.

Definition load_audio_eval : string -> Cfg -> sidecar -> _ :=
  load_audio_eval UNK_TOKEN PAD_TOKEN EOS_TOKEN module_names w.

Definition MonoAudioDataset :=
  MonoAudioDataset (Sound := Sound) (Signal := Signal) (Sample := Sample)
                   module_names w.

Definition load_train : Cfg -> _ :=
  load_train UNK_TOKEN PAD_TOKEN BOS_TOKEN EOS_TOKEN w.

Definition load_dev : Cfg -> _ :=
  load_dev UNK_TOKEN PAD_TOKEN BOS_TOKEN EOS_TOKEN w.

Definition load_test : Cfg -> _ :=
  load_test UNK_TOKEN PAD_TOKEN BOS_TOKEN EOS_TOKEN w.

Definition load_data : Cfg -> _ :=
  load_data UNK_TOKEN PAD_TOKEN BOS_TOKEN EOS_TOKEN
            (build_vocab_kw UNK_TOKEN PAD_TOKEN BOS_TOKEN EOS_TOKEN) w.

(** [load_audio_data] of [helpers.py] passes the training set as [data=]. *)
Definition load_audio_data : Cfg -> sidecar -> _ :=
  load_audio_data UNK_TOKEN PAD_TOKEN EOS_TOKEN module_names w
                  (build_vocab_kw UNK_TOKEN PAD_TOKEN BOS_TOKEN EOS_TOKEN)
                  "data".

End Instance.

End Helpers.

(** [joeynmt/data.py]. *)
Module Data.

(** The names bound at the top level of [data.py], by its imports and by
    its definitions. *)
Definition module_names : list string :=
  ["sys"; "os"; "TranslationDataset"; "data"; "Dataset";
   "UNK_TOKEN"; "EOS_TOKEN"; "BOS_TOKEN"; "PAD_TOKEN"; "build_vocab";
   "load_data"; "make_data_iter"; "MonoDataset"; "load_audio_data";
   "AudioDataset"; "MonoAudioDataset"].

Section Instance.

Context {Sound Signal Sample : Type}.
Context (UNK_TOKEN PAD_TOKEN BOS_TOKEN EOS_TOKEN : string).
Context {V : Type}.

(** [build_vocab] as imported from [joeynmt.vocabulary], which is not
    among the sources. *)
Variable vocabulary_build_vocab
  : forall E : Type, Bitext E -> list (string * pyarg (Dataset E)) -> result V.

Variable w : World Sound Signal Sample.

Definition AudioDataset :=
  AudioDataset (Sound := Sound) (Signal := Signal) (Sample := Sample)
               module_names w.

Definition load_audio_train : Cfg -> sidecar -> _ :=
  load_audio_train UNK_TOKEN PAD_TOKEN EOS_TOKEN module_names w.

Definition load_audio_eval : string -> Cfg -> sidecar -> _ :=
  load_audio_eval UNK_TOKEN PAD_TOKEN EOS_TOKEN module_names w.

Definition MonoAudioDataset :=
  MonoAudioDataset (Sound := Sound) (Signal := Signal) (Sample := Sample)
                   module_names w.

Definition load_train : Cfg -> _ :=
  load_train UNK_TOKEN PAD_TOKEN BOS_TOKEN EOS_TOKEN w.

Definition load_dev : Cfg -> _ :=
  load_dev UNK_TOKEN PAD_TOKEN BOS_TOKEN EOS_TOKEN w.

Definition load_test : Cfg -> _ :=
  load_test UNK_TOKEN PAD_TOKEN BOS_TOKEN EOS_TOKEN w.

Definition load_data : Cfg -> _ :=
  load_data UNK_TOKEN PAD_TOKEN BOS_TOKEN EOS_TOKEN
            (vocabulary_build_vocab Example _) w.

(** [load_audio_data] of [data.py] passes the training set as [dataset=]. *)
Definition load_audio_data : Cfg -> sidecar -> _ :=
  load_audio_data UNK_TOKEN PAD_TOKEN EOS_TOKEN module_names w
                  (vocabulary_build_vocab AudioExample _)
                  "dataset".

End Instance.

End Data.

(* ================================================================== *)
(** ** Vocabulary of the statements *)
(* ================================================================== *)

Section Statements.

Context {Sound Signal Sample : Type}.
Context (UNK_TOKEN PAD_TOKEN EOS_TOKEN : string).
Variable w : World Sound Signal Sample.

(** What the three external calls of one iteration return for an audio
    reference: the waveform, the signal and the transposed features. *)
Definition features_of (num : Z) (audio_line : string)
  : option (Sound * Signal * ndarray Sample) :=
  match ta_load w audio_line, librosa_load w audio_line with
  | Some (sound, _), Some (y, sr) =>
      match librosa_feature_mfcc w y sr num with
      | Some features => Some (sound, y, transpose features)
      | None => None
      end
  | _, _ => None
  end.

(** The number of frames of a clip: the rows of its feature matrix. *)
Definition frame_count (clip : Sound * Signal * ndarray Sample) : Z :=
  shape0 (snd clip).

(** The example that the loop builds from a transcript line and a clip. *)
Definition example_of (field : Field) (char_level : bool) (text_line : string)
           (clip : Sound * Signal * ndarray Sample)
  : @AudioExample Sound Signal Sample :=
  let audio_dummy :=
    if char_level then str_mul "a" (frame_count clip - 1)
    else str_mul "a " (frame_count clip - 1) in
  mk_AudioExample (preprocess field text_line) (fst (fst clip)) (snd (fst clip))
                  (snd clip) (preprocess field audio_dummy).

(** The line pairs of the two files of a split, as the loop sees them:
    zipped and stripped. *)
Definition line_pairs (text audio : string) : list (string * string) :=
  map (fun lines => (strip (fst lines), strip (snd lines)))
      (combine (file_lines text) (file_lines audio)).

(** The referenced audio file has more than 44 bytes. *)
Definition size_exceeds_threshold (audio_line : string) : bool :=
  match getsize w audio_line with
  | Some size => 44 <? size
  | None => false
  end.

(** The tests made in the loop on a training line. *)
Definition passes_loop_tests (text_line audio_line : string) (frames : Z) : bool :=
  negb (String.eqb text_line "") && negb (String.eqb audio_line "")
  && size_exceeds_threshold audio_line
  && (frames / (str_len text_line + 1) <? 10).

(** The tests made by the [filter_pred] of the training split, on the
    length of the placeholder source and of the transcript. *)
Definition within_lengths (cfg : Cfg) (text_line : string) (frames : Z) : bool :=
  (Z.max 0 (frames - 1) <=? data_max_audio_length cfg)
  && (len (preprocess (audio_field UNK_TOKEN PAD_TOKEN EOS_TOKEN cfg) text_line)
      <=? data_max_sent_length cfg).

(** A training line is kept. *)
Definition train_keeps (cfg : Cfg) (text_line audio_line : string) (frames : Z)
  : bool :=
  passes_loop_tests text_line audio_line frames && within_lengths cfg text_line frames.

(** The five conditions of the specification for a training line, the
    frame count itself compared with the maximum audio length. *)
Definition train_keeps_as_specified (cfg : Cfg) (text_line audio_line : string)
           (frames : Z) : bool :=
  negb (String.eqb text_line "")
  && size_exceeds_threshold audio_line
  && (frames / (str_len text_line + 1) <? 10)
  && (frames <=? data_max_audio_length cfg)
  && (len (preprocess (audio_field UNK_TOKEN PAD_TOKEN EOS_TOKEN cfg) text_line)
      <=? data_max_sent_length cfg).

(** The two conditions of the specification for a line of another split. *)
Definition eval_keeps_as_specified (text_line audio_line : string) : bool :=
  negb (String.eqb text_line "") && size_exceeds_threshold audio_line.

(** The examples of the training split, from the contents of its two
    files: one per line pair that is kept, in file order. *)
Definition train_examples (cfg : Cfg) (text audio : string)
  : list (@AudioExample Sound Signal Sample) :=
  flat_map
    (fun lines =>
       match features_of (embedding_dim cfg) (snd lines) with
       | Some clip =>
           if train_keeps cfg (fst lines) (snd lines) (frame_count clip)
           then [example_of (audio_field UNK_TOKEN PAD_TOKEN EOS_TOKEN cfg)
                            (String.eqb (data_level cfg) "char") (fst lines) clip]
           else []
       | None => []
       end)
    (line_pairs text audio).

(** The examples of another split: one per line pair, in file order. *)
Definition eval_examples (cfg : Cfg) (text audio : string)
  : list (@AudioExample Sound Signal Sample) :=
  flat_map
    (fun lines =>
       match features_of (embedding_dim cfg) (snd lines) with
       | Some clip =>
           [example_of (audio_field UNK_TOKEN PAD_TOKEN EOS_TOKEN cfg)
                       (String.eqb (data_level cfg) "char") (fst lines) clip]
       | None => []
       end)
    (line_pairs text audio).

(** What one iteration of the loop appends, with its [check], when the
    external calls succeed: on a training line and on a line of another
    split. *)
Definition appended (field : Field) (num : Z) (char_level train : bool)
           (lines : string * string)
  : list (@AudioExample Sound Signal Sample * Z) :=
  let text_line := strip (fst lines) in
  let audio_line := strip (snd lines) in
  match features_of num audio_line with
  | Some clip =>
      if negb train || passes_loop_tests text_line audio_line (frame_count clip)
      then [(example_of field char_level text_line clip,
             frame_count clip / (str_len text_line + 1))]
      else []
  | None => []
  end.

(** The placeholder source of an example has as many tokens as its
    feature matrix has rows, less one, and none when it has no row. *)
Definition placeholder_ok (e : @AudioExample Sound Signal Sample) : Prop :=
  List.length (a_src e) = Z.to_nat (shape0 (a_mfcc e) - 1).

(** The loop variables after a run of appends. *)
Definition record_all (st : @loop_state Sound Signal Sample)
           (l : list (@AudioExample Sound Signal Sample * Z))
  : @loop_state Sound Signal Sample :=
  fold_left (fun st ec => record_example st (fst ec) (snd ec)) l st.

End Statements.

(** *** Corpora for the examples *)

(** The line feed. *)
Definition LF : string := String "010"%char EmptyString.

Definition lookup {A : Type} (table : list (string * A)) (p : string) : option A :=
  option_map snd (find (fun kv => String.eqb (fst kv) p) table).

(** A world with the text files [files] and the audio clips [clips], a
    clip given by its size in bytes and its number of frames.  The signal
    of a clip is represented by its number of frames, and the features
    have one row per coefficient and one column per frame. *)
Definition corpus_world (files : list (string * string))
           (clips : list (string * (Z * nat))) : World unit nat Z :=
  mk_World
    (fun p => p)
    (lookup files)
    (fun _ => true)
    (fun p => existsb (String.eqb p) (map fst files))
    (fun p => option_map fst (lookup clips p))
    (fun p => option_map (fun _ => (tt, 16000)) (lookup clips p))
    (fun p => option_map (fun c => (snd c, 16000)) (lookup clips p))
    (fun y _ n => Some (mk_ndarray (Z.to_nat n) y (fun _ _ => 0))).

(** A configuration for the examples: word level, no lower-casing, the
    corpora [train], [dev]. *)
Definition corpus_cfg (level : string) (max_sent_length max_audio_length : Z) : Cfg :=
  mk_Cfg "src" "trg" "trg" "train" "dev" None level false
         max_sent_length max_audio_length None None (fun _ => None) 13.

(** A vocabulary class for the examples: the token list itself. *)
#[export] Instance list_vocabulary : VocabularyClass (list string) :=
  {| Vocabulary_of_tokens := fun tokens => Ok tokens;
     Vocabulary_of_file := fun file => Raise (OSError file);
     add_tokens := fun v tokens => v ++ tokens;
     is_unk := fun v s => negb (existsb (String.eqb s) v) |}.

(** A speech corpus: a training split of two utterances, and a
    development split whose first transcript is empty and whose second
    audio file has ten bytes. *)
Definition speech_files : list (string * string) :=
  [("train.trg", "ab" ++ LF ++ "cd efg" ++ LF);
   ("train.txt", "a.wav" ++ LF ++ "b.wav" ++ LF);
   ("dev.trg", LF ++ "hi" ++ LF);
   ("dev.txt", "a.wav" ++ LF ++ "tiny.wav" ++ LF)]%string.

Definition speech_clips : list (string * (Z * nat)) :=
  [("a.wav", (100, 3%nat)); ("b.wav", (100, 5%nat)); ("tiny.wav", (10, 4%nat))].

(** A speech corpus whose training transcript has one line more than its
    audio reference. *)
Definition misaligned_files : list (string * string) :=
  [("train.trg", "ab" ++ LF ++ "cd efg" ++ LF);
   ("train.txt", "a.wav" ++ LF)]%string.

(** A speech corpus whose training split has no line, and one whose only
    training transcript is empty. *)
Definition empty_files : list (string * string) :=
  [("train.trg", ""); ("train.txt", "")].

Definition blank_files : list (string * string) :=
  [("train.trg", LF); ("train.txt", "a.wav" ++ LF)]%string.

(** The parallel corpus of the specification's example, as the files of
    the training split and of the development split. *)
Definition text_corpus : list (string * string) :=
  [("train.src", "a b" ++ LF ++ "c" ++ LF);
   ("train.trg", "x y" ++ LF ++ "z" ++ LF);
   ("dev.src", "a b" ++ LF ++ "c" ++ LF);
   ("dev.trg", "x y" ++ LF ++ "z" ++ LF)]%string.

(* ================================================================== *)
(** ** More of [helpers.py] *)
(* ================================================================== *)

(** The ranked tokens of a token stream: the keys of its counter after the
    frequency filter, in the order in which [sort_and_cut] puts them. *)
Definition ranking (min_freq : Z) (tokens : list string) : list string :=
  let counter := Counter tokens in
  let counter := if -1 <? min_freq then filter_min counter min_freq else counter in
  map fst (sorted_int snd true (sorted_str fst counter)).

(** *** Decoding *)

Section Decode.

Context (EOS_TOKEN : string).

(** The loop of [array_to_sentence] over the rest of the array,
    [sentence] holding the tokens appended so far.  [itos] is the [itos]
    attribute of the vocabulary, its tokens by index. *)
Fixpoint array_to_sentence_from (sentence : list string) (array : list Z)
         (itos : list string) (cut_at_eos : bool) : result (list string) :=
  match array with
  | [] => Ok sentence
  | i :: rest =>
      match getitem itos i with
      | Ok s =>
          if cut_at_eos && String.eqb s EOS_TOKEN then Ok sentence
          else array_to_sentence_from (sentence ++ [s]) rest itos cut_at_eos
      | Raise e => Raise e
      end
  end.

(** Converts an array of IDs to a sentence, optionally cutting the result
    off at the end-of-sequence token. *)
Definition array_to_sentence (array : list Z) (itos : list string)
           (cut_at_eos : bool) : result (list string) :=
  array_to_sentence_from [] array itos cut_at_eos.

(** Convert multiple arrays containing sequences of token IDs to their
    sentences, optionally cutting them off at the end-of-sequence token. *)
Definition arrays_to_sentences (arrays : list (list Z)) (itos : list string)
           (cut_at_eos : bool) : result (list (list string)) :=
  for_each
    (fun sentences array =>
       (sentence <- array_to_sentence array itos cut_at_eos ;;
        Ok (sentences ++ [sentence]))%py)
    arrays [].

(** The tokens of a sentence before its first end-of-sequence token. *)
Fixpoint until_eos (tokens : list string) : list string :=
  match tokens with
  | [] => []
  | t :: rest => if String.eqb t EOS_TOKEN then [] else t :: until_eos rest
  end.

End Decode.

(** An index that [itos[i]] accepts. *)
Definition valid_id (itos : list string) (i : Z) : Prop :=
  - len itos <= i < len itos.

(** The token at an index, for an index that is accepted. *)
Definition token_at (itos : list string) (i : Z) : string :=
  nth (Z.to_nat (if i <? 0 then i + len itos else i)) itos "".

(** The first index of a token in [itos]. *)
Fixpoint index_of (itos : list string) (t : string) : Z :=
  match itos with
  | [] => 0
  | s :: rest => if String.eqb s t then 0 else 1 + index_of rest t
  end.

(** *** BPE post-processing *)

(** [s.replace(old, new)] for a non-empty [old]: the occurrences of [old]
    are replaced from left to right, an occurrence starting only after the
    end of the one before.  [skip] is the number of characters of the
    occurrence just replaced that are still to pass. *)
Fixpoint replace_from (skip : nat) (old new s : string) : string :=
  match s with
  | EmptyString => EmptyString
  | String c rest =>
      match skip with
      | S k => replace_from k old new rest
      | O =>
          if String.prefix old s
          then (new ++ replace_from (String.length old - 1) old new rest)%string
          else String c (replace_from 0 old new rest)
      end
  end.

Definition str_replace (s old new : string) : string := replace_from 0 old new s.

(** Post-processor for BPE output.  Recombines BPE-split tokens. *)
Definition bpe_postprocess (s : string) : string := str_replace s "@@ " "".

(** [old in s]. *)
Fixpoint occurs (old s : string) : bool :=
  String.prefix old s
  || match s with
     | String _ rest => occurs old rest
     | EmptyString => false
     end.

(** A string without the character [@]. *)
Fixpoint free_of_at (s : string) : bool :=
  match s with
  | String c rest => negb (Ascii.eqb c "@"%char) && free_of_at rest
  | EmptyString => true
  end.

(** The BPE pieces of a text, each followed by the continuation mark. *)
Fixpoint bpe_join (pieces : list string) (last : string) : string :=
  match pieces with
  | [] => last
  | p :: rest => (p ++ "@@ " ++ bpe_join rest last)%string
  end.

(** *** Checkpoints *)

(** What [max(l, key=key)] comes to: a value, the [ValueError] that
    [max] raises on an empty sequence, or the exception of a call of
    [key]. *)
Inductive outcome (A : Type) : Type :=
| Returned (a : A)
| ValueError
| KeyRaised (e : exn).

Arguments Returned {A} a.
Arguments ValueError {A}.
Arguments KeyRaised {A} e.

(** The loop of [max]: [key] is called once on every element, in order,
    and the element kept is replaced by one with a strictly larger key
    only; [best_key] is the key of [best]. *)
Fixpoint max_from {A : Type} (key : A -> result Z) (best : A) (best_key : Z)
         (l : list A) : outcome A :=
  match l with
  | [] => Returned best
  | x :: rest =>
      match key x with
      | Raise e => KeyRaised e
      | Ok k =>
          if best_key <? k then max_from key x k rest
          else max_from key best best_key rest
      end
  end.

Definition py_max {A : Type} (key : A -> result Z) (l : list A) : outcome A :=
  match l with
  | [] => ValueError
  | x :: rest =>
      match key x with
      | Raise e => KeyRaised e
      | Ok k => max_from key x k rest
      end
  end.

(** Returns the latest checkpoint (by time) from the given directory.
    [glob] is [glob.glob] on the file system at hand and [getctime] is
    [os.path.getctime], which raises [OSError] on a path that it cannot
    examine; a time stamp is compared as a number. *)
Definition get_latest_checkpoint (glob : string -> list string)
           (getctime : string -> result Z) (ckpt_dir : string) : outcome string :=
  let list_of_files := glob (ckpt_dir ++ "/*.ckpt")%string in
  py_max getctime list_of_files.

(** *** Attention plots *)

From Stdlib Require Import DecimalString.

(** [str(i)] for an integer. *)
Definition str_of_int (i : Z) : string := NilZero.string_of_int (Z.to_int i).

(** What [store_attention_plots] leaves behind for one index: the plot
    file that [plot_heatmap] wrote, or the message printed when it
    raised, with the index, the two lengths and the shape of the scores. *)
Inductive plot_event : Type :=
| Plotted (plot_file : string)
| Printed (i : Z) (src_len trg_len : Z) (shape : Z * Z).

Section AttentionPlots.

Context {Sample : Type}.

(** [plot_heatmap] of [joeynmt.plotting], which is not among the sources:
    [true] when it returns, [false] when it raises. *)
Variable plot_heatmap
  : ndarray Sample -> list string -> list string -> string -> bool.

(** The loop of [store_attention_plots] over the rest of [idx], [events]
    being what the iterations before left behind. *)
Fixpoint store_attention_plots_from (events : list plot_event)
         (attentions : list (ndarray Sample))
         (targets sources : list (list string)) (output_prefix : string)
         (idx : list Z) : result unit * list plot_event :=
  match idx with
  | [] => (Ok tt, events)
  | i :: rest =>
      let plot_file := (output_prefix ++ "." ++ str_of_int i ++ ".pdf")%string in
      match getitem sources i with
      | Raise e => (Raise e, events)
      | Ok src =>
          match getitem targets i with
          | Raise e => (Raise e, events)
          | Ok trg =>
              match getitem attentions i with
              | Raise e => (Raise e, events)
              | Ok attention =>
                  let attention_scores := transpose attention in
                  if plot_heatmap attention_scores trg src plot_file
                  then store_attention_plots_from
                         (events ++ [Plotted plot_file])
                         attentions targets sources output_prefix rest
                  else store_attention_plots_from
                         (events ++ [Printed i (len src) (len trg)
                                             (shape0 attention_scores,
                                              Z.of_nat (ncols attention_scores))])
                         attentions targets sources output_prefix rest
              end
          end
      end
  end.

(** Saves attention plots. *)
Definition store_attention_plots (attentions : list (ndarray Sample))
           (targets sources : list (list string)) (output_prefix : string)
           (idx : list Z) : result unit * list plot_event :=
  store_attention_plots_from [] attentions targets sources output_prefix idx.

(** The indices that the three sequences accept. *)
Definition plottable (attentions : list (ndarray Sample))
           (targets sources : list (list string)) (i : Z) : Prop :=
  - len sources <= i < len sources
  /\ - len targets <= i < len targets
  /\ - len attentions <= i < len attentions.

(** What the iteration for the index [i] leaves behind, [i] being an
    index that the three sequences accept. *)
Definition plot_event_at (attentions : list (ndarray Sample))
           (targets sources : list (list string)) (output_prefix : string)
           (i : Z) (event : plot_event) : Prop :=
  exists src trg attention,
    getitem sources i = Ok src
    /\ getitem targets i = Ok trg
    /\ getitem attentions i = Ok attention
    /\ event
       = let plot_file := (output_prefix ++ "." ++ str_of_int i ++ ".pdf")%string in
         if plot_heatmap (transpose attention) trg src plot_file
         then Plotted plot_file
         else Printed i (len src) (len trg)
                      (Z.of_nat (ncols attention), Z.of_nat (nrows attention)).

End AttentionPlots.

(** Two sentence pairs with their attention scores, and a [plot_heatmap]
    that fails on every plot but the first, for the examples. *)
Definition plot_sources : list (list string) := [["a"; "b"]; ["c"]].
Definition plot_targets : list (list string) := [["x"]; ["y"; "z"]].
Definition plot_attentions : list (ndarray Z) :=
  [mk_ndarray 1 2 (fun _ _ => 0); mk_ndarray 2 1 (fun _ _ => 0)].
Definition plot_first_only (scores : ndarray Z) (column_labels row_labels : list string)
           (output_path : string) : bool :=
  String.eqb output_path "att.0.pdf".

(** *** The mask of subsequent positions *)

(** [np.ones((d0, d1, d2))]. *)
Definition np_ones (d0 d1 d2 : nat) : list (list (list Z)) :=
  repeat (repeat (repeat 1 d2) d1) d0.

(** A map that is given the position of each element. *)
Definition imap {A B : Type} (f : nat -> A -> B) (l : list A) : list B :=
  map (fun ix => f (fst ix) (snd ix)) (combine (seq 0 (List.length l)) l).

(** [np.triu(a, k)] on a stack of matrices: in each matrix the elements
    below the [k]-th diagonal are zeroed. *)
Definition np_triu (a : list (list (list Z))) (k : Z) : list (list (list Z)) :=
  map (imap (fun i row =>
               imap (fun j x => if k <=? Z.of_nat j - Z.of_nat i then x else 0) row))
      a.

(** [a.astype('uint8')] on whole numbers. *)
Definition astype_uint8 (a : list (list (list Z))) : list (list (list Z)) :=
  map (map (map (fun x => x mod 256))) a.

(** [torch.from_numpy(a) == 0]. *)
Definition eq_zero (a : list (list (list Z))) : list (list (list bool)) :=
  map (map (map (fun x => x =? 0))) a.

(** Mask out subsequent positions (to prevent attending to future
    positions).  [None] stands for the [ValueError] that [np.ones] raises
    on a negative dimension. *)
Definition subsequent_mask (size : Z) : option (list (list (list bool))) :=
  if size <? 0 then None
  else
    let attn_shape := (1%nat, Z.to_nat size, Z.to_nat size) in
    let mask :=
      astype_uint8
        (np_triu (np_ones (fst (fst attn_shape)) (snd (fst attn_shape))
                          (snd attn_shape)) 1) in
    Some (eq_zero mask).

(** *** Text files *)

(** A text whose only line boundaries are line feeds. *)
Fixpoint lf_only (s : string) : bool :=
  match s with
  | String c rest => (negb (is_linebreak c) || Ascii.eqb c "010"%char) && lf_only rest
  | EmptyString => true
  end.

(** A source file with a blank line and a line of spaces, for the
    examples. *)
Definition mono_files : list (string * string) :=
  [("test.src", "a b" ++ LF ++ LF ++ "  " ++ LF ++ "c" ++ LF)]%string.

(** *** The statistics of [AudioDataset] *)

(** What the loop keeps true of its statistics. *)
Definition statistics_ok {Sound Signal Sample : Type}
           (st : @loop_state Sound Signal Sample) : Prop :=
  ls_mini st <= 10
  /\ 1 <= ls_maxi st
  /\ ls_count st = len (ls_examples st)
  /\ ls_mini st * ls_count st <= ls_summa st <= ls_maxi st * ls_count st.

(** A development split whose second audio reference is a blank line. *)
Definition blank_reference_files : list (string * string) :=
  [("dev.trg", "ab" ++ LF ++ "cd" ++ LF); ("dev.txt", "a.wav" ++ LF ++ LF)]%string.



(** A configuration with a vocabulary limit, for the examples. *)
Definition limited_cfg (max_sent_length voc_limit : Z) : Cfg :=
  mk_Cfg "src" "trg" "trg" "train" "dev" None "word" false
         max_sent_length 0 (Some voc_limit) None (fun _ => None) 13.

(** A vocabulary made from data: the four reserved tokens followed by
    at most [max_size] different tokens, each of which survives the
    frequency filter on [tokens]. *)
Definition vocabulary_from (UNK_TOKEN PAD_TOKEN BOS_TOKEN EOS_TOKEN : string)
           {V : Type} `{VocabularyClass V} (max_size min_freq : Z)
           (tokens : list string) (vocab : V) : Prop :=
  exists kept,
    Vocabulary_of_tokens ([UNK_TOKEN; PAD_TOKEN; BOS_TOKEN; EOS_TOKEN] ++ kept)
    = Ok vocab
    /\ NoDup kept
    /\ len kept <= max_size
    /\ forall t, In t kept -> survives min_freq tokens t.

(** *** Logging the configuration *)

(** A value of a configuration dictionary: a nested dictionary, or any
    other value, given by its [str]. *)
#[warnings="-register-all"]
Inductive cfg_value : Type :=
| CfgLeaf (rendered : string)
| CfgDict (items : list (string * cfg_value)).

(** [format(p, "34s")]: [p] padded with spaces on the right to 34
    characters. *)
Definition ljust34 (p : string) : string :=
  (p ++ repeat_nat " " (34 - String.length p))%string.

(** What [log_cfg] does for one item of the dictionary, under the prefix
    of the dictionary: the lines given to [logger.info], in order. *)
Fixpoint log_cfg_item (prefix k : string) (v : cfg_value) : list string :=
  let p := (prefix ++ "." ++ k)%string in
  match v with
  | CfgDict items =>
      (fix log_cfg_items (items : list (string * cfg_value)) : list string :=
         match items with
         | [] => []
         | (k', v') :: rest => log_cfg_item p k' v' ++ log_cfg_items rest
         end) items
  | CfgLeaf rendered => [(ljust34 p ++ " : " ++ rendered)%string]
  end.

(** Write configuration to log. *)
Definition log_cfg (cfg : list (string * cfg_value)) (prefix : string)
  : list string :=
  flat_map (fun kv => log_cfg_item prefix (fst kv) (snd kv)) cfg.

(** The number of values of a configuration that are not dictionaries. *)
Fixpoint cfg_leaves (v : cfg_value) : nat :=
  match v with
  | CfgDict items =>
      (fix leaves_of (items : list (string * cfg_value)) : nat :=
         match items with
         | [] => 0%nat
         | (_, v') :: rest => (cfg_leaves v' + leaves_of rest)%nat
         end) items
  | CfgLeaf _ => 1%nat
  end.

(** *** Tiling *)

(** The memory layout of a tensor, as far as [tile] depends on it: a
    tensor is contiguous, or it has another layout, of which torch
    decides from the strides what [view] may do. *)
Inductive layout (L : Type) : Type :=
| Contiguous
| Strided (l : L).

Arguments Contiguous {L}.
Arguments Strided {L} l.

(** A tensor: its shape, its layout and its elements, the element at a
    position being asked for positions within the shape only. *)
Record tensor (L A : Type) : Type := mk_tensor {
  t_shape : list nat;
  t_layout : layout L;
  t_at : list nat -> A
}.

Arguments mk_tensor {L A} t_shape t_layout t_at.
Arguments t_shape {L A} _.
Arguments t_layout {L A} _.
Arguments t_at {L A} _ _.

(** What torch computes from the strides of a tensor: whether a tensor
    that is not contiguous, of a layout and a shape, can be viewed with
    a new shape, the layout of that view, and the layout of
    [x.permute(perm)] for a layout and a shape of [x]. *)
Record Torch (L : Type) : Type := mk_Torch {
  viewable : L -> list nat -> list nat -> bool;
  viewed : L -> list nat -> list nat -> layout L;
  permuted : layout L -> list nat -> list nat -> layout L
}.

Arguments mk_Torch {L} viewable viewed permuted.
Arguments viewable {L} _ _ _ _.
Arguments viewed {L} _ _ _ _.
Arguments permuted {L} _ _ _ _.

(** The number of elements of a shape. *)
Definition numel (shape : list nat) : nat := fold_right Nat.mul 1%nat shape.

(** A position within a shape. *)
Definition within (idx shape : list nat) : Prop := Forall2 lt idx shape.

(** The offset of a position in the row-major order of a shape, and the
    position at an offset. *)
Fixpoint ravel (shape idx : list nat) : nat :=
  match shape, idx with
  | _ :: ds, i :: rest => (i * numel ds + ravel ds rest)%nat
  | _, _ => 0%nat
  end.

Fixpoint unravel (shape : list nat) (offset : nat) : list nat :=
  match shape with
  | [] => []
  | _ :: ds => (offset / numel ds)%nat :: unravel ds (offset mod numel ds)%nat
  end.

(** [x.contiguous()]: the same shape and elements, in a contiguous
    layout. *)
Definition contiguous {L A : Type} (x : tensor L A) : tensor L A :=
  mk_tensor (t_shape x) Contiguous (t_at x).

(** [x.permute(perm)]: dimension [i] of the result is dimension
    [perm[i]] of [x]. *)
Fixpoint position (perm : list nat) (j : nat) : nat :=
  match perm with
  | [] => 0%nat
  | p :: rest => if Nat.eqb p j then 0%nat else S (position rest j)
  end.

Definition permute {L A : Type} (T : Torch L) (x : tensor L A) (perm : list nat)
  : tensor L A :=
  mk_tensor
    (map (fun p => nth p (t_shape x) 0%nat) perm)
    (permuted T (t_layout x) (t_shape x) perm)
    (fun idx =>
       t_at x (map (fun j => nth (position perm j) idx 0%nat)
                   (seq 0 (List.length (t_shape x))))).

(** Whether [view] accepts to give [x] the shape [shape], of as many
    elements: every shape for a contiguous tensor, and what the strides
    allow for another one. *)
Definition can_view {L A : Type} (T : Torch L) (x : tensor L A)
           (shape : list nat) : bool :=
  match t_layout x with
  | Contiguous => true
  | Strided l => viewable T l (t_shape x) shape
  end.

(** [x.view(shape)] with the shape given in full: the same elements in
    the same row-major order, or a [RuntimeError] when the number of
    elements differs or the strides do not allow the view. *)
Definition view {L A : Type} (T : Torch L) (x : tensor L A) (shape : list nat)
  : result (tensor L A) :=
  if negb (Nat.eqb (numel (t_shape x)) (numel shape))
  then Raise (ExternalError "view" "size")
  else if negb (can_view T x shape)
  then Raise (ExternalError "view" "stride")
  else
    Ok (mk_tensor
          shape
          (match t_layout x with
           | Contiguous => Contiguous
           | Strided l => viewed T l (t_shape x) shape
           end)
          (fun idx => t_at x (unravel (t_shape x) (ravel shape idx)))).

(** [x.view(batch, -1)]: the second dimension is inferred; torch raises
    a [RuntimeError] when the given dimensions have product zero or do
    not divide the number of elements. *)
Definition view_rows {L A : Type} (T : Torch L) (x : tensor L A) (batch : nat)
  : result (tensor L A) :=
  let n := numel (t_shape x) in
  if Nat.eqb batch 0 || negb (Nat.eqb (n mod batch) 0)
  then Raise (ExternalError "view" "-1")
  else view T x [batch; (n / batch)%nat].

(** [x.transpose(0, 1)] on a matrix. *)
Definition transpose01 {L A : Type} (T : Torch L) (x : tensor L A)
  : tensor L A :=
  mk_tensor
    [nth 1 (t_shape x) 0%nat; nth 0 (t_shape x) 0%nat]
    (permuted T (t_layout x) (t_shape x) [1; 0]%nat)
    (fun idx => t_at x [nth 1 idx 0%nat; nth 0 idx 0%nat]).

(** [x.repeat(count, 1)] on a matrix: a new, contiguous tensor of
    [count] copies of the rows, one after the other; a negative [count]
    is a [RuntimeError]. *)
Definition repeat_rows {L A : Type} (x : tensor L A) (count : Z)
  : result (tensor L A) :=
  if count <? 0 then Raise (ExternalError "repeat" "count")
  else
    Ok (mk_tensor
          [(Z.to_nat count * nth 0 (t_shape x) 0%nat)%nat; nth 1 (t_shape x) 0%nat]
          Contiguous
          (fun idx =>
             t_at x [(nth 0 idx 0%nat mod nth 0 (t_shape x) 0%nat)%nat;
                     nth 1 idx 0%nat])).

(** [l[0], l[dim] = l[dim], l[0]] on a list of naturals, with Python's
    indexing: a negative [dim] counts from the end, a position outside
    the list is an [IndexError]. *)
Definition list_index (n : nat) (i : Z) : result nat :=
  let j := if i <? 0 then i + Z.of_nat n else i in
  if (j <? 0) || (Z.of_nat n <=? j)
  then Raise (IndexError "list index out of range")
  else Ok (Z.to_nat j).

Fixpoint set_item (l : list nat) (i : nat) (v : nat) : list nat :=
  match l, i with
  | [], _ => []
  | _ :: rest, O => v :: rest
  | a :: rest, S i' => a :: set_item rest i' v
  end.

Definition swap_first (perm : list nat) (dim : Z) : result (list nat) :=
  d <- list_index (List.length perm) dim ;;
  z <- list_index (List.length perm) 0 ;;
  let a := nth d perm 0%nat in
  let b := nth z perm 0%nat in
  Ok (set_item (set_item perm z a) d b).

(** The argument of [tile]: a tensor, or a pair of arguments (a tuple
    of another length fails to unpack). *)
Inductive tiled (L A : Type) : Type :=
| One (x : tensor L A)
| Two (h c : tiled L A).

Arguments One {L A} x.
Arguments Two {L A} h c.

(** [tile] on a tensor. *)
Definition tile_tensor {L A : Type} (T : Torch L) (x : tensor L A)
           (count : Z) (dim : Z) : result (tensor L A) :=
  let perm := seq 0 (List.length (t_shape x)) in
  perm <- (if negb (dim =? 0) then swap_first perm dim else Ok perm) ;;
  let x := if negb (dim =? 0) then contiguous (permute T x perm) else x in
  let out_size := t_shape x in
  z <- list_index (List.length out_size) 0 ;;
  let out_size :=
    set_item out_size z (nth z out_size 0%nat * Z.to_nat count)%nat in
  let batch := nth 0 (t_shape x) 0%nat in
  x <- view_rows T x batch ;;
  let x := transpose01 T x in
  x <- repeat_rows x count ;;
  let x := transpose01 T x in
  let x := contiguous x in
  x <- view T x out_size ;;
  Ok (if negb (dim =? 0) then contiguous (permute T x perm) else x).

(** Tiles x on dimension dim count times. *)
Fixpoint tile {L A : Type} (T : Torch L) (x : tiled L A) (count : Z) (dim : Z)
  : result (tiled L A) :=
  match x with
  | Two h c =>
      h' <- tile T h count dim ;;
      c' <- tile T c count dim ;;
      Ok (Two h' c')
  | One x =>
      y <- tile_tensor T x count dim ;;
      Ok (One y)
  end.

(** The list after [l[0], l[d] = l[d], l[0]]. *)
Definition swapped (l : list nat) (d : nat) : list nat :=
  set_item (set_item l 0 (nth d l 0%nat)) d (nth 0 l 0%nat).

(** For the examples: a torch that takes a permuted tensor for not
    contiguous and views contiguous tensors only, and a contiguous
    tensor that holds, at each position, the position itself. *)
Definition strict_torch : Torch unit :=
  mk_Torch (fun _ _ _ => false)
           (fun _ _ _ => Strided tt)
           (fun _ _ _ => Strided tt).

Definition positions (shape : list nat) : tensor unit (list nat) :=
  mk_tensor shape Contiguous (fun idx => idx).

(* ================================================================== *)
(** * Properties *)
(* ================================================================== *)

(** ** Order on strings *)

Lemma leb_iff (s1 s2 : string) :
  String.leb s1 s2 = true <-> s1 = s2 \/ String_as_OT.lt s1 s2.
Proof.
  unfold String.leb.
  destruct (String.compare s1 s2) eqn:Hc; split; intro Hle; try easy.
  - left. now apply String_as_OT.cmp_eq.
  - right. now apply String_as_OT.cmp_lt.
  - exfalso. destruct Hle as [Heq | Hlt].
    + apply String_as_OT.cmp_eq in Heq. unfold String_as_OT.cmp in Heq. congruence.
    + apply String_as_OT.cmp_lt in Hlt. unfold String_as_OT.cmp in Hlt. congruence.
Qed.

Lemma leb_trans (s1 s2 s3 : string) :
  String.leb s1 s2 = true -> String.leb s2 s3 = true -> String.leb s1 s3 = true.
Proof.
  rewrite !leb_iff. intros [-> | H12] [-> | H23]; auto.
  right. eapply String_as_OT.lt_trans; eassumption.
Qed.

(** ** The stable sort *)

Section StableSort.

Context {A : Type}.
Variable before : A -> A -> bool.

Lemma insert_by_perm (x : A) (l : list A) :
  Permutation (x :: l) (insert_by before x l).
Proof.
  induction l as [| y rest IH]; simpl.
  - apply Permutation_refl.
  - destruct (before x y).
    + apply Permutation_refl.
    + eapply perm_trans; [apply perm_swap |]. now apply perm_skip.
Qed.

Lemma stable_sort_perm (l : list A) : Permutation l (stable_sort before l).
Proof.
  induction l as [| x rest IH]; simpl.
  - constructor.
  - eapply perm_trans; [| apply insert_by_perm]. now apply perm_skip.
Qed.

Lemma insert_by_In (x y : A) (l : list A) :
  In y (insert_by before x l) <-> y = x \/ In y l.
Proof.
  split; intro Hin.
  - apply (Permutation_in _ (Permutation_sym (insert_by_perm x l))) in Hin.
    destruct Hin; auto.
  - apply (Permutation_in _ (insert_by_perm x l)).
    destruct Hin; [left | right]; auto.
Qed.

Lemma stable_sort_In (y : A) (l : list A) :
  In y (stable_sort before l) <-> In y l.
Proof.
  split; apply Permutation_in;
    [apply Permutation_sym |]; apply stable_sort_perm.
Qed.

(** With a total and transitive [before], the output is sorted. *)
Hypothesis before_total : forall x y, before x y = true \/ before y x = true.
Hypothesis before_trans :
  forall x y z, before x y = true -> before y z = true -> before x z = true.

Lemma insert_by_sorted (x : A) (l : list A) :
  StronglySorted (fun a b => before a b = true) l ->
  StronglySorted (fun a b => before a b = true) (insert_by before x l).
Proof.
  induction 1 as [| y rest Hs IH Hall]; simpl.
  - repeat constructor.
  - destruct (before x y) eqn:Hxy.
    + constructor; [now constructor |].
      constructor; [assumption |].
      eapply Forall_impl; [| exact Hall]. intros z Hyz. eauto.
    + constructor; [assumption |].
      apply Forall_forall. intros z Hz.
      apply insert_by_In in Hz. destruct Hz as [-> | Hz].
      * destruct (before_total x y); congruence.
      * rewrite Forall_forall in Hall. auto.
Qed.

Lemma stable_sort_sorted (l : list A) :
  StronglySorted (fun a b => before a b = true) (stable_sort before l).
Proof.
  induction l; simpl; [constructor | now apply insert_by_sorted].
Qed.

End StableSort.

(** ** [Counter] *)

Lemma counter_incr_keys (t : string) (c : list (string * Z)) :
  map fst (counter_incr t c)
  = if existsb (String.eqb t) (map fst c) then map fst c else map fst c ++ [t].
Proof.
  induction c as [| [k v] rest IH]; simpl; [reflexivity |].
  rewrite (String.eqb_sym t k).
  destruct (String.eqb k t) eqn:Hk; simpl; [reflexivity |].
  rewrite IH. now destruct (existsb (String.eqb t) (map fst rest)).
Qed.

Lemma existsb_eqb_In (t : string) (l : list string) :
  existsb (String.eqb t) l = true <-> In t l.
Proof.
  rewrite existsb_exists. split.
  - intros (x & Hin & Heq). apply String.eqb_eq in Heq. now subst.
  - intro Hin. exists t. split; [assumption | apply String.eqb_refl].
Qed.

Lemma counter_incr_In (t : string) (c : list (string * Z)) (k : string) (v : Z) :
  NoDup (map fst c) ->
  In (k, v) (counter_incr t c) <->
  (k <> t /\ In (k, v) c)
  \/ (k = t /\ ((exists v0, In (t, v0) c /\ v = v0 + 1)
               \/ (~ In t (map fst c) /\ v = 1))).
Proof.
  induction c as [| [k0 v0] rest IH]; simpl; intro Hnd.
  - split.
    + intros [Heq | []]. inversion Heq; subst. right. split; auto.
    + intros [[_ []] | [-> [(v0 & [] & _) | [_ ->]]]]. now left.
  - inversion Hnd as [| ? ? Hnotin Hnd']; subst.
    destruct (String.eqb k0 t) eqn:Hk0.
    + apply String.eqb_eq in Hk0. subst k0. simpl. split.
      * intros [Heq | Hin].
        -- inversion Heq; subst. right. split; [reflexivity |].
           left. exists v0. auto.
        -- left. split; [| now right].
           intros ->. apply Hnotin. now apply (in_map fst) in Hin.
      * intros [[Hne [Heq | Hin]] | [-> [(v1 & [Heq | Hin] & ->) | [Hn _]]]].
        -- inversion Heq; subst. congruence.
        -- now right.
        -- inversion Heq; subst. now left.
        -- exfalso. apply Hnotin. now apply (in_map fst) in Hin.
        -- exfalso. apply Hn. now left.
    + apply String.eqb_neq in Hk0. simpl. rewrite (IH Hnd'). split.
      * intros [Heq | [[Hne Hin] | [-> [(v1 & Hin & ->) | [Hn ->]]]]].
        -- inversion Heq; subst. left. auto.
        -- left. auto.
        -- right. split; [reflexivity |]. left. exists v1. auto.
        -- right. split; [reflexivity |]. right. split; [| reflexivity].
           intros [Heq | Hin]; [congruence | auto].
      * intros [[Hne [Heq | Hin]] | [-> [(v1 & [Heq | Hin] & ->) | [Hn ->]]]].
        -- now left.
        -- right. left. auto.
        -- inversion Heq; subst. congruence.
        -- right. right. split; [reflexivity |]. left. exists v1. auto.
        -- right. right. split; [reflexivity |]. right. split; [| reflexivity].
           intro Hin. apply Hn. now right.
Qed.

Lemma counter_incr_NoDup (t : string) (c : list (string * Z)) :
  NoDup (map fst c) -> NoDup (map fst (counter_incr t c)).
Proof.
  intro Hnd. rewrite counter_incr_keys.
  destruct (existsb (String.eqb t) (map fst c)) eqn:Hex; [assumption |].
  apply NoDup_app; [assumption | repeat constructor; auto | ].
  intros x Hx [<- | []].
  apply existsb_eqb_In in Hx. congruence.
Qed.

(** The counter of a stream holds each of its tokens once, with its
    number of occurrences. *)
Definition counts (tokens : list string) (c : list (string * Z)) : Prop :=
  NoDup (map fst c)
  /\ forall k v, In (k, v) c <-> In k tokens /\ v = freq tokens k.

Lemma freq_snoc (tokens : list string) (t k : string) :
  freq (tokens ++ [t]) k = freq tokens k + (if string_dec t k then 1 else 0).
Proof.
  unfold freq. rewrite count_occ_app. simpl.
  destruct (string_dec t k); lia.
Qed.

Lemma freq_pos (tokens : list string) (k : string) :
  In k tokens <-> 0 < freq tokens k.
Proof.
  unfold freq. rewrite (count_occ_In string_dec). lia.
Qed.

Lemma counts_incr (tokens : list string) (c : list (string * Z)) (t : string) :
  counts tokens c -> counts (tokens ++ [t]) (counter_incr t c).
Proof.
  intros [Hnd Hc]. split; [now apply counter_incr_NoDup |].
  intros k v. rewrite (counter_incr_In _ _ _ _ Hnd), freq_snoc, in_app_iff.
  simpl. split.
  - intros [[Hne Hin] | [-> [(v0 & Hin & ->) | [Hn ->]]]].
    + apply Hc in Hin. destruct Hin as [Hin ->].
      destruct (string_dec t k); [congruence |]. split; [auto | lia].
    + apply Hc in Hin. destruct Hin as [Hin ->].
      destruct (string_dec t t); [| congruence]. auto.
    + destruct (string_dec t t); [| congruence]. split; [auto |].
      assert (Hz : ~ In t tokens).
      { intro Hin. apply Hn.
        assert (Hp : In (t, freq tokens t) c) by (apply Hc; auto).
        now apply (in_map fst) in Hp. }
      rewrite freq_pos in Hz. unfold freq in *. lia.
  - intros [Hin ->]. destruct (string_dec t k) as [-> | Hne].
    + right. split; [reflexivity |].
      destruct (in_dec string_dec k tokens) as [Hk | Hk].
      * left. exists (freq tokens k). split; [apply Hc; auto | reflexivity].
      * right. split.
        -- intro Hm. apply in_map_iff in Hm. destruct Hm as ([k' v'] & Heq & Hm).
           simpl in Heq. subst k'. apply Hc in Hm. tauto.
        -- rewrite freq_pos in Hk. unfold freq in *. lia.
    + left. split; [congruence |]. apply Hc.
      destruct Hin as [Hin | [Heq | []]]; [| congruence].
      split; [assumption | lia].
Qed.

Lemma counts_fold (l tokens : list string) (c : list (string * Z)) :
  counts tokens c ->
  counts (tokens ++ l) (fold_left (fun c t => counter_incr t c) l c).
Proof.
  revert tokens c. induction l as [| t rest IH]; intros tokens c Hc; simpl.
  - now rewrite app_nil_r.
  - replace (tokens ++ t :: rest) with ((tokens ++ [t]) ++ rest)
      by (rewrite <- app_assoc; reflexivity).
    apply IH. now apply counts_incr.
Qed.

Lemma Counter_counts (tokens : list string) : counts tokens (Counter tokens).
Proof.
  apply (counts_fold tokens [] []). split; [constructor |].
  intros k v. simpl. tauto.
Qed.

(** ** [sort_and_cut] *)

(** The order of the two sorting passes together, on the items of a
    counter. *)
Definition item_before (a b : string * Z) : Prop :=
  snd b < snd a \/ (snd a = snd b /\ String.leb (fst a) (fst b) = true).

Lemma insert_by_count_sorted (x : string * Z) (l : list (string * Z)) :
  StronglySorted item_before l ->
  Forall (fun z => String.leb (fst x) (fst z) = true) l ->
  StronglySorted item_before (insert_by (fun a b => snd b <=? snd a) x l).
Proof.
  induction 1 as [| y rest Hs IH Hall]; intro Hx; simpl.
  - repeat constructor.
  - inversion Hx as [| ? ? Hxy Hxrest]; subst.
    destruct (snd y <=? snd x) eqn:Hle.
    + apply Z.leb_le in Hle.
      constructor; [now constructor |].
      constructor.
      * unfold item_before. destruct (Z.eq_dec (snd x) (snd y)); [right | left]; auto; lia.
      * rewrite Forall_forall in *. intros z Hz.
        specialize (Hall z Hz). specialize (Hxrest z Hz).
        unfold item_before in *.
        destruct (Z.eq_dec (snd x) (snd z)); [right | left]; auto; lia.
    + apply Z.leb_gt in Hle.
      constructor; [auto |].
      apply Forall_forall. intros z Hz.
      apply insert_by_In in Hz. destruct Hz as [-> | Hz].
      * left. assumption.
      * rewrite Forall_forall in Hall. auto.
Qed.

Lemma second_pass_sorted (l : list (string * Z)) :
  StronglySorted (fun a b => String.leb (fst a) (fst b) = true) l ->
  StronglySorted item_before (sorted_int snd true l).
Proof.
  unfold sorted_int. induction 1 as [| x rest Hs IH Hall]; simpl.
  - constructor.
  - apply insert_by_count_sorted; [assumption |].
    rewrite Forall_forall in *. intros z Hz.
    apply stable_sort_In in Hz. auto.
Qed.

Lemma two_pass_sorted (counter : list (string * Z)) :
  StronglySorted item_before (sorted_int snd true (sorted_str fst counter)).
Proof.
  apply second_pass_sorted. unfold sorted_str.
  apply (stable_sort_sorted (fun x y : string * Z => String.leb (fst x) (fst y))).
  - intros x y. apply String.leb_total.
  - intros x y z. apply leb_trans.
Qed.

Lemma two_pass_perm (counter : list (string * Z)) :
  Permutation counter (sorted_int snd true (sorted_str fst counter)).
Proof.
  unfold sorted_int, sorted_str.
  eapply perm_trans; apply stable_sort_perm.
Qed.

Lemma slice_to_nonneg {A : Type} (l : list A) (limit : Z) :
  0 <= limit -> slice_to l limit = firstn (Z.to_nat limit) l.
Proof.
  intro Hl. unfold slice_to.
  destruct (limit <? 0) eqn:Hneg; [apply Z.ltb_lt in Hneg; lia | reflexivity].
Qed.

Lemma StronglySorted_map_In {A B : Type} (R : A -> A -> Prop) (R' : B -> B -> Prop)
      (f : A -> B) (l : list A) :
  (forall x y, In x l -> In y l -> R x y -> R' (f x) (f y)) ->
  StronglySorted R l -> StronglySorted R' (map f l).
Proof.
  intros Hf Hs. induction Hs as [| x rest Hs IH Hall]; simpl.
  - constructor.
  - constructor.
    + apply IH. intros a b Ha Hb. apply Hf; now right.
    + apply Forall_forall. intros b Hb.
      apply in_map_iff in Hb. destruct Hb as (y & <- & Hy).
      rewrite Forall_forall in Hall.
      apply Hf; [now left | now right | auto].
Qed.

(** ** [collect_tokens] *)

Lemma fold_left_extend {E : Type} (f : E -> list string) (l : list E)
      (acc : list string) :
  fold_left (fun tokens i => tokens ++ f i) l acc = acc ++ flat_map f l.
Proof.
  revert acc. induction l as [| x rest IH]; intro acc; simpl.
  - now rewrite app_nil_r.
  - rewrite IH. now rewrite app_assoc.
Qed.

Lemma fold_left_skip {E : Type} (l : list E) (acc : list string) :
  fold_left (fun (tokens : list string) (_ : E) => tokens) l acc = acc.
Proof.
  revert acc. induction l; intro acc; simpl; auto.
Qed.

Lemma collect_tokens_field {E : Type} `{Bitext E} (field : string) (exs : list E) :
  collect_tokens field exs = field_tokens field exs.
Proof.
  unfold collect_tokens, field_tokens.
  destruct (String.eqb field "src").
  - now rewrite (fold_left_extend get_src).
  - destruct (String.eqb field "trg").
    + now rewrite (fold_left_extend get_trg).
    + apply fold_left_skip.
Qed.

(** Filtering a counter leaves its keys distinct. *)
Lemma filter_keys_NoDup (keep : string * Z -> bool) (c : list (string * Z)) :
  NoDup (map fst c) -> NoDup (map fst (filter keep c)).
Proof.
  intro Hnd. induction c as [| [k v] rest IH]; simpl in *; [constructor |].
  inversion Hnd as [| ? ? Hfresh Hrest]; subst.
  destruct (keep (k, v)); simpl; [| now apply IH].
  constructor; [| now apply IH].
  intro Hin. apply Hfresh.
  apply in_map_iff in Hin. destruct Hin as ([k' v'] & Hk & Hin).
  apply filter_In in Hin. simpl in Hk. subst k'.
  apply in_map_iff. exists (k, v'). split; [reflexivity | tauto].
Qed.

(** The counter after the frequency filter holds the surviving tokens. *)
Lemma filtered_counter (tokens : list string) (min_freq : Z) :
  let counter := Counter tokens in
  let counter := if -1 <? min_freq then filter_min counter min_freq else counter in
  NoDup (map fst counter)
  /\ forall k v, In (k, v) counter <->
                 survives min_freq tokens k /\ v = freq tokens k.
Proof.
  destruct (Counter_counts tokens) as [Hnd Hc]. cbv zeta. unfold survives.
  destruct (-1 <? min_freq) eqn:Hm.
  - apply Z.ltb_lt in Hm. split; [now apply filter_keys_NoDup |].
    intros k v. unfold filter_min. rewrite filter_In, Hc. simpl.
    rewrite Z.leb_le. split.
    + intros [[Hin ->] Hle]. auto.
    + intros [[Hin Hle] ->]. auto.
  - apply Z.ltb_ge in Hm. split; [assumption |].
    intros k v. rewrite Hc. split.
    + intros [Hin ->]. repeat split; auto. lia.
    + intros [[Hin _] ->]. auto.
Qed.

(** C1.  For a maximum size that is not negative, the token list of the
    build-from-data path of [build_vocab] is the four reserved tokens, in
    the order unknown, padding, sequence start, sequence end, followed by
    the first [max_size] tokens of a ranking of the tokens that survive
    the frequency filter: each of them once, a more frequent token before
    a less frequent one, and tokens of equal frequency in ascending
    lexicographic order. *)
Theorem build_vocab_tokens_ranked
        (UNK_TOKEN PAD_TOKEN BOS_TOKEN EOS_TOKEN : string)
        {E : Type} `{Bitext E}
        (field : string) (max_size min_freq : Z) (examples : list E) :
  0 <= max_size ->
  exists ranking : list string,
    NoDup ranking
    /\ (forall t, In t ranking
                  <-> survives min_freq (field_tokens field examples) t)
    /\ StronglySorted (ranked_before (field_tokens field examples)) ranking
    /\ build_vocab_tokens UNK_TOKEN PAD_TOKEN BOS_TOKEN EOS_TOKEN
                          field max_size min_freq examples
       = Ok ([UNK_TOKEN; PAD_TOKEN; BOS_TOKEN; EOS_TOKEN]
               ++ firstn (Z.to_nat max_size) ranking).
Proof.
  intro Hsize.
  unfold build_vocab_tokens. rewrite collect_tokens_field.
  set (tokens := field_tokens field examples).
  destruct (filtered_counter tokens min_freq) as [Hnd Hc].
  cbv zeta in Hnd, Hc.
  set (counter := if -1 <? min_freq then filter_min (Counter tokens) min_freq
                  else Counter tokens) in *.
  set (ranked := sorted_int snd true (sorted_str fst counter)).
  assert (Hperm : Permutation counter ranked) by apply two_pass_perm.
  exists (map fst ranked). split; [| split; [| split]].
  - eapply Permutation_NoDup; [| exact Hnd]. now apply Permutation_map.
  - intro t. split.
    + intro Hin. apply in_map_iff in Hin. destruct Hin as ([k v] & <- & Hin).
      apply (Permutation_in _ (Permutation_sym Hperm)) in Hin.
      apply Hc in Hin. simpl. tauto.
    + intro Hs. apply in_map_iff. exists (t, freq tokens t).
      split; [reflexivity |].
      apply (Permutation_in _ Hperm). apply Hc. auto.
  - apply (StronglySorted_map_In item_before); [| apply two_pass_sorted].
    intros [k1 v1] [k2 v2] H1 H2 Hb.
    apply (Permutation_in _ (Permutation_sym Hperm)) in H1, H2.
    apply Hc in H1, H2. destruct H1 as [_ ->], H2 as [_ ->].
    exact Hb.
  - unfold sort_and_cut. fold ranked.
    rewrite slice_to_nonneg by assumption.
    rewrite <- firstn_map.
    unfold getitem, specials, DEFAULT_UNK_ID. simpl.
    rewrite String.eqb_refl. simpl.
    assert (Hlen : (len (UNK_TOKEN :: PAD_TOKEN :: BOS_TOKEN :: EOS_TOKEN
                          :: firstn (Z.to_nat max_size) (map fst ranked))
                    <=? max_size + len [UNK_TOKEN; PAD_TOKEN; BOS_TOKEN; EOS_TOKEN])
                   = true).
    { apply Z.leb_le. unfold len. cbn [List.length].
      pose proof (firstn_le_length (Z.to_nat max_size) (map fst ranked)). lia. }
    rewrite Hlen. reflexivity.
Qed.

Lemma build_vocab_tokens_ranked_witness :
  exists ranking : list string,
    NoDup ranking
    /\ (forall t, In t ranking
                  <-> survives 1 (field_tokens "src"
                                    [mk_Example ["b"; "a"; "b"; "c"] ["x"]]) t)
    /\ StronglySorted
         (ranked_before (field_tokens "src"
                           [mk_Example ["b"; "a"; "b"; "c"] ["x"]])) ranking
    /\ build_vocab_tokens "<unk>" "<pad>" "<s>" "</s>" "src" 2 1
                          [mk_Example ["b"; "a"; "b"; "c"] ["x"]]
       = Ok (["<unk>"; "<pad>"; "<s>"; "</s>"] ++ firstn (Z.to_nat 2) ranking).
Proof.
  apply (build_vocab_tokens_ranked "<unk>" "<pad>" "<s>" "</s>" "src" 2 1
           [mk_Example ["b"; "a"; "b"; "c"] ["x"]]).
  lia.
Defined.

(** The ranking of C1 is determined by its three properties. *)
Lemma ranked_before_antisym (tokens : list string) (t1 t2 : string) :
  ranked_before tokens t1 t2 -> ranked_before tokens t2 t1 -> t1 = t2.
Proof.
  unfold ranked_before. intros [H12 | [Heq H12]] [H21 | [Heq' H21]]; try lia.
  now apply String.leb_antisym.
Qed.

Lemma ranking_unique (tokens l1 l2 : list string) :
  NoDup l1 -> NoDup l2 -> (forall t, In t l1 <-> In t l2) ->
  StronglySorted (ranked_before tokens) l1 ->
  StronglySorted (ranked_before tokens) l2 ->
  l1 = l2.
Proof.
  revert l2. induction l1 as [| x r1 IH]; intros l2 Hnd1 Hnd2 Hsame Hs1 Hs2.
  - destruct l2 as [| y r2]; [reflexivity |].
    exfalso. apply (Hsame y). now left.
  - destruct l2 as [| y r2]; [exfalso; apply (Hsame x); now left |].
    inversion Hnd1 as [| ? ? Hx Hnd1']; subst.
    inversion Hnd2 as [| ? ? Hy Hnd2']; subst.
    inversion Hs1 as [| ? ? Hs1' Hall1]; subst.
    inversion Hs2 as [| ? ? Hs2' Hall2]; subst.
    rewrite Forall_forall in Hall1, Hall2.
    assert (Hxy : x = y).
    { destruct (proj1 (Hsame x) (or_introl eq_refl)) as [Heq | Hin2]; [auto |].
      destruct (proj2 (Hsame y) (or_introl eq_refl)) as [Heq | Hin1]; [auto |].
      apply (ranked_before_antisym tokens); auto. }
    subst y. f_equal. apply IH; auto.
    intro t. split; intro Hin.
    + destruct (proj1 (Hsame t) (or_intror Hin)) as [Heq | Hin2]; [| assumption].
      subst t. contradiction.
    + destruct (proj2 (Hsame t) (or_intror Hin)) as [Heq | Hin1]; [| assumption].
      subst t. contradiction.
Qed.

(** A negative maximum size never passes the assertion on the length of
    the token list. *)
Lemma build_vocab_tokens_negative_size
      (UNK_TOKEN PAD_TOKEN BOS_TOKEN EOS_TOKEN : string)
      {E : Type} `{Bitext E}
      (field : string) (max_size min_freq : Z) (examples : list E) :
  max_size < 0 ->
  build_vocab_tokens UNK_TOKEN PAD_TOKEN BOS_TOKEN EOS_TOKEN
                     field max_size min_freq examples
  = Raise AssertionError.
Proof.
  intro Hneg. unfold build_vocab_tokens, getitem, specials, DEFAULT_UNK_ID.
  simpl. rewrite String.eqb_refl. simpl.
  match goal with
  | |- context [?a <=? ?b] =>
      assert (Hgt : (a <=? b) = false)
  end.
  { apply Z.leb_gt. unfold len. cbn [List.length]. lia. }
  rewrite Hgt. reflexivity.
Qed.

(** ** The text loader *)

(** The splits that [load_data] returns are those of [load_train],
    [load_dev] and [load_test]. *)
Lemma load_data_splits {Sound Signal Sample V : Type}
      (UNK_TOKEN PAD_TOKEN BOS_TOKEN EOS_TOKEN : string)
      (text_build_vocab : list (string * pyarg (Dataset Example)) -> result V)
      (w : World Sound Signal Sample) (cfg : Cfg)
      train_data dev_data test_data src_vocab trg_vocab :
  load_data UNK_TOKEN PAD_TOKEN BOS_TOKEN EOS_TOKEN text_build_vocab w cfg
  = Ok (train_data, dev_data, test_data, src_vocab, trg_vocab) ->
  load_train UNK_TOKEN PAD_TOKEN BOS_TOKEN EOS_TOKEN w cfg = Ok train_data
  /\ load_dev UNK_TOKEN PAD_TOKEN BOS_TOKEN EOS_TOKEN w cfg = Ok dev_data
  /\ load_test UNK_TOKEN PAD_TOKEN BOS_TOKEN EOS_TOKEN w cfg = Ok test_data.
Proof.
  unfold load_data.
  destruct (load_train _ _ _ _ w cfg) as [tr |]; simpl; [| discriminate].
  destruct (text_build_vocab _) as [sv |]; simpl; [| discriminate].
  destruct (text_build_vocab _) as [tv |]; simpl; [| discriminate].
  destruct (load_dev _ _ _ _ w cfg) as [dv |]; simpl; [| discriminate].
  destruct (load_test _ _ _ _ w cfg) as [te |]; simpl; [| discriminate].
  intro Heq. inversion Heq; subst. auto.
Qed.

(** C2.  The training split is the unfiltered corpus with the pairs
    dropped whose source or target has more than [max_sent_length] tokens;
    the development and test splits do not depend on [max_sent_length];
    and on the source lines "a b", "c" with the target lines "x y", "z"
    the training split has both pairs with [max_sent_length = 10], only
    the second with [max_sent_length = 1], while the development split
    has both pairs even with [max_sent_length = 1]. *)
Theorem length_filter_only_on_training :
  (forall (Sound Signal Sample : Type)
          (UNK_TOKEN PAD_TOKEN BOS_TOKEN EOS_TOKEN : string)
          (w : World Sound Signal Sample) (cfg : Cfg),
      load_train UNK_TOKEN PAD_TOKEN BOS_TOKEN EOS_TOKEN w cfg
      = (d <- TranslationDataset w (data_train cfg)
                ("." ++ data_src cfg, "." ++ data_trg cfg)%string
                (src_field PAD_TOKEN UNK_TOKEN EOS_TOKEN cfg,
                 trg_field UNK_TOKEN PAD_TOKEN BOS_TOKEN EOS_TOKEN cfg) None ;;
         Ok (mk_Dataset
               (filter (fun x => (len (src x) <=? data_max_sent_length cfg)
                                 && (len (trg x) <=? data_max_sent_length cfg))
                       (examples d))
               (fields d)))%py)
  /\ (forall (Sound Signal Sample : Type)
             (UNK_TOKEN PAD_TOKEN BOS_TOKEN EOS_TOKEN : string)
             (w : World Sound Signal Sample) (cfg : Cfg) (m : Z),
         load_dev UNK_TOKEN PAD_TOKEN BOS_TOKEN EOS_TOKEN w
                  (with_max_sent_length m cfg)
         = load_dev UNK_TOKEN PAD_TOKEN BOS_TOKEN EOS_TOKEN w cfg
         /\ load_test UNK_TOKEN PAD_TOKEN BOS_TOKEN EOS_TOKEN w
                      (with_max_sent_length m cfg)
            = load_test UNK_TOKEN PAD_TOKEN BOS_TOKEN EOS_TOKEN w cfg)
  /\ load_train "<unk>" "<pad>" "<s>" "</s>" (corpus_world text_corpus [])
                (corpus_cfg "word" 10 0)
     = Ok (mk_Dataset [mk_Example ["a"; "b"] ["x"; "y"]; mk_Example ["c"] ["z"]]
                      ["src"; "trg"])
  /\ load_train "<unk>" "<pad>" "<s>" "</s>" (corpus_world text_corpus [])
                (corpus_cfg "word" 1 0)
     = Ok (mk_Dataset [mk_Example ["c"] ["z"]] ["src"; "trg"])
  /\ load_dev "<unk>" "<pad>" "<s>" "</s>" (corpus_world text_corpus [])
              (corpus_cfg "word" 1 0)
     = Ok (mk_Dataset [mk_Example ["a"; "b"] ["x"; "y"]; mk_Example ["c"] ["z"]]
                      ["src"; "trg"]).
Proof.
  split; [| split; [| split; [| split]]].
  - intros. unfold load_train, TranslationDataset, text_filter_pred.
    destruct (open_read w _); simpl; [| reflexivity].
    destruct (open_read w _); simpl; reflexivity.
  - intros. split; reflexivity.
  - vm_compute. reflexivity.
  - vm_compute. reflexivity.
  - vm_compute. reflexivity.
Qed.

(** ** Loops *)

Lemma for_each_invariant {A S : Type} (Inv : S -> Prop)
      (body : S -> A -> result S) (xs : list A) :
  (forall st x st', Inv st -> body st x = Ok st' -> Inv st') ->
  forall st st', Inv st -> for_each body xs st = Ok st' -> Inv st'.
Proof.
  intro Hstep. induction xs as [| x rest IH]; simpl; intros st st' Hinv Hrun.
  - inversion Hrun; subst. assumption.
  - destruct (body st x) as [st1 |] eqn:Hb; [| discriminate].
    eapply IH; [| exact Hrun]. eapply Hstep; eassumption.
Qed.

Lemma for_each_steps {A S : Type} (body : S -> A -> result S)
      (step : S -> A -> S) (xs : list A) :
  (forall st x, In x xs -> body st x = Ok (step st x)) ->
  forall st, for_each body xs st = Ok (fold_left step xs st).
Proof.
  induction xs as [| x rest IH]; simpl; intros Hstep st; [reflexivity |].
  rewrite Hstep by now left. apply IH. intros st1 y Hy. apply Hstep. now right.
Qed.

Lemma for_each_first_raises {A S : Type} (body : S -> A -> result S)
      (x : A) (rest : list A) (st : S) (e : exn) :
  body st x = Raise e -> for_each body (x :: rest) st = Raise e.
Proof.
  intro Hb. simpl. now rewrite Hb.
Qed.

(** ** Strings *)

Lemma chars_repeat (n : nat) : List.length (chars (repeat_nat "a" n)) = n.
Proof.
  induction n as [| n IH]; simpl; [reflexivity | now rewrite IH].
Qed.

Lemma split_repeat (n : nat) : List.length (split (repeat_nat "a " n)) = n.
Proof.
  unfold split. induction n as [| n IH]; simpl; [reflexivity |].
  now rewrite IH.
Qed.

Lemma preprocess_length (f : Field) (x : string) :
  List.length (preprocess f x) = List.length (tokenize f x).
Proof.
  unfold preprocess. destruct (lower f); [apply length_map | reflexivity].
Qed.

(** The placeholder source of a clip of [frames] frames has
    [frames - 1] tokens at either level, and none when there is no frame. *)
Lemma audio_dummy_length (f : Field) (level : string) (frames : Z) :
  tokenize f = tok_fun level ->
  List.length
    (preprocess f (if String.eqb level "char" then str_mul "a" (frames - 1)
                   else str_mul "a " (frames - 1)))
  = Z.to_nat (frames - 1).
Proof.
  intro Htok. rewrite preprocess_length, Htok. unfold tok_fun, str_mul.
  destruct (String.eqb level "char"); [apply chars_repeat | apply split_repeat].
Qed.

(** ** [AudioDataset.__init__] *)

Section AudioDatasetFacts.

Context {Sound Signal Sample : Type}.
Variable module_names : list string.
Variable w : World Sound Signal Sample.
Variables path text_ext audio_ext : string.
Variable field : Field.
Variable num : Z.
Variables char_level train : bool.
Variable filter_pred : option (@AudioExample Sound Signal Sample -> bool).
Variable sc : sidecar.
Variables text audio : string.

Hypothesis log_opens :
  open_append w (expanduser w (path ++ "_length_statistics")) = true.
Hypothesis text_read : read_text w (expanduser w (path ++ text_ext)) = Some text.
Hypothesis audio_read : read_text w (expanduser w (path ++ audio_ext)) = Some audio.

Lemma AudioDataset_mismatch :
  len (splitlines text) <> len (splitlines audio) ->
  AudioDataset module_names w path text_ext audio_ext field num char_level train
               filter_pred sc
  = Raise (IndexError "The size of the text and audio dataset differs.").
Proof.
  intro Hne. unfold AudioDataset, open_read.
  rewrite log_opens, text_read, audio_read. simpl.
  apply Z.eqb_neq in Hne. now rewrite Hne.
Qed.

Lemma AudioDataset_aligned :
  len (splitlines text) = len (splitlines audio) ->
  AudioDataset module_names w path text_ext audio_ext field num char_level train
               filter_pred sc
  = (st <- for_each (loop_body module_names w field num char_level train)
                    (combine (file_lines text) (file_lines audio))
                    (mk_loop_state [] 1 10 0 0) ;;
     mean <- (if ls_count st =? 0 then Raise ZeroDivisionError
              else Ok (ls_summa st, ls_count st)) ;;
     Ok (Dataset_init (ls_examples st) ["trg"; "audio"; "audio2"; "mfcc"; "src"]
                      filter_pred,
         (expanduser w (path ++ "_length_statistics"),
          mk_stat_line (ls_mini st) (ls_maxi st) mean) :: sc))%py.
Proof.
  intro Heq. unfold AudioDataset, open_read.
  rewrite log_opens, text_read, audio_read. simpl.
  apply Z.eqb_eq in Heq. now rewrite Heq.
Qed.

End AudioDatasetFacts.

(** ** The placeholder source *)

Section Placeholder.

Context {Sound Signal Sample : Type}.
Variable module_names : list string.
Variable w : World Sound Signal Sample.

(** A data set that is returned holds examples of the final loop state. *)
Lemma AudioDataset_Ok_inv (path text_ext audio_ext : string) (field : Field)
      (num : Z) (char_level train : bool)
      (filter_pred : option (@AudioExample Sound Signal Sample -> bool))
      (sc : sidecar) ds sc' :
  AudioDataset module_names w path text_ext audio_ext field num char_level train
               filter_pred sc = Ok (ds, sc') ->
  exists text audio st,
    for_each (loop_body module_names w field num char_level train)
             (combine (file_lines text) (file_lines audio))
             (mk_loop_state [] 1 10 0 0) = Ok st
    /\ ls_count st <> 0
    /\ ds = Dataset_init (ls_examples st)
                         ["trg"; "audio"; "audio2"; "mfcc"; "src"] filter_pred.
Proof.
  unfold AudioDataset, open_read.
  destruct (open_append w _); simpl; [| discriminate].
  destruct (read_text w (expanduser w (path ++ text_ext))) as [text |];
    simpl; [| discriminate].
  destruct (read_text w (expanduser w (path ++ audio_ext))) as [audio |];
    simpl; [| discriminate].
  destruct (negb _); [discriminate |]. simpl.
  destruct (for_each _ _ _) as [st |] eqn:Hrun; simpl; [| discriminate].
  destruct (ls_count st =? 0) eqn:Hc; simpl; [discriminate |].
  intro Heq. inversion Heq; subst.
  exists text, audio, st. apply Z.eqb_neq in Hc. auto.
Qed.

Lemma Dataset_init_incl {E : Type} (exs : list E) (flds : list string)
      (filter_pred : option (E -> bool)) (e : E) :
  In e (examples (Dataset_init exs flds filter_pred)) -> In e exs.
Proof.
  destruct filter_pred as [p |]; simpl; [| auto].
  intro Hin. now apply filter_In in Hin.
Qed.

Lemma loop_body_placeholder (field : Field) (level : string) (num : Z)
      (train : bool) (st st' : loop_state) (lines : string * string) :
  tokenize field = tok_fun level ->
  Forall placeholder_ok (ls_examples st) ->
  loop_body module_names w field num (String.eqb level "char") train st lines
  = Ok st' ->
  Forall placeholder_ok (ls_examples st').
Proof.
  intros Htok Hinv. unfold loop_body.
  destruct (lookup_global module_names "ta"); simpl; [| discriminate].
  destruct (ta_load w _) as [[sound rate] |]; simpl; [| discriminate].
  destruct (lookup_global module_names "librosa"); simpl; [| discriminate].
  destruct (librosa_load w _) as [[y sr] |]; simpl; [| discriminate].
  destruct (librosa_feature_mfcc w y sr num) as [features |]; simpl;
    [| discriminate].
  destruct (lookup_global module_names "torch"); simpl; [| discriminate].
  assert (Hnew : forall check,
             Forall placeholder_ok
               (ls_examples
                  (record_example st
                     (mk_AudioExample
                        (preprocess field (strip (fst lines))) sound y
                        (transpose features)
                        (preprocess field
                           (if String.eqb level "char"
                            then str_mul "a" (shape0 (transpose features) - 1)
                            else str_mul "a " (shape0 (transpose features) - 1))))
                     check))).
  { intro check. simpl. apply Forall_app. split; [assumption |].
    constructor; [| constructor].
    unfold placeholder_ok. simpl. now apply audio_dummy_length. }
  destruct train.
  - destruct (negb _ && negb _).
    + destruct (getsize w _) as [size |]; simpl; [| discriminate].
      destruct ((44 <? size) && _); intro Heq; inversion Heq; subst; auto.
    + intro Heq; inversion Heq; subst; auto.
  - intro Heq; inversion Heq; subst; auto.
Qed.

End Placeholder.

(** C7.  Every example of a data set that [AudioDataset] returns, at
    character level and at word or bpe level alike, has a placeholder
    source of [frame_count - 1] tokens, [frame_count] being the number of
    rows of the feature matrix of the example (and of no token for a
    matrix without rows). *)
Theorem placeholder_source_length
        {Sound Signal Sample : Type} (module_names : list string)
        (w : World Sound Signal Sample) (path text_ext audio_ext : string)
        (init eos pad unk : option string) (level : string) (lowercase : bool)
        (num : Z) (train : bool)
        (filter_pred : option (@AudioExample Sound Signal Sample -> bool))
        (sc sc' : sidecar) (ds : Dataset (@AudioExample Sound Signal Sample)) :
  AudioDataset module_names w path text_ext audio_ext
               (mk_Field init eos pad unk (tok_fun level) lowercase)
               num (String.eqb level "char") train filter_pred sc
  = Ok (ds, sc') ->
  forall e, In e (examples ds) ->
            List.length (a_src e) = Z.to_nat (shape0 (a_mfcc e) - 1)
            /\ (1 <= shape0 (a_mfcc e) -> len (a_src e) = shape0 (a_mfcc e) - 1).
Proof.
  intros Hok e Hin.
  apply AudioDataset_Ok_inv in Hok.
  destruct Hok as (text & audio & st & Hrun & _ & ->).
  apply Dataset_init_incl in Hin.
  assert (Hall : Forall placeholder_ok (ls_examples st)).
  { eapply (for_each_invariant
              (fun st => Forall placeholder_ok (ls_examples st)));
      [| | exact Hrun].
    - intros st0 x st1 Hinv Hb.
      eapply loop_body_placeholder; [| exact Hinv | exact Hb]. reflexivity.
    - constructor. }
  rewrite Forall_forall in Hall. specialize (Hall e Hin).
  unfold placeholder_ok in Hall. split; [assumption |].
  intro Hpos. unfold len. rewrite Hall. lia.
Qed.

Lemma placeholder_source_length_witness :
  List.length
    (a_src (example_of (audio_field "<unk>" "<pad>" "</s>" (corpus_cfg "char" 10 10))
                       true "ab"
                       (tt, 3%nat, transpose (mk_ndarray 13 3 (fun _ _ => 0)))))
  = Z.to_nat (3 - 1)
  /\ len (a_src (example_of
                   (audio_field "<unk>" "<pad>" "</s>" (corpus_cfg "char" 10 10))
                   true "ab"
                   (tt, 3%nat, transpose (mk_ndarray 13 3 (fun _ _ => 0)))))
     = 3 - 1.
Proof.
  destruct (placeholder_source_length Helpers.module_names
              (corpus_world speech_files speech_clips) "train" ".trg" ".txt"
              None (Some "</s>") (Some "<pad>") (Some "<unk>") "char" false 13 true
              (Some (audio_filter_pred (corpus_cfg "char" 10 10)))
              []
              [("train_length_statistics", mk_stat_line 0 1 (1, 2))]
              (mk_Dataset
                 (train_examples "<unk>" "<pad>" "</s>"
                    (corpus_world speech_files speech_clips)
                    (corpus_cfg "char" 10 10)
                    ("ab" ++ LF ++ "cd efg" ++ LF)
                    ("a.wav" ++ LF ++ "b.wav" ++ LF))
                 ["trg"; "audio"; "audio2"; "mfcc"; "src"])
              ltac:(vm_compute; reflexivity)
              (example_of
                 (audio_field "<unk>" "<pad>" "</s>" (corpus_cfg "char" 10 10))
                 true "ab"
                 (tt, 3%nat, transpose (mk_ndarray 13 3 (fun _ _ => 0))))
              ltac:(vm_compute; left; reflexivity))
    as [Hlen Hpos].
  split; [exact Hlen | apply Hpos; vm_compute; discriminate].
Defined.

(** ** The loop of [helpers.py] *)

Section HelpersLoop.

Context {Sound Signal Sample : Type}.
Variable w : World Sound Signal Sample.
Variable field : Field.
Variable num : Z.
Variable char_level : bool.

Lemma helpers_names_bound :
  lookup_global Helpers.module_names "ta" = Ok tt
  /\ lookup_global Helpers.module_names "librosa" = Ok tt
  /\ lookup_global Helpers.module_names "torch" = Ok tt.
Proof.
  repeat split; vm_compute; reflexivity.
Qed.

(** One iteration when the external calls succeed. *)
Lemma loop_body_appended (train : bool) (st : loop_state)
      (lines : string * string) :
  features_of w num (strip (snd lines)) <> None ->
  (train = true -> strip (fst lines) <> "" -> strip (snd lines) <> "" ->
   getsize w (strip (snd lines)) <> None) ->
  loop_body Helpers.module_names w field num char_level train st lines
  = Ok (record_all st (appended w field num char_level train lines)).
Proof.
  intros Hf Hsize. unfold loop_body, appended, features_of in *.
  destruct helpers_names_bound as (-> & -> & ->). simpl.
  destruct (ta_load w _) as [[sound rate] |]; simpl; [| congruence].
  destruct (librosa_load w _) as [[y sr] |]; simpl; [| congruence].
  destruct (librosa_feature_mfcc w y sr num) as [features |]; simpl;
    [| congruence].
  destruct train; simpl; [| reflexivity].
  unfold passes_loop_tests, size_exceeds_threshold, frame_count. simpl.
  destruct (String.eqb (strip (fst lines)) "") eqn:Ht; simpl; [reflexivity |].
  destruct (String.eqb (strip (snd lines)) "") eqn:Ha; simpl; [reflexivity |].
  apply String.eqb_neq in Ht, Ha.
  destruct (getsize w _) as [size |]; simpl; [| now elim (Hsize eq_refl Ht Ha)].
  destruct (44 <? size); simpl; [| reflexivity].
  destruct (_ <? 10); reflexivity.
Qed.

Lemma record_all_app (st : loop_state)
      (l1 l2 : list (@AudioExample Sound Signal Sample * Z)) :
  record_all st (l1 ++ l2) = record_all (record_all st l1) l2.
Proof.
  unfold record_all. apply fold_left_app.
Qed.

Lemma record_all_examples (l : list (@AudioExample Sound Signal Sample * Z))
      (st : loop_state) :
  ls_examples (record_all st l) = ls_examples st ++ map fst l.
Proof.
  revert st. unfold record_all.
  induction l as [| ec rest IH]; intro st; simpl.
  - now rewrite app_nil_r.
  - rewrite IH. simpl. now rewrite <- app_assoc.
Qed.

Lemma record_all_count (l : list (@AudioExample Sound Signal Sample * Z))
      (st : loop_state) :
  ls_count (record_all st l) = ls_count st + len l.
Proof.
  revert st. unfold record_all, len.
  induction l as [| ec rest IH]; intro st; simpl List.length; simpl fold_left.
  - simpl. lia.
  - rewrite IH. simpl ls_count. lia.
Qed.

(** The whole loop when the external calls succeed on every line. *)
Lemma loop_appended (train : bool) (pairs : list (string * string)) :
  (forall lines, In lines pairs ->
                 features_of w num (strip (snd lines)) <> None) ->
  (forall lines, In lines pairs -> train = true ->
                 strip (fst lines) <> "" -> strip (snd lines) <> "" ->
                 getsize w (strip (snd lines)) <> None) ->
  forall st,
    for_each (loop_body Helpers.module_names w field num char_level train)
             pairs st
    = Ok (record_all st (flat_map (appended w field num char_level train) pairs)).
Proof.
  intros Hf Hsize. induction pairs as [| lines rest IH]; intro st; simpl.
  - reflexivity.
  - rewrite loop_body_appended; [| apply Hf; now left | apply Hsize; now left].
    rewrite IH.
    + now rewrite record_all_app.
    + intros l Hl. apply Hf. now right.
    + intros l Hl. apply Hsize. now right.
Qed.

End HelpersLoop.

(** ** The training split of the audio loader *)

Section TrainSplit.

Context {Sound Signal Sample : Type}.
Variables UNK_TOKEN PAD_TOKEN EOS_TOKEN : string.
Variable w : World Sound Signal Sample.
Variable cfg : Cfg.

Local Abbreviation field := (audio_field UNK_TOKEN PAD_TOKEN EOS_TOKEN cfg).
Local Abbreviation char := (String.eqb (data_level cfg) "char").

(** The [filter_pred] on an example of the loop is the test on the two
    lengths. *)
Lemma filter_pred_within (text_line : string)
      (clip : Sound * Signal * ndarray Sample) :
  audio_filter_pred cfg (example_of field char text_line clip)
  = within_lengths UNK_TOKEN PAD_TOKEN EOS_TOKEN cfg text_line (frame_count clip).
Proof.
  unfold audio_filter_pred, within_lengths, example_of. simpl a_src. simpl a_trg.
  f_equal. unfold len at 1.
  rewrite (audio_dummy_length field (data_level cfg) (frame_count clip))
    by reflexivity.
  f_equal. lia.
Qed.

Lemma filter_appended_train (lines : string * string) :
  filter (audio_filter_pred cfg)
         (map fst (appended w field (embedding_dim cfg) char true lines))
  = match features_of w (embedding_dim cfg) (strip (snd lines)) with
    | Some clip =>
        if train_keeps UNK_TOKEN PAD_TOKEN EOS_TOKEN w cfg
                       (strip (fst lines)) (strip (snd lines)) (frame_count clip)
        then [example_of field char (strip (fst lines)) clip]
        else []
    | None => []
    end.
Proof.
  unfold appended, train_keeps.
  destruct (features_of w _ _) as [clip |]; [| reflexivity].
  simpl negb. simpl orb.
  destruct (passes_loop_tests w _ _ _); simpl; [| reflexivity].
  rewrite filter_pred_within.
  now destruct (within_lengths _ _ _ _ _ _).
Qed.

Lemma filter_appended_all (pairs : list (string * string)) :
  filter (audio_filter_pred cfg)
         (map fst (flat_map (appended w field (embedding_dim cfg) char true) pairs))
  = flat_map
      (fun lines =>
         match features_of w (embedding_dim cfg) (snd lines) with
         | Some clip =>
             if train_keeps UNK_TOKEN PAD_TOKEN EOS_TOKEN w cfg
                            (fst lines) (snd lines) (frame_count clip)
             then [example_of field char (fst lines) clip]
             else []
         | None => []
         end)
      (map (fun lines => (strip (fst lines), strip (snd lines))) pairs).
Proof.
  induction pairs as [| lines rest IH]; [reflexivity |].
  simpl flat_map. rewrite map_app, filter_app, IH, filter_appended_train.
  reflexivity.
Qed.

End TrainSplit.

(** C4, as amended.  On a training corpus whose external calls succeed and
    of which at least one line pair passes the tests of the loop, the
    loader of [helpers.py] returns the data set of the line pairs, in
    file order, for which the transcript line and the audio reference
    line are non-empty, the audio file has more than 44 bytes,
    [frame_count // (char_count + 1)] is below 10, the length of the
    placeholder source, [frame_count - 1], is within the maximum audio
    length, and the number of transcript tokens is within the maximum
    sentence length. *)
Theorem train_split_keeps
        {Sound Signal Sample : Type} (UNK_TOKEN PAD_TOKEN EOS_TOKEN : string)
        (w : World Sound Signal Sample) (cfg : Cfg) (sc : sidecar)
        (text audio : string) :
  open_append w (expanduser w (data_train cfg ++ "_length_statistics")) = true ->
  read_text w (expanduser w (data_train cfg ++ "." ++ audio_lang cfg))
  = Some text ->
  read_text w (expanduser w (data_train cfg ++ ".txt")) = Some audio ->
  len (splitlines text) = len (splitlines audio) ->
  (forall lines, In lines (line_pairs text audio) ->
                 features_of w (embedding_dim cfg) (snd lines) <> None) ->
  (forall lines, In lines (line_pairs text audio) ->
                 fst lines <> "" -> snd lines <> "" ->
                 getsize w (snd lines) <> None) ->
  (exists lines clip,
      In lines (line_pairs text audio)
      /\ features_of w (embedding_dim cfg) (snd lines) = Some clip
      /\ passes_loop_tests w (fst lines) (snd lines) (frame_count clip) = true) ->
  exists line,
    Helpers.load_audio_train UNK_TOKEN PAD_TOKEN EOS_TOKEN w cfg sc
    = Ok (mk_Dataset
            (train_examples UNK_TOKEN PAD_TOKEN EOS_TOKEN w cfg text audio)
            ["trg"; "audio"; "audio2"; "mfcc"; "src"],
          (expanduser w (data_train cfg ++ "_length_statistics"), line) :: sc).
Proof.
  intros Hlog Htext Haudio Hlen Hf Hsize (lines & clip & Hin & Hclip & Hgate).
  unfold Helpers.load_audio_train, load_audio_train.
  rewrite (AudioDataset_aligned _ _ _ _ _ _ _ _ _ _ _ text audio Hlog Htext Haudio Hlen).
  unfold line_pairs in *.
  rewrite loop_appended.
  - simpl bind. rewrite record_all_count. simpl ls_count.
    set (raw := combine (file_lines text) (file_lines audio)) in *.
    set (app := flat_map _ raw).
    assert (Hne : (0 + len app =? 0) = false).
    { apply Z.eqb_neq. apply in_map_iff in Hin.
      destruct Hin as (raw_lines & <- & Hraw). simpl in Hclip, Hgate.
      assert (Hex : In (example_of
                          (audio_field UNK_TOKEN PAD_TOKEN EOS_TOKEN cfg)
                          (String.eqb (data_level cfg) "char")
                          (strip (fst raw_lines)) clip,
                        frame_count clip / (str_len (strip (fst raw_lines)) + 1))
                       app).
      { apply in_flat_map. exists raw_lines. split; [assumption |].
        unfold appended. rewrite Hclip, Hgate. now left. }
      unfold len. destruct app; [contradiction | simpl; lia]. }
    rewrite Hne. simpl bind. eexists. f_equal. f_equal.
    unfold Dataset_init. f_equal.
    rewrite record_all_examples. simpl app.
    unfold train_examples, line_pairs. fold raw.
    apply filter_appended_all.
  - intros l Hl. apply (Hf (strip (fst l), strip (snd l))).
    apply in_map_iff. exists l. auto.
  - intros l Hl _. apply (Hsize (strip (fst l), strip (snd l))).
    apply in_map_iff. exists l. auto.
Qed.

Lemma train_split_keeps_witness :
  exists line,
    Helpers.load_audio_train "<unk>" "<pad>" "</s>"
      (corpus_world speech_files speech_clips) (corpus_cfg "word" 10 2) []
    = Ok (mk_Dataset
            (train_examples "<unk>" "<pad>" "</s>"
               (corpus_world speech_files speech_clips) (corpus_cfg "word" 10 2)
               ("ab" ++ LF ++ "cd efg" ++ LF) ("a.wav" ++ LF ++ "b.wav" ++ LF))
            ["trg"; "audio"; "audio2"; "mfcc"; "src"],
          [("train_length_statistics", line)]).
Proof.
  apply (train_split_keeps "<unk>" "<pad>" "</s>"
           (corpus_world speech_files speech_clips) (corpus_cfg "word" 10 2) []
           ("ab" ++ LF ++ "cd efg" ++ LF)%string
           ("a.wav" ++ LF ++ "b.wav" ++ LF)%string).
  - reflexivity.
  - reflexivity.
  - reflexivity.
  - reflexivity.
  - intros lines Hin. vm_compute in Hin.
    destruct Hin as [<- | [<- | []]]; vm_compute; discriminate.
  - intros lines Hin _ _. vm_compute in Hin.
    destruct Hin as [<- | [<- | []]]; vm_compute; discriminate.
  - exists ("ab", "a.wav"),
           (tt, 3%nat, transpose (mk_ndarray 13 3 (fun _ _ => 0))).
    split; [vm_compute; auto | split; vm_compute; reflexivity].
Defined.

(** C4 fails as stated: with a maximum audio length of 2 the training
    utterance of 3 frames is kept, although its frame count is not within
    the maximum audio length. *)
Lemma train_split_frame_count_counterexample :
  match Helpers.load_audio_train "<unk>" "<pad>" "</s>"
          (corpus_world speech_files speech_clips) (corpus_cfg "word" 10 2) []
  with
  | Ok (ds, _) => map (fun e => (a_trg e, shape0 (a_mfcc e))) (examples ds)
  | Raise _ => []
  end = [(["ab"], 3)]
  /\ data_max_audio_length (corpus_cfg "word" 10 2) = 2
  /\ train_keeps_as_specified "<unk>" "<pad>" "</s>"
       (corpus_world speech_files speech_clips) (corpus_cfg "word" 10 2)
       "ab" "a.wav" 3 = false.
Proof.
  repeat split; vm_compute; reflexivity.
Qed.

(** ** The other splits of the audio loader *)

Lemma map_fst_appended_eval {Sound Signal Sample : Type}
      (w : World Sound Signal Sample) (field : Field) (num : Z)
      (char_level : bool) (pairs : list (string * string)) :
  map fst (flat_map (appended w field num char_level false) pairs)
  = flat_map
      (fun lines =>
         match features_of w num (snd lines) with
         | Some clip => [example_of field char_level (fst lines) clip]
         | None => []
         end)
      (map (fun lines => (strip (fst lines), strip (snd lines))) pairs).
Proof.
  induction pairs as [| lines rest IH]; [reflexivity |].
  simpl flat_map. rewrite map_app, IH. f_equal.
  unfold appended. simpl.
  now destruct (features_of w num (strip (snd lines))).
Qed.

Lemma flat_map_singletons {A B : Type} (f : A -> list B) (l : list A) :
  (forall x, In x l -> List.length (f x) = 1%nat) ->
  List.length (flat_map f l) = List.length l.
Proof.
  induction l as [| x rest IH]; intro Hone; simpl; [reflexivity |].
  rewrite length_app, Hone by now left.
  rewrite IH; [reflexivity |]. intros y Hy. apply Hone. now right.
Qed.

(** C5, as amended.  On a split other than the training split, whose
    external calls succeed and which has at least one line pair, the
    loader of [helpers.py] returns one example for every aligned line
    pair, in file order: no test is made on the transcript line or on the
    size of the audio file. *)
Theorem eval_split_keeps_all
        {Sound Signal Sample : Type} (UNK_TOKEN PAD_TOKEN EOS_TOKEN : string)
        (w : World Sound Signal Sample) (path : string) (cfg : Cfg)
        (sc : sidecar) (text audio : string) :
  open_append w (expanduser w (path ++ "_length_statistics")) = true ->
  read_text w (expanduser w (path ++ "." ++ audio_lang cfg)) = Some text ->
  read_text w (expanduser w (path ++ ".txt")) = Some audio ->
  len (splitlines text) = len (splitlines audio) ->
  (forall lines, In lines (line_pairs text audio) ->
                 features_of w (embedding_dim cfg) (snd lines) <> None) ->
  line_pairs text audio <> [] ->
  List.length (eval_examples UNK_TOKEN PAD_TOKEN EOS_TOKEN w cfg text audio)
  = List.length (line_pairs text audio)
  /\ exists line,
      Helpers.load_audio_eval UNK_TOKEN PAD_TOKEN EOS_TOKEN w path cfg sc
      = Ok (mk_Dataset
              (eval_examples UNK_TOKEN PAD_TOKEN EOS_TOKEN w cfg text audio)
              ["trg"; "audio"; "audio2"; "mfcc"; "src"],
            (expanduser w (path ++ "_length_statistics"), line) :: sc).
Proof.
  intros Hlog Htext Haudio Hlen Hf Hne. split.
  - unfold eval_examples. apply flat_map_singletons.
    intros lines Hin. specialize (Hf lines Hin).
    now destruct (features_of w (embedding_dim cfg) (snd lines)).
  - unfold Helpers.load_audio_eval, load_audio_eval.
    rewrite (AudioDataset_aligned _ _ _ _ _ _ _ _ _ _ _ text audio
               Hlog Htext Haudio Hlen).
    unfold line_pairs in *.
    set (raw := combine (file_lines text) (file_lines audio)) in *.
    rewrite loop_appended.
    + simpl bind. rewrite record_all_count. simpl ls_count.
      set (app := flat_map _ raw).
      assert (Hcount : (0 + len app =? 0) = false).
      { apply Z.eqb_neq. unfold len.
        assert (Hlen' : List.length (map fst app) = List.length raw).
        { unfold app. rewrite map_fst_appended_eval.
          rewrite <- (length_map (fun lines => (strip (fst lines), strip (snd lines))) raw).
          apply flat_map_singletons. intros lines Hin. specialize (Hf lines Hin).
          now destruct (features_of w (embedding_dim cfg) (snd lines)). }
        rewrite length_map in Hlen'. rewrite Hlen'.
        destruct raw; [now elim Hne | simpl; lia]. }
      rewrite Hcount. simpl bind. eexists. f_equal. f_equal.
      unfold Dataset_init. f_equal.
      rewrite record_all_examples. simpl List.app.
      unfold eval_examples, line_pairs. fold raw.
      apply map_fst_appended_eval.
    + intros l Hl. apply (Hf (strip (fst l), strip (snd l))).
      apply in_map_iff. exists l. auto.
    + intros l Hl Htrain. discriminate Htrain.
Qed.

Lemma eval_split_keeps_all_witness :
  List.length
    (eval_examples "<unk>" "<pad>" "</s>"
       (corpus_world speech_files speech_clips) (corpus_cfg "word" 10 2)
       (LF ++ "hi" ++ LF) ("a.wav" ++ LF ++ "tiny.wav" ++ LF))
  = List.length (line_pairs (LF ++ "hi" ++ LF) ("a.wav" ++ LF ++ "tiny.wav" ++ LF))
  /\ exists line,
      Helpers.load_audio_eval "<unk>" "<pad>" "</s>"
        (corpus_world speech_files speech_clips) "dev" (corpus_cfg "word" 10 2) []
      = Ok (mk_Dataset
              (eval_examples "<unk>" "<pad>" "</s>"
                 (corpus_world speech_files speech_clips) (corpus_cfg "word" 10 2)
                 (LF ++ "hi" ++ LF) ("a.wav" ++ LF ++ "tiny.wav" ++ LF))
              ["trg"; "audio"; "audio2"; "mfcc"; "src"],
            [("dev_length_statistics", line)]).
Proof.
  apply (eval_split_keeps_all "<unk>" "<pad>" "</s>"
           (corpus_world speech_files speech_clips) "dev"
           (corpus_cfg "word" 10 2) []
           (LF ++ "hi" ++ LF)%string
           ("a.wav" ++ LF ++ "tiny.wav" ++ LF)%string).
  - reflexivity.
  - reflexivity.
  - reflexivity.
  - reflexivity.
  - intros lines Hin. vm_compute in Hin.
    destruct Hin as [<- | [<- | []]]; vm_compute; discriminate.
  - vm_compute. discriminate.
Defined.

(** C5 fails as stated: the development split keeps the utterance whose
    transcript line is empty and the utterance whose audio file has only
    ten bytes. *)
Lemma eval_split_unfiltered_counterexample :
  match Helpers.load_audio_eval "<unk>" "<pad>" "</s>"
          (corpus_world speech_files speech_clips) "dev"
          (corpus_cfg "word" 10 2) []
  with
  | Ok (ds, _) => map a_trg (examples ds)
  | Raise _ => []
  end = [[]; ["hi"]]
  /\ line_pairs (LF ++ "hi" ++ LF) ("a.wav" ++ LF ++ "tiny.wav" ++ LF)
     = [("", "a.wav"); ("hi", "tiny.wav")]
  /\ eval_keeps_as_specified (corpus_world speech_files speech_clips)
                             "" "a.wav" = false
  /\ eval_keeps_as_specified (corpus_world speech_files speech_clips)
                             "hi" "tiny.wav" = false.
Proof.
  repeat split; vm_compute; reflexivity.
Qed.

(** ** The statistics *)

(** A loop that ends without an example recorded makes the construction
    fail on the mean of the statistics. *)
Lemma AudioDataset_no_example
      {Sound Signal Sample : Type} (module_names : list string)
      (w : World Sound Signal Sample) (path text_ext audio_ext : string)
      (field : Field) (num : Z) (char_level train : bool)
      (filter_pred : option (@AudioExample Sound Signal Sample -> bool))
      (sc : sidecar) (text audio : string) (st : loop_state) :
  open_append w (expanduser w (path ++ "_length_statistics")) = true ->
  read_text w (expanduser w (path ++ text_ext)) = Some text ->
  read_text w (expanduser w (path ++ audio_ext)) = Some audio ->
  len (splitlines text) = len (splitlines audio) ->
  for_each (loop_body module_names w field num char_level train)
           (combine (file_lines text) (file_lines audio))
           (mk_loop_state [] 1 10 0 0) = Ok st ->
  ls_count st = 0 ->
  AudioDataset module_names w path text_ext audio_ext field num char_level train
               filter_pred sc
  = Raise ZeroDivisionError.
Proof.
  intros Hlog Htext Haudio Hlen Hrun Hcount.
  rewrite (AudioDataset_aligned _ _ _ _ _ _ _ _ _ _ _ text audio
             Hlog Htext Haudio Hlen).
  rewrite Hrun. simpl. now rewrite Hcount.
Qed.

(** C8, the failing inputs.  On a training split whose only transcript
    line is empty the loop of [helpers.py] ends normally, with no example,
    and the construction raises [ZeroDivisionError] on the mean of the
    statistics; so does the construction in [data.py] on a split whose
    two files are empty. *)
Theorem statistics_division_by_zero :
  for_each (loop_body Helpers.module_names
              (corpus_world blank_files speech_clips)
              (audio_field "<unk>" "<pad>" "</s>" (corpus_cfg "word" 10 10))
              13 false true)
           (combine (file_lines LF) (file_lines ("a.wav" ++ LF)))
           (mk_loop_state [] 1 10 0 0)
  = Ok (mk_loop_state [] 1 10 0 0)
  /\ Helpers.load_audio_train "<unk>" "<pad>" "</s>"
       (corpus_world blank_files speech_clips) (corpus_cfg "word" 10 10) []
     = Raise ZeroDivisionError
  /\ for_each (loop_body Data.module_names
                 (corpus_world empty_files [])
                 (audio_field "<unk>" "<pad>" "</s>" (corpus_cfg "word" 10 10))
                 13 false true)
              (combine (file_lines "") (file_lines ""))
              (mk_loop_state [] 1 10 0 0)
     = Ok (mk_loop_state [] 1 10 0 0)
  /\ Data.load_audio_train "<unk>" "<pad>" "</s>"
       (corpus_world empty_files []) (corpus_cfg "word" 10 10) []
     = Raise ZeroDivisionError.
Proof.
  repeat split; vm_compute; reflexivity.
Qed.

(** ** The audio path of [data.py] *)

Section DataAudio.

Context {Sound Signal Sample : Type}.
Variable w : World Sound Signal Sample.

Lemma data_ta_unbound : lookup_global Data.module_names "ta" = Raise (NameError "ta").
Proof.
  vm_compute. reflexivity.
Qed.

(** None of the three names that the loop needs is bound in [data.py]. *)
Lemma data_audio_names_unbound :
  lookup_global Data.module_names "ta" = Raise (NameError "ta")
  /\ lookup_global Data.module_names "librosa" = Raise (NameError "librosa")
  /\ lookup_global Data.module_names "torch" = Raise (NameError "torch").
Proof.
  repeat split; vm_compute; reflexivity.
Qed.

Lemma data_loop_body (field : Field) (num : Z) (char_level train : bool)
      (st : loop_state) (lines : string * string) :
  loop_body Data.module_names w field num char_level train st lines
  = Raise (NameError "ta").
Proof.
  unfold loop_body. now rewrite data_ta_unbound.
Qed.

Lemma data_loop (field : Field) (num : Z) (char_level train : bool)
      (pairs : list (string * string)) (st : loop_state) :
  for_each (loop_body Data.module_names w field num char_level train) pairs st
  = match pairs with
    | [] => Ok st
    | _ :: _ => Raise (NameError "ta")
    end.
Proof.
  destruct pairs as [| lines rest]; [reflexivity |].
  apply for_each_first_raises, data_loop_body.
Qed.

Lemma data_AudioDataset_fails (path text_ext audio_ext : string) (field : Field)
      (num : Z) (char_level train : bool)
      (filter_pred : option (@AudioExample Sound Signal Sample -> bool))
      (sc : sidecar) :
  is_ok (Data.AudioDataset w path text_ext audio_ext field num char_level train
                           filter_pred sc) = false.
Proof.
  unfold Data.AudioDataset, AudioDataset, open_read.
  destruct (open_append w _); simpl; [| reflexivity].
  destruct (read_text w (expanduser w (path ++ text_ext))) as [text |];
    simpl; [| reflexivity].
  destruct (read_text w (expanduser w (path ++ audio_ext))) as [audio |];
    simpl; [| reflexivity].
  destruct (negb _); [reflexivity |]. simpl.
  rewrite data_loop.
  destruct (combine _ _); reflexivity.
Qed.

End DataAudio.

(** C9.  In [data.py], on a split with at least one aligned line pair,
    the construction of the [AudioDataset] raises the [NameError] of the
    unbound name [ta], and so does [load_audio_data] when the split is the
    training split; on no input at all does the construction, or
    [load_audio_data], return. *)
Theorem data_audio_loading_never_succeeds
        {Sound Signal Sample : Type} (w : World Sound Signal Sample)
        (path text_ext audio_ext : string) (field : Field) (num : Z)
        (char_level train : bool)
        (filter_pred : option (@AudioExample Sound Signal Sample -> bool))
        (sc : sidecar) (text audio : string) :
  open_append w (expanduser w (path ++ "_length_statistics")) = true ->
  read_text w (expanduser w (path ++ text_ext)) = Some text ->
  read_text w (expanduser w (path ++ audio_ext)) = Some audio ->
  len (splitlines text) = len (splitlines audio) ->
  line_pairs text audio <> [] ->
  Data.AudioDataset w path text_ext audio_ext field num char_level train
                    filter_pred sc
  = Raise (NameError "ta")
  /\ (forall (UNK_TOKEN PAD_TOKEN EOS_TOKEN : string) (V : Type)
             (vocabulary_build_vocab :
                forall E : Type, Bitext E ->
                                 list (string * pyarg (Dataset E)) -> result V)
             (cfg : Cfg),
         data_train cfg = path ->
         ("." ++ audio_lang cfg)%string = text_ext ->
         audio_ext = ".txt" ->
         Data.load_audio_data UNK_TOKEN PAD_TOKEN EOS_TOKEN
                              vocabulary_build_vocab w cfg sc
         = Raise (NameError "ta"))
  /\ (forall path' text_ext' audio_ext' field' num' char_level' train'
             filter_pred' sc',
         is_ok (Data.AudioDataset w path' text_ext' audio_ext' field' num'
                                  char_level' train' filter_pred' sc') = false)
  /\ (forall (UNK_TOKEN PAD_TOKEN EOS_TOKEN : string) (V : Type)
             (vocabulary_build_vocab :
                forall E : Type, Bitext E ->
                                 list (string * pyarg (Dataset E)) -> result V)
             (cfg : Cfg) (sc' : sidecar),
         is_ok (Data.load_audio_data UNK_TOKEN PAD_TOKEN EOS_TOKEN
                                     vocabulary_build_vocab w cfg sc') = false).
Proof.
  intros Hlog Htext Haudio Hlen Hpairs.
  assert (Hraise : forall field0 num0 char_level0 train0 filter_pred0,
             AudioDataset Data.module_names w path text_ext audio_ext field0 num0
                          char_level0 train0 filter_pred0 sc
             = Raise (NameError "ta")).
  { intros. rewrite (AudioDataset_aligned _ _ _ _ _ _ _ _ _ _ _ text audio
                       Hlog Htext Haudio Hlen).
    rewrite data_loop. unfold line_pairs in Hpairs.
    destruct (combine _ _); [now elim Hpairs | reflexivity]. }
  split; [apply Hraise |]. split; [| split].
  - intros U P E V vb cfg <- <- ->.
    unfold Data.load_audio_data, load_audio_data, load_audio_train.
    now rewrite Hraise.
  - intros. apply data_AudioDataset_fails.
  - intros U P E V vb cfg sc'.
    unfold Data.load_audio_data, load_audio_data, load_audio_train.
    pose proof (data_AudioDataset_fails w (data_train cfg)
                  ("." ++ audio_lang cfg)%string ".txt"
                  (audio_field U P E cfg) (embedding_dim cfg)
                  (String.eqb (data_level cfg) "char") true
                  (Some (audio_filter_pred cfg)) sc') as Hfail.
    unfold Data.AudioDataset in Hfail.
    destruct (AudioDataset Data.module_names w _ _ _ _ _ _ _ _ _);
      [discriminate | reflexivity].
Qed.

Lemma data_audio_loading_never_succeeds_witness :
  Data.AudioDataset (corpus_world speech_files speech_clips)
    "train" ".trg" ".txt"
    (audio_field "<unk>" "<pad>" "</s>" (corpus_cfg "word" 10 10)) 13 false true
    None []
  = Raise (NameError "ta").
Proof.
  apply (data_audio_loading_never_succeeds
           (corpus_world speech_files speech_clips) "train" ".trg" ".txt"
           (audio_field "<unk>" "<pad>" "</s>" (corpus_cfg "word" 10 10))
           13 false true None []
           ("ab" ++ LF ++ "cd efg" ++ LF)%string
           ("a.wav" ++ LF ++ "b.wav" ++ LF)%string).
  - reflexivity.
  - reflexivity.
  - reflexivity.
  - reflexivity.
  - vm_compute. discriminate.
Defined.

(** ** [load_audio_data] of [helpers.py] *)

(** C10.  [load_audio_data] of [helpers.py] returns on no input: once the
    training [AudioDataset] is constructed, the call of [build_vocab] with
    the keyword [data], which is none of its parameters, raises
    [TypeError]. *)
Theorem helpers_load_audio_data_type_error
        {Sound Signal Sample : Type}
        (UNK_TOKEN PAD_TOKEN BOS_TOKEN EOS_TOKEN : string)
        {V : Type} `{VocabularyClass V}
        (w : World Sound Signal Sample) (cfg : Cfg) (sc : sidecar) :
  is_ok (Helpers.load_audio_data UNK_TOKEN PAD_TOKEN BOS_TOKEN EOS_TOKEN
                                 (V := V) w cfg sc) = false
  /\ forall train_data sc',
      Helpers.load_audio_train UNK_TOKEN PAD_TOKEN EOS_TOKEN w cfg sc
      = Ok (train_data, sc') ->
      Helpers.load_audio_data UNK_TOKEN PAD_TOKEN BOS_TOKEN EOS_TOKEN
                              (V := V) w cfg sc
      = Raise (TypeError
                 "build_vocab() got an unexpected keyword argument 'data'").
Proof.
  unfold Helpers.load_audio_data, load_audio_data, Helpers.load_audio_train.
  destruct (load_audio_train _ _ _ Helpers.module_names w cfg sc)
    as [[train_data sc1] |]; simpl.
  - split; [reflexivity |]. intros d s Heq. reflexivity.
  - split; [reflexivity |]. intros d s Heq. discriminate.
Qed.

Lemma helpers_load_audio_data_type_error_witness :
  Helpers.load_audio_data "<unk>" "<pad>" "<s>" "</s>" (V := list string)
    (corpus_world speech_files speech_clips) (corpus_cfg "word" 10 10) []
  = Raise (TypeError "build_vocab() got an unexpected keyword argument 'data'").
Proof.
  eapply (proj2 (helpers_load_audio_data_type_error
                   "<unk>" "<pad>" "<s>" "</s>"
                   (corpus_world speech_files speech_clips)
                   (corpus_cfg "word" 10 10) [])).
  vm_compute. reflexivity.
Defined.

(** ** Batching *)

(** In training mode [make_data_iter] asks torchtext for a bucket iterator
    that does not repeat, does not sort the data set as a whole, sorts
    within each batch by the length of the source, and shuffles as
    asked. *)
Lemma make_data_iter_training (batch_size : Z) (shuffle : bool) :
  make_data_iter batch_size true shuffle
  = mk_IteratorRequest true false false batch_size true (Some true) true
                       (Some shuffle).
Proof.
  reflexivity.
Qed.

(* ================================================================== *)
(** * Further properties *)
(* ================================================================== *)

(** ** The vocabulary builder *)

Lemma ranking_spec (min_freq : Z) (tokens : list string) :
  NoDup (ranking min_freq tokens)
  /\ (forall t, In t (ranking min_freq tokens) <-> survives min_freq tokens t)
  /\ StronglySorted (ranked_before tokens) (ranking min_freq tokens).
Proof.
  unfold ranking.
  destruct (filtered_counter tokens min_freq) as [Hnd Hc]. cbv zeta in *.
  set (counter := if -1 <? min_freq then filter_min (Counter tokens) min_freq
                  else Counter tokens) in *.
  set (ranked := sorted_int snd true (sorted_str fst counter)).
  assert (Hperm : Permutation counter ranked) by apply two_pass_perm.
  split; [| split].
  - eapply Permutation_NoDup; [| exact Hnd]. now apply Permutation_map.
  - intro t. split.
    + intro Hin. apply in_map_iff in Hin. destruct Hin as ([k v] & <- & Hin).
      apply (Permutation_in _ (Permutation_sym Hperm)) in Hin.
      apply Hc in Hin. simpl. tauto.
    + intro Hs. apply in_map_iff. exists (t, freq tokens t).
      split; [reflexivity |].
      apply (Permutation_in _ Hperm). apply Hc. auto.
  - apply (StronglySorted_map_In item_before); [| apply two_pass_sorted].
    intros [k1 v1] [k2 v2] H1 H2 Hb.
    apply (Permutation_in _ (Permutation_sym Hperm)) in H1, H2.
    apply Hc in H1, H2. destruct H1 as [_ ->], H2 as [_ ->].
    exact Hb.
Qed.

Lemma build_vocab_tokens_value
      (UNK_TOKEN PAD_TOKEN BOS_TOKEN EOS_TOKEN : string)
      {E : Type} `{Bitext E}
      (field : string) (max_size min_freq : Z) (examples : list E) :
  0 <= max_size ->
  build_vocab_tokens UNK_TOKEN PAD_TOKEN BOS_TOKEN EOS_TOKEN
                     field max_size min_freq examples
  = Ok ([UNK_TOKEN; PAD_TOKEN; BOS_TOKEN; EOS_TOKEN]
          ++ firstn (Z.to_nat max_size)
                    (ranking min_freq (field_tokens field examples))).
Proof.
  intro Hsize. unfold build_vocab_tokens. rewrite collect_tokens_field.
  unfold sort_and_cut, ranking. cbv zeta.
  rewrite slice_to_nonneg by assumption.
  rewrite <- firstn_map.
  set (ranked := map fst _).
  unfold getitem, specials, DEFAULT_UNK_ID. simpl.
  rewrite String.eqb_refl. simpl.
  match goal with
  | |- context [?a <=? ?b] => assert (Hle : (a <=? b) = true)
  end.
  { apply Z.leb_le. unfold len. cbn [List.length].
    pose proof (firstn_le_length (Z.to_nat max_size) ranked). lia. }
  rewrite Hle. reflexivity.
Qed.

Lemma freq_Permutation (l1 l2 : list string) (t : string) :
  Permutation l1 l2 -> freq l1 t = freq l2 t.
Proof.
  intro Hp. unfold freq. f_equal.
  now apply (proj1 (Permutation_count_occ string_dec l1 l2)).
Qed.

Lemma ranking_Permutation (min_freq : Z) (l1 l2 : list string) :
  Permutation l1 l2 -> ranking min_freq l1 = ranking min_freq l2.
Proof.
  intro Hp.
  destruct (ranking_spec min_freq l1) as (Hnd1 & Hin1 & Hs1).
  destruct (ranking_spec min_freq l2) as (Hnd2 & Hin2 & Hs2).
  apply (ranking_unique l1); auto.
  - intro t. rewrite Hin1, Hin2. unfold survives.
    rewrite (freq_Permutation l1 l2 t Hp).
    split; intros [Hin Hf]; (split; [| exact Hf]).
    + now apply (Permutation_in _ Hp).
    + now apply (Permutation_in _ (Permutation_sym Hp)).
  - clear - Hs2 Hp. induction Hs2 as [| x rest Hs IH Hall]; constructor; auto.
    eapply Forall_impl; [| exact Hall]. intros y Hxy.
    unfold ranked_before in *.
    now rewrite !(freq_Permutation l1 l2 _ Hp).
Qed.

(** X1.  The token list depends on the tokens of the training data only
    as a multiset: the order of the examples, and of the tokens, does not
    change it. *)
Theorem build_vocab_tokens_order_independent
        (UNK_TOKEN PAD_TOKEN BOS_TOKEN EOS_TOKEN : string)
        {E : Type} `{Bitext E}
        (field : string) (max_size min_freq : Z) (examples examples' : list E) :
  Permutation (field_tokens field examples) (field_tokens field examples') ->
  build_vocab_tokens UNK_TOKEN PAD_TOKEN BOS_TOKEN EOS_TOKEN
                     field max_size min_freq examples
  = build_vocab_tokens UNK_TOKEN PAD_TOKEN BOS_TOKEN EOS_TOKEN
                       field max_size min_freq examples'.
Proof.
  intro Hp. destruct (Z.lt_ge_cases max_size 0) as [Hneg | Hpos].
  - now rewrite !build_vocab_tokens_negative_size.
  - rewrite !build_vocab_tokens_value by assumption.
    now rewrite (ranking_Permutation min_freq _ _ Hp).
Qed.

Lemma field_tokens_Permutation {E : Type} `{Bitext E} (field : string)
      (examples examples' : list E) :
  Permutation examples examples' ->
  Permutation (field_tokens field examples) (field_tokens field examples').
Proof.
  intro Hp. unfold field_tokens.
  destruct (String.eqb field "src"); [now apply Permutation_flat_map |].
  destruct (String.eqb field "trg"); [now apply Permutation_flat_map |].
  constructor.
Qed.

Lemma build_vocab_tokens_order_independent_witness :
  build_vocab_tokens "<unk>" "<pad>" "<s>" "</s>" "src" 2 1
                     [mk_Example ["b"; "a"] ["x"]; mk_Example ["b"; "c"] ["y"]]
  = build_vocab_tokens "<unk>" "<pad>" "<s>" "</s>" "src" 2 1
                       [mk_Example ["b"; "c"] ["y"]; mk_Example ["b"; "a"] ["x"]].
Proof.
  apply build_vocab_tokens_order_independent.
  apply field_tokens_Permutation. apply perm_swap.
Defined.

(** X2.  Raising the maximum size only appends tokens: the token list for
    a smaller non-negative maximum size is a prefix of the token list for
    a larger one. *)
Theorem build_vocab_tokens_prefix
        (UNK_TOKEN PAD_TOKEN BOS_TOKEN EOS_TOKEN : string)
        {E : Type} `{Bitext E}
        (field : string) (max_size max_size' min_freq : Z) (examples : list E) :
  0 <= max_size -> max_size <= max_size' ->
  exists small more,
    build_vocab_tokens UNK_TOKEN PAD_TOKEN BOS_TOKEN EOS_TOKEN
                       field max_size min_freq examples = Ok small
    /\ build_vocab_tokens UNK_TOKEN PAD_TOKEN BOS_TOKEN EOS_TOKEN
                          field max_size' min_freq examples = Ok (small ++ more).
Proof.
  intros Hpos Hle.
  rewrite !build_vocab_tokens_value by lia.
  set (r := ranking min_freq (field_tokens field examples)).
  exists ([UNK_TOKEN; PAD_TOKEN; BOS_TOKEN; EOS_TOKEN]
            ++ firstn (Z.to_nat max_size) r),
         (skipn (Z.to_nat max_size) (firstn (Z.to_nat max_size') r)).
  split; [reflexivity |]. f_equal. rewrite <- app_assoc. f_equal.
  rewrite <- (firstn_skipn (Z.to_nat max_size) (firstn (Z.to_nat max_size') r))
    at 1.
  f_equal. rewrite firstn_firstn. f_equal. lia.
Qed.

Lemma build_vocab_tokens_prefix_witness :
  exists small more,
    build_vocab_tokens "<unk>" "<pad>" "<s>" "</s>" "src" 1 1
                       [mk_Example ["b"; "a"; "b"; "c"] ["x"]] = Ok small
    /\ build_vocab_tokens "<unk>" "<pad>" "<s>" "</s>" "src" 3 1
                          [mk_Example ["b"; "a"; "b"; "c"] ["x"]]
       = Ok (small ++ more).
Proof.
  apply build_vocab_tokens_prefix; lia.
Defined.

Lemma Counter_positive (tokens : list string) (k : string) (v : Z) :
  In (k, v) (Counter tokens) -> 1 <= v.
Proof.
  intro Hin. destruct (Counter_counts tokens) as [_ Hc].
  apply Hc in Hin. destruct Hin as [Hin ->].
  apply freq_pos in Hin. lia.
Qed.

Lemma filter_min_noop (tokens : list string) (min_freq : Z) :
  min_freq <= 1 -> filter_min (Counter tokens) min_freq = Counter tokens.
Proof.
  intro Hle. unfold filter_min. apply forallb_filter_id.
  apply forallb_forall. intros [k v] Hin. simpl.
  apply Counter_positive in Hin. apply Z.leb_le. lia.
Qed.

(** X3.  A minimum frequency of 1 or less filters nothing: the token list
    is the one built without the frequency filter. *)
Theorem build_vocab_tokens_min_freq_noop
        (UNK_TOKEN PAD_TOKEN BOS_TOKEN EOS_TOKEN : string)
        {E : Type} `{Bitext E}
        (field : string) (max_size min_freq : Z) (examples : list E) :
  min_freq <= 1 ->
  build_vocab_tokens UNK_TOKEN PAD_TOKEN BOS_TOKEN EOS_TOKEN
                     field max_size min_freq examples
  = build_vocab_tokens UNK_TOKEN PAD_TOKEN BOS_TOKEN EOS_TOKEN
                       field max_size (-1) examples.
Proof.
  intro Hle. unfold build_vocab_tokens.
  change (-1 <? -1) with false. cbv iota.
  destruct (-1 <? min_freq); [| reflexivity].
  now rewrite filter_min_noop.
Qed.

Lemma build_vocab_tokens_min_freq_noop_witness :
  build_vocab_tokens "<unk>" "<pad>" "<s>" "</s>" "trg" 5 0
                     [mk_Example ["b"; "a"] ["x"; "y"; "x"]]
  = build_vocab_tokens "<unk>" "<pad>" "<s>" "</s>" "trg" 5 (-1)
                       [mk_Example ["b"; "a"] ["x"; "y"; "x"]].
Proof.
  apply build_vocab_tokens_min_freq_noop. lia.
Defined.

(** X4.  The build-from-data path returns a token list exactly when the
    maximum size is not negative, and raises [AssertionError] otherwise;
    a returned list starts with the four reserved tokens and has at most
    [max_size + 4] entries. *)
Theorem build_vocab_tokens_size
        (UNK_TOKEN PAD_TOKEN BOS_TOKEN EOS_TOKEN : string)
        {E : Type} `{Bitext E}
        (field : string) (max_size min_freq : Z) (examples : list E) :
  (max_size < 0 /\
   build_vocab_tokens UNK_TOKEN PAD_TOKEN BOS_TOKEN EOS_TOKEN
                      field max_size min_freq examples = Raise AssertionError)
  \/ (0 <= max_size /\
      exists rest,
        build_vocab_tokens UNK_TOKEN PAD_TOKEN BOS_TOKEN EOS_TOKEN
                           field max_size min_freq examples
        = Ok ([UNK_TOKEN; PAD_TOKEN; BOS_TOKEN; EOS_TOKEN] ++ rest)
        /\ len ([UNK_TOKEN; PAD_TOKEN; BOS_TOKEN; EOS_TOKEN] ++ rest)
           <= max_size + 4).
Proof.
  destruct (Z.lt_ge_cases max_size 0) as [Hneg | Hpos].
  - left. split; [assumption |]. now apply build_vocab_tokens_negative_size.
  - right. split; [assumption |].
    rewrite build_vocab_tokens_value by assumption.
    eexists. split; [reflexivity |].
    unfold len. rewrite length_app. cbn [List.length].
    pose proof (firstn_le_length (Z.to_nat max_size)
                  (ranking min_freq (field_tokens field examples))). lia.
Qed.

(** X5.  When the maximum size is at least the number of tokens of the
    data, nothing is cut: the token list holds, after the four reserved
    tokens, every token that survives the frequency filter, once. *)
Theorem build_vocab_tokens_uncut
        (UNK_TOKEN PAD_TOKEN BOS_TOKEN EOS_TOKEN : string)
        {E : Type} `{Bitext E}
        (field : string) (max_size min_freq : Z) (examples : list E) :
  len (field_tokens field examples) <= max_size ->
  exists kept,
    build_vocab_tokens UNK_TOKEN PAD_TOKEN BOS_TOKEN EOS_TOKEN
                       field max_size min_freq examples
    = Ok ([UNK_TOKEN; PAD_TOKEN; BOS_TOKEN; EOS_TOKEN] ++ kept)
    /\ NoDup kept
    /\ forall t, In t kept
                 <-> survives min_freq (field_tokens field examples) t.
Proof.
  intro Hle. set (tokens := field_tokens field examples) in *.
  assert (Hpos : 0 <= max_size) by (unfold len in Hle; lia).
  destruct (ranking_spec min_freq tokens) as (Hnd & Hin & _).
  exists (ranking min_freq tokens). split; [| split; assumption].
  rewrite build_vocab_tokens_value by assumption. fold tokens.
  rewrite firstn_all2; [reflexivity |].
  assert (Hincl : incl (ranking min_freq tokens) tokens).
  { intros t Ht. apply Hin in Ht. apply Ht. }
  pose proof (NoDup_incl_length Hnd Hincl). unfold len in Hle. lia.
Qed.

Lemma build_vocab_tokens_uncut_witness :
  exists kept,
    build_vocab_tokens "<unk>" "<pad>" "<s>" "</s>" "src" 4 2
                       [mk_Example ["b"; "a"; "b"; "c"] ["x"]]
    = Ok (["<unk>"; "<pad>"; "<s>"; "</s>"] ++ kept)
    /\ NoDup kept
    /\ forall t, In t kept
                 <-> survives 2 (field_tokens "src"
                                   [mk_Example ["b"; "a"; "b"; "c"] ["x"]]) t.
Proof.
  apply (build_vocab_tokens_uncut "<unk>" "<pad>" "<s>" "</s>" "src" 4 2
           [mk_Example ["b"; "a"; "b"; "c"] ["x"]]).
  vm_compute. discriminate.
Defined.

(** ** Decoding *)

Lemma getitem_valid (itos : list string) (i : Z) :
  valid_id itos i -> getitem itos i = Ok (token_at itos i).
Proof.
  unfold valid_id, getitem, token_at, len. intro Hv.
  set (j := if i <? 0 then i + Z.of_nat (List.length itos) else i).
  assert (Hj : 0 <= j < Z.of_nat (List.length itos)).
  { unfold j. destruct (i <? 0) eqn:Hneg;
      [apply Z.ltb_lt in Hneg | apply Z.ltb_ge in Hneg]; lia. }
  destruct (j <? 0) eqn:Hj0; [apply Z.ltb_lt in Hj0; lia |].
  destruct (nth_error itos (Z.to_nat j)) as [s |] eqn:Hn.
  - f_equal. symmetry. now apply nth_error_nth.
  - apply nth_error_None in Hn. lia.
Qed.

Lemma getitem_invalid (itos : list string) (i : Z) :
  ~ valid_id itos i ->
  getitem itos i = Raise (IndexError "list index out of range").
Proof.
  unfold valid_id, getitem, len. intro Hv.
  destruct (i <? 0) eqn:Hneg;
    [apply Z.ltb_lt in Hneg | apply Z.ltb_ge in Hneg].
  - destruct (i + Z.of_nat (List.length itos) <? 0) eqn:Hj; [reflexivity |].
    apply Z.ltb_ge in Hj. lia.
  - destruct (i <? 0) eqn:Hj; [apply Z.ltb_lt in Hj; lia |].
    destruct (nth_error itos (Z.to_nat i)) as [s |] eqn:Hn; [| reflexivity].
    assert (Hlt : (Z.to_nat i < List.length itos)%nat)
      by (apply nth_error_Some; congruence).
    lia.
Qed.

Section DecodeFacts.

Variable EOS_TOKEN : string.
Variable itos : list string.

Lemma array_to_sentence_from_valid (array : list Z) (cut_at_eos : bool)
      (sentence : list string) :
  Forall (valid_id itos) array ->
  array_to_sentence_from EOS_TOKEN sentence array itos cut_at_eos
  = Ok (sentence
          ++ if cut_at_eos then until_eos EOS_TOKEN (map (token_at itos) array)
             else map (token_at itos) array).
Proof.
  intro Hall. revert sentence.
  induction Hall as [| i rest Hi Hrest IH]; intro sentence; simpl.
  - destruct cut_at_eos; now rewrite app_nil_r.
  - rewrite (getitem_valid _ _ Hi).
    destruct cut_at_eos; simpl.
    + destruct (String.eqb (token_at itos i) EOS_TOKEN).
      * now rewrite app_nil_r.
      * rewrite IH. now rewrite <- app_assoc.
    + rewrite IH. now rewrite <- app_assoc.
Qed.

Lemma array_to_sentence_from_eos (pre rest : list Z) (i : Z)
      (sentence : list string) :
  getitem itos i = Ok EOS_TOKEN ->
  array_to_sentence_from EOS_TOKEN sentence (pre ++ i :: rest) itos true
  = array_to_sentence_from EOS_TOKEN sentence pre itos true.
Proof.
  intro Heos. revert sentence.
  induction pre as [| j pre IH]; intro sentence; simpl.
  - rewrite Heos. simpl. now rewrite String.eqb_refl.
  - destruct (getitem itos j) as [s |]; [| reflexivity].
    simpl. destruct (String.eqb s EOS_TOKEN); [reflexivity | apply IH].
Qed.

Lemma index_of_nonneg (l : list string) (t : string) : 0 <= index_of l t.
Proof.
  induction l as [| x r IH]; cbn [index_of]; [lia |].
  destruct (String.eqb x t); lia.
Qed.

Lemma token_at_index_of (l : list string) (t : string) :
  In t l -> valid_id l (index_of l t) /\ token_at l (index_of l t) = t.
Proof.
  unfold valid_id, token_at, len.
  induction l as [| s rest IH]; intro Hin; [contradiction |].
  cbn [index_of List.length]. destruct (String.eqb s t) eqn:Hs.
  - apply String.eqb_eq in Hs. subst s.
    change (0 <? 0) with false. cbv iota. simpl nth. split; [lia | reflexivity].
  - apply String.eqb_neq in Hs.
    destruct Hin as [Heq | Hin]; [congruence |].
    destruct (IH Hin) as [Hv Ht].
    pose proof (index_of_nonneg rest t) as Hnn.
    destruct (index_of rest t <? 0) eqn:Hneg;
      [apply Z.ltb_lt in Hneg; lia |].
    destruct (1 + index_of rest t <? 0) eqn:Hneg';
      [apply Z.ltb_lt in Hneg'; lia |].
    split; [lia |].
    replace (Z.to_nat (1 + index_of rest t))
      with (S (Z.to_nat (index_of rest t))) by lia.
    simpl nth. exact Ht.
Qed.

End DecodeFacts.

(** X6.  On an array of indices that the vocabulary accepts,
    [array_to_sentence] returns the tokens at these indices, in order;
    with [cut_at_eos] it returns those before the first end-of-sequence
    token. *)
Theorem array_to_sentence_tokens
        (EOS_TOKEN : string) (itos : list string) (array : list Z)
        (cut_at_eos : bool) :
  Forall (valid_id itos) array ->
  array_to_sentence EOS_TOKEN array itos cut_at_eos
  = Ok (if cut_at_eos then until_eos EOS_TOKEN (map (token_at itos) array)
        else map (token_at itos) array).
Proof.
  intro Hall. unfold array_to_sentence.
  now rewrite array_to_sentence_from_valid.
Qed.

Lemma array_to_sentence_tokens_witness :
  array_to_sentence "</s>" [2; 1; -1; 0] ["</s>"; "a"; "b"] true
  = Ok (until_eos "</s>" (map (token_at ["</s>"; "a"; "b"]) [2; 1; -1; 0])).
Proof.
  apply (array_to_sentence_tokens "</s>" ["</s>"; "a"; "b"] [2; 1; -1; 0] true).
  repeat constructor; vm_compute; discriminate.
Defined.

(** X7.  With [cut_at_eos], nothing after the first index of the
    end-of-sequence token is looked at: the result, or the exception, is
    that of the array cut before it, whatever follows. *)
Theorem array_to_sentence_stops_at_eos
        (EOS_TOKEN : string) (itos : list string) (pre rest : list Z) (i : Z) :
  getitem itos i = Ok EOS_TOKEN ->
  array_to_sentence EOS_TOKEN (pre ++ i :: rest) itos true
  = array_to_sentence EOS_TOKEN pre itos true.
Proof.
  intro Heos. unfold array_to_sentence. now apply array_to_sentence_from_eos.
Qed.

Lemma array_to_sentence_stops_at_eos_witness :
  array_to_sentence "</s>" ([1; 2] ++ 0 :: [99; 1]) ["</s>"; "a"; "b"] true
  = array_to_sentence "</s>" [1; 2] ["</s>"; "a"; "b"] true.
Proof.
  apply array_to_sentence_stops_at_eos. reflexivity.
Defined.

(** X8.  Decoding inverts encoding: the indices of the tokens of a
    sentence, all of them in the vocabulary, are converted back to the
    sentence, cut before its first end-of-sequence token when
    [cut_at_eos] is set. *)
Theorem array_to_sentence_round_trip
        (EOS_TOKEN : string) (itos tokens : list string) (cut_at_eos : bool) :
  (forall t, In t tokens -> In t itos) ->
  array_to_sentence EOS_TOKEN (map (index_of itos) tokens) itos cut_at_eos
  = Ok (if cut_at_eos then until_eos EOS_TOKEN tokens else tokens).
Proof.
  intro Hin. unfold array_to_sentence.
  rewrite array_to_sentence_from_valid.
  - simpl. rewrite map_map.
    assert (Hid : map (fun t => token_at itos (index_of itos t)) tokens = tokens).
    { rewrite <- (map_id tokens) at 2. apply map_ext_in.
      intros t Ht. apply token_at_index_of. auto. }
    now rewrite Hid.
  - apply Forall_forall. intros i Hi.
    apply in_map_iff in Hi. destruct Hi as (t & <- & Ht).
    apply token_at_index_of. auto.
Qed.

Lemma array_to_sentence_round_trip_witness :
  array_to_sentence "</s>" (map (index_of ["<unk>"; "</s>"; "a"; "b"]) ["b"; "a"; "b"])
                    ["<unk>"; "</s>"; "a"; "b"] false
  = Ok ["b"; "a"; "b"].
Proof.
  apply (array_to_sentence_round_trip "</s>" ["<unk>"; "</s>"; "a"; "b"]
           ["b"; "a"; "b"] false).
  intros t Ht. vm_compute in Ht. vm_compute. tauto.
Defined.

Lemma array_to_sentence_from_invalid (EOS_TOKEN : string) (itos : list string)
      (pre rest : list Z) (i : Z) (cut_at_eos : bool) (sentence : list string) :
  Forall (valid_id itos) pre ->
  (cut_at_eos = true -> ~ In EOS_TOKEN (map (token_at itos) pre)) ->
  ~ valid_id itos i ->
  array_to_sentence_from EOS_TOKEN sentence (pre ++ i :: rest) itos cut_at_eos
  = Raise (IndexError "list index out of range").
Proof.
  intros Hall Hno Hi. revert sentence.
  induction Hall as [| j pre Hj Hpre IH]; intro sentence; simpl.
  - now rewrite (getitem_invalid _ _ Hi).
  - rewrite (getitem_valid _ _ Hj).
    assert (Hcut : cut_at_eos && String.eqb (token_at itos j) EOS_TOKEN = false).
    { destruct cut_at_eos; [| reflexivity]. simpl.
      apply String.eqb_neq. intro Heq. apply (Hno eq_refl). now left. }
    rewrite Hcut. apply IH.
    intros Hc Hin. apply (Hno Hc). now right.
Qed.

(** X9.  An index that the vocabulary does not accept makes
    [array_to_sentence] raise [IndexError], unless the conversion was cut
    at an end-of-sequence token before it. *)
Theorem array_to_sentence_index_error
        (EOS_TOKEN : string) (itos : list string) (pre rest : list Z) (i : Z)
        (cut_at_eos : bool) :
  Forall (valid_id itos) pre ->
  (cut_at_eos = true -> ~ In EOS_TOKEN (map (token_at itos) pre)) ->
  ~ valid_id itos i ->
  array_to_sentence EOS_TOKEN (pre ++ i :: rest) itos cut_at_eos
  = Raise (IndexError "list index out of range").
Proof.
  intros. unfold array_to_sentence. now apply array_to_sentence_from_invalid.
Qed.

Lemma array_to_sentence_index_error_witness :
  array_to_sentence "</s>" ([1; 2] ++ 3 :: [0]) ["</s>"; "a"; "b"] true
  = Raise (IndexError "list index out of range").
Proof.
  apply array_to_sentence_index_error.
  - repeat constructor; vm_compute; discriminate.
  - intros _ Hin. vm_compute in Hin.
    destruct Hin as [Heq | [Heq | []]]; discriminate.
  - unfold valid_id. vm_compute. intros [_ Hlt]. discriminate.
Defined.

Lemma arrays_to_sentences_from (EOS_TOKEN : string) (itos : list string)
      (cut_at_eos : bool) (arrays : list (list Z))
      (acc res : list (list string)) :
  for_each
    (fun sentences array =>
       (sentence <- array_to_sentence EOS_TOKEN array itos cut_at_eos ;;
        Ok (sentences ++ [sentence]))%py)
    arrays acc = Ok res
  <-> exists sentences,
      res = acc ++ sentences
      /\ Forall2 (fun array sentence =>
                    array_to_sentence EOS_TOKEN array itos cut_at_eos
                    = Ok sentence)
                 arrays sentences.
Proof.
  revert acc. induction arrays as [| array rest IH]; intro acc; simpl.
  - split.
    + intro Heq. inversion Heq; subst. exists []. split; [| constructor].
      now rewrite app_nil_r.
    + intros (ss & -> & Hall). inversion Hall; subst. now rewrite app_nil_r.
  - destruct (array_to_sentence EOS_TOKEN array itos cut_at_eos)
      as [sentence |] eqn:Ha; simpl.
    + rewrite IH. split.
      * intros (ss & -> & Hall). exists (sentence :: ss). split.
        -- now rewrite <- app_assoc.
        -- constructor; assumption.
      * intros (ss & -> & Hall). inversion Hall as [| ? s ? ss' Hs Hrest]; subst.
        rewrite Ha in Hs. inversion Hs; subst.
        exists ss'. split; [now rewrite <- app_assoc | assumption].
    + split; [discriminate |].
      intros (ss & _ & Hall). inversion Hall as [| ? s ? ss' Hs Hrest]; subst.
      rewrite Ha in Hs. discriminate.
Qed.

(** X10.  [arrays_to_sentences] returns the sentences of its arrays, one
    per array and in order, exactly when [array_to_sentence] returns on
    each of them. *)
Theorem arrays_to_sentences_pointwise
        (EOS_TOKEN : string) (itos : list string) (cut_at_eos : bool)
        (arrays : list (list Z)) (sentences : list (list string)) :
  arrays_to_sentences EOS_TOKEN arrays itos cut_at_eos = Ok sentences
  <-> Forall2 (fun array sentence =>
                 array_to_sentence EOS_TOKEN array itos cut_at_eos = Ok sentence)
              arrays sentences.
Proof.
  unfold arrays_to_sentences. rewrite arrays_to_sentences_from. simpl. split.
  - intros (ss & -> & Hall). exact Hall.
  - intro Hall. exists sentences. auto.
Qed.

(** ** BPE post-processing *)

Lemma bpe_step_other (c : ascii) (rest : string) :
  Ascii.eqb c "@"%char = false ->
  bpe_postprocess (String c rest) = String c (bpe_postprocess rest).
Proof.
  intro Hc. unfold bpe_postprocess, str_replace.
  cbn [replace_from String.prefix].
  destruct (ascii_dec "@" c) as [Heq | Hne]; [| reflexivity].
  subst c. discriminate.
Qed.

Lemma bpe_step_mark (rest : string) :
  bpe_postprocess ("@@ " ++ rest) = bpe_postprocess rest.
Proof.
  destruct rest; reflexivity.
Qed.

Lemma bpe_piece (p tail : string) :
  free_of_at p = true ->
  bpe_postprocess (p ++ tail) = (p ++ bpe_postprocess tail)%string.
Proof.
  induction p as [| c p IH]; simpl; intro Hfree; [reflexivity |].
  apply andb_prop in Hfree. destruct Hfree as [Hc Hp].
  apply negb_true_iff in Hc.
  rewrite bpe_step_other by assumption. now rewrite IH.
Qed.

Lemma str_append_nil_r (s : string) : (s ++ "")%string = s.
Proof.
  induction s as [| c s IH]; simpl; [reflexivity | now rewrite IH].
Qed.

Lemma str_append_assoc (s1 s2 s3 : string) :
  ((s1 ++ s2) ++ s3)%string = (s1 ++ (s2 ++ s3))%string.
Proof.
  induction s1 as [| c s1 IH]; simpl; [reflexivity | now rewrite IH].
Qed.

(** X11.  [bpe_postprocess] recombines the pieces of a BPE-split text:
    pieces without the character [@], each followed by the mark of a
    continued token, come out concatenated. *)
Theorem bpe_postprocess_recombines (pieces : list string) (last : string) :
  Forall (fun p => free_of_at p = true) pieces ->
  free_of_at last = true ->
  bpe_postprocess (bpe_join pieces last)
  = (fold_right String.append "" pieces ++ last)%string.
Proof.
  intros Hall Hlast.
  induction Hall as [| p rest Hp Hrest IH]; cbn [bpe_join fold_right].
  - rewrite <- (str_append_nil_r last) at 1.
    rewrite bpe_piece by assumption.
    change (bpe_postprocess "") with "". now rewrite str_append_nil_r.
  - rewrite bpe_piece by assumption. rewrite bpe_step_mark, IH.
    now rewrite str_append_assoc.
Qed.

Lemma bpe_postprocess_recombines_witness :
  bpe_postprocess (bpe_join ["th"; "e"] "re is")
  = (fold_right String.append "" ["th"; "e"] ++ "re is")%string.
Proof.
  apply bpe_postprocess_recombines.
  - repeat constructor.
  - reflexivity.
Defined.

Lemma bpe_no_occurrence (s : string) :
  occurs "@@ " s = false -> bpe_postprocess s = s.
Proof.
  unfold bpe_postprocess, str_replace.
  induction s as [| c rest IH]; intro Hocc; [reflexivity |].
  cbn [occurs] in Hocc. apply orb_false_iff in Hocc. destruct Hocc as [Hp Hrest].
  cbn [replace_from]. rewrite Hp. now rewrite IH.
Qed.

Lemma replace_from_length (old new s : string) (skip : nat) :
  new = "" ->
  (String.length (replace_from skip old new s) <= String.length s)%nat.
Proof.
  intros ->. revert skip.
  induction s as [| c rest IH]; intro skip; cbn [replace_from String.length].
  - lia.
  - destruct skip as [| k].
    + destruct (String.prefix old (String c rest));
        cbn [String.append String.length].
      * specialize (IH (String.length old - 1)%nat). lia.
      * specialize (IH 0%nat). lia.
    + specialize (IH k). lia.
Qed.

Lemma bpe_occurrence_shortens (s : string) :
  occurs "@@ " s = true ->
  (String.length (bpe_postprocess s) < String.length s)%nat.
Proof.
  unfold bpe_postprocess, str_replace.
  induction s as [| c rest IH]; intro Hocc; [discriminate |].
  cbn [occurs] in Hocc. cbn [replace_from].
  destruct (String.prefix "@@ " (String c rest)) eqn:Hp.
  - pose proof (replace_from_length "@@ " "" rest 2 eq_refl) as Hlen.
    cbn [String.append String.length]. simpl Nat.sub. lia.
  - rewrite orb_false_l in Hocc. specialize (IH Hocc).
    cbn [String.length]. lia.
Qed.

(** X12.  [bpe_postprocess] returns its argument unchanged exactly when
    the argument does not contain the mark of a continued token; otherwise
    the result is shorter. *)
Theorem bpe_postprocess_fixed_point (s : string) :
  (bpe_postprocess s = s <-> occurs "@@ " s = false)
  /\ (occurs "@@ " s = true ->
      (String.length (bpe_postprocess s) < String.length s)%nat).
Proof.
  split.
  - split.
    + intro Heq. destruct (occurs "@@ " s) eqn:Hocc; [| reflexivity].
      apply bpe_occurrence_shortens in Hocc. rewrite Heq in Hocc. lia.
    + apply bpe_no_occurrence.
  - apply bpe_occurrence_shortens.
Qed.

(** ** Checkpoints *)

Lemma max_from_spec {A : Type} (key : A -> result Z) (l : list A) :
  forall (best : A) (best_key : Z) (before after : list A),
    key best = Ok best_key ->
    (forall g, In g before -> exists t, key g = Ok t /\ t < best_key) ->
    (forall g, In g after -> exists t, key g = Ok t /\ t <= best_key) ->
    (exists mid f e post,
        l = mid ++ f :: post
        /\ (forall g, In g mid -> exists t, key g = Ok t)
        /\ key f = Raise e
        /\ max_from key best best_key l = KeyRaised e)
    \/ (exists latest t before' after',
           max_from key best best_key l = Returned latest
           /\ key latest = Ok t
           /\ before ++ best :: after ++ l = before' ++ latest :: after'
           /\ (forall g, In g before' -> exists t', key g = Ok t' /\ t' < t)
           /\ (forall g, In g after' -> exists t', key g = Ok t' /\ t' <= t)).
Proof.
  induction l as [| x rest IH]; intros best bk before after Hbest Hb Ha.
  - right. exists best, bk, before, after. rewrite app_nil_r. auto.
  - cbn [max_from]. destruct (key x) as [k | e] eqn:Hx.
    + destruct (bk <? k) eqn:Hlt.
      * apply Z.ltb_lt in Hlt.
        destruct (IH x k (before ++ best :: after) [] Hx) as [Hraise | Hret].
        { intros g Hg. apply in_app_iff in Hg.
          destruct Hg as [Hg | [<- | Hg]].
          - destruct (Hb g Hg) as (t & Ht & Hlt'). exists t. split; [exact Ht | lia].
          - exists bk. split; [exact Hbest | lia].
          - destruct (Ha g Hg) as (t & Ht & Hle). exists t. split; [exact Ht | lia]. }
        { intros g []. }
        -- left. destruct Hraise as (mid & f & e & post & -> & Hmid & Hf & Hr).
           exists (x :: mid), f, e, post. repeat split; auto.
           intros g [<- | Hg]; [eauto | auto].
        -- right. destruct Hret as (latest & t & b' & a' & Hr & Hk & Heq & Hb' & Ha').
           exists latest, t, b', a'. repeat split; auto.
           rewrite <- Heq. rewrite <- app_assoc. reflexivity.
      * apply Z.ltb_ge in Hlt.
        destruct (IH best bk before (after ++ [x]) Hbest Hb) as [Hraise | Hret].
        { intros g Hg. apply in_app_iff in Hg.
          destruct Hg as [Hg | [<- | []]]; [auto |].
          exists k. split; [exact Hx | lia]. }
        -- left. destruct Hraise as (mid & f & e & post & -> & Hmid & Hf & Hr).
           exists (x :: mid), f, e, post. repeat split; auto.
           intros g [<- | Hg]; [eauto | auto].
        -- right. destruct Hret as (latest & t & b' & a' & Hr & Hk & Heq & Hb' & Ha').
           exists latest, t, b', a'. repeat split; auto.
           rewrite <- Heq. rewrite <- app_assoc. reflexivity.
    + left. exists [], x, e, rest. repeat split; auto. intros g [].
Qed.

(** X13.  [get_latest_checkpoint] fails on a directory without checkpoint
    file, [max] raising [ValueError] on the empty list, and on a listing
    with a file that [os.path.getctime] cannot examine, with the
    exception of the first such file.  Otherwise it returns one of the
    files that [glob] lists, no listed file being more recent, and of
    several files of the latest time the one listed first. *)
Theorem get_latest_checkpoint_latest
        (glob : string -> list string) (getctime : string -> result Z)
        (ckpt_dir : string) :
  (glob (ckpt_dir ++ "/*.ckpt")%string = []
   /\ get_latest_checkpoint glob getctime ckpt_dir = ValueError)
  \/ (exists before f e after,
         glob (ckpt_dir ++ "/*.ckpt")%string = before ++ f :: after
         /\ (forall g, In g before -> exists t, getctime g = Ok t)
         /\ getctime f = Raise e
         /\ get_latest_checkpoint glob getctime ckpt_dir = KeyRaised e)
  \/ (exists latest t before after,
         get_latest_checkpoint glob getctime ckpt_dir = Returned latest
         /\ glob (ckpt_dir ++ "/*.ckpt")%string = before ++ latest :: after
         /\ getctime latest = Ok t
         /\ (forall f, In f before -> exists t', getctime f = Ok t' /\ t' < t)
         /\ (forall f, In f after -> exists t', getctime f = Ok t' /\ t' <= t)).
Proof.
  unfold get_latest_checkpoint.
  destruct (glob (ckpt_dir ++ "/*.ckpt")%string) as [| first rest].
  - left. split; reflexivity.
  - right. cbn [py_max].
    destruct (getctime first) as [k | e] eqn:Hfirst.
    + destruct (max_from_spec getctime rest first k [] [] Hfirst)
        as [Hraise | Hret]; [intros g [] | intros g [] | |].
      * left. destruct Hraise as (mid & f & e & post & -> & Hmid & Hf & Hr).
        exists (first :: mid), f, e, post. repeat split; auto.
        intros g [<- | Hg]; [eauto | auto].
      * right. destruct Hret as (latest & t & b' & a' & Hr & Hk & Heq & Hb' & Ha').
        exists latest, t, b', a'. repeat split; auto.
    + left. exists [], first, e, rest. repeat split; auto. intros g [].
Qed.

(** ** Attention plots *)

Lemma getitem_in_range {A : Type} (l : list A) (i : Z) :
  - len l <= i < len l -> exists x, getitem l i = Ok x.
Proof.
  unfold getitem, len. intro Hv.
  set (j := if i <? 0 then i + Z.of_nat (List.length l) else i).
  assert (Hj : 0 <= j < Z.of_nat (List.length l)).
  { unfold j. destruct (i <? 0) eqn:Hneg;
      [apply Z.ltb_lt in Hneg | apply Z.ltb_ge in Hneg]; lia. }
  destruct (j <? 0) eqn:Hj0; [apply Z.ltb_lt in Hj0; lia |].
  destruct (nth_error l (Z.to_nat j)) as [x |] eqn:Hn; [now exists x |].
  apply nth_error_None in Hn. lia.
Qed.

Lemma getitem_out_of_range {A : Type} (l : list A) (i : Z) :
  ~ (- len l <= i < len l) ->
  getitem l i = Raise (IndexError "list index out of range").
Proof.
  unfold getitem, len. intro Hv.
  destruct (i <? 0) eqn:Hneg;
    [apply Z.ltb_lt in Hneg | apply Z.ltb_ge in Hneg].
  - destruct (i + Z.of_nat (List.length l) <? 0) eqn:Hj; [reflexivity |].
    apply Z.ltb_ge in Hj. lia.
  - destruct (i <? 0) eqn:Hj; [apply Z.ltb_lt in Hj; lia |].
    destruct (nth_error l (Z.to_nat i)) as [x |] eqn:Hn; [| reflexivity].
    assert (Hlt : (Z.to_nat i < List.length l)%nat)
      by (apply nth_error_Some; congruence).
    lia.
Qed.

Section AttentionPlotFacts.

Context {Sample : Type}.
Variable plot_heatmap
  : ndarray Sample -> list string -> list string -> string -> bool.
Variable attentions : list (ndarray Sample).
Variables targets sources : list (list string).
Variable output_prefix : string.

Local Abbreviation plottable := (plottable attentions targets sources).

Lemma store_attention_plots_step (i : Z) (rest : list Z)
      (events : list plot_event) :
  plottable i ->
  exists event,
    plot_event_at plot_heatmap attentions targets sources output_prefix i event
    /\ store_attention_plots_from plot_heatmap events attentions targets sources
                                  output_prefix (i :: rest)
       = store_attention_plots_from plot_heatmap (events ++ [event]) attentions
                                    targets sources output_prefix rest.
Proof.
  intros (Hs & Ht & Ha).
  destruct (getitem_in_range sources i Hs) as (src & Hsrc).
  destruct (getitem_in_range targets i Ht) as (trg & Htrg).
  destruct (getitem_in_range attentions i Ha) as (att & Hatt).
  cbn [store_attention_plots_from]. rewrite Hsrc, Htrg, Hatt. cbv zeta.
  eexists. split.
  - exists src, trg, att. split; [exact Hsrc |]. split; [exact Htrg |].
    split; [exact Hatt | reflexivity].
  - cbv zeta.
    destruct (plot_heatmap (transpose att) trg src _); reflexivity.
Qed.

Lemma store_attention_plots_from_app (pre rest : list Z)
      (events : list plot_event) :
  Forall plottable pre ->
  exists new,
    store_attention_plots_from plot_heatmap events attentions targets sources
                               output_prefix (pre ++ rest)
    = store_attention_plots_from plot_heatmap (events ++ new) attentions targets
                                 sources output_prefix rest
    /\ Forall2 (plot_event_at plot_heatmap attentions targets sources
                              output_prefix)
               pre new.
Proof.
  intro Hall. revert events.
  induction Hall as [| i pre' Hi Hpre IH]; intro events.
  - exists []. split; [now rewrite app_nil_r | constructor].
  - destruct (store_attention_plots_step i (pre' ++ rest) events Hi)
      as (event & Hev & Hstep).
    destruct (IH (events ++ [event])) as (new & Heq & Hnew).
    exists (event :: new). split.
    + simpl app. rewrite Hstep, Heq. now rewrite <- app_assoc.
    + now constructor.
Qed.

End AttentionPlotFacts.

(** X14.  When every index of [idx] is accepted by the three sequences,
    [store_attention_plots] returns normally whether or not
    [plot_heatmap] raises: each index leaves, in order, either its plot
    file [output_prefix.i.pdf] or the message of the failed plot. *)
Theorem store_attention_plots_continues
        {Sample : Type}
        (plot_heatmap : ndarray Sample -> list string -> list string -> string
                        -> bool)
        (attentions : list (ndarray Sample))
        (targets sources : list (list string)) (output_prefix : string)
        (idx : list Z) :
  Forall (plottable attentions targets sources) idx ->
  exists events,
    store_attention_plots plot_heatmap attentions targets sources
                          output_prefix idx
    = (Ok tt, events)
    /\ Forall2 (plot_event_at plot_heatmap attentions targets sources
                              output_prefix)
               idx events.
Proof.
  intro Hall. unfold store_attention_plots.
  destruct (store_attention_plots_from_app plot_heatmap attentions targets
              sources output_prefix idx [] [] Hall) as (new & Heq & Hnew).
  rewrite app_nil_r in Heq. exists new. split; [| assumption].
  rewrite Heq. reflexivity.
Qed.

(** X15.  An index that one of the three sequences does not accept makes
    [store_attention_plots] raise [IndexError]: the indices before it
    have left their plot or message, the indices after it leave
    nothing. *)
Theorem store_attention_plots_index_error
        {Sample : Type}
        (plot_heatmap : ndarray Sample -> list string -> list string -> string
                        -> bool)
        (attentions : list (ndarray Sample))
        (targets sources : list (list string)) (output_prefix : string)
        (pre rest : list Z) (i : Z) :
  Forall (plottable attentions targets sources) pre ->
  ~ plottable attentions targets sources i ->
  exists events,
    store_attention_plots plot_heatmap attentions targets sources
                          output_prefix (pre ++ i :: rest)
    = (Raise (IndexError "list index out of range"), events)
    /\ Forall2 (plot_event_at plot_heatmap attentions targets sources
                              output_prefix)
               pre events.
Proof.
  intros Hall Hbad. unfold store_attention_plots.
  destruct (store_attention_plots_from_app plot_heatmap attentions targets
              sources output_prefix pre (i :: rest) [] Hall)
    as (new & Heq & Hnew).
  exists new. split; [| assumption].
  rewrite Heq. simpl app. cbn [store_attention_plots_from].
  unfold plottable in Hbad.
  destruct (Z_le_dec (- len sources) i) as [Hs1 |];
    [destruct (Z_lt_dec i (len sources)) as [Hs2 |] |].
  - destruct (getitem_in_range sources i (conj Hs1 Hs2)) as (src & ->).
    destruct (Z_le_dec (- len targets) i) as [Ht1 |];
      [destruct (Z_lt_dec i (len targets)) as [Ht2 |] |].
    + destruct (getitem_in_range targets i (conj Ht1 Ht2)) as (trg & ->).
      rewrite (getitem_out_of_range attentions i); [reflexivity |]. tauto.
    + rewrite (getitem_out_of_range targets i); [reflexivity |]. lia.
    + rewrite (getitem_out_of_range targets i); [reflexivity |]. lia.
  - rewrite (getitem_out_of_range sources i); [reflexivity |]. lia.
  - rewrite (getitem_out_of_range sources i); [reflexivity |]. lia.
Qed.

Lemma store_attention_plots_continues_witness :
  exists events,
    store_attention_plots plot_first_only plot_attentions plot_targets
                          plot_sources "att" [0; -1]
    = (Ok tt, events)
    /\ Forall2 (plot_event_at plot_first_only plot_attentions plot_targets
                              plot_sources "att")
               [0; -1] events.
Proof.
  apply store_attention_plots_continues.
  repeat constructor; vm_compute; discriminate.
Defined.

Lemma store_attention_plots_index_error_witness :
  exists events,
    store_attention_plots plot_first_only plot_attentions plot_targets
                          plot_sources "att" ([0] ++ 2 :: [1])
    = (Raise (IndexError "list index out of range"), events)
    /\ Forall2 (plot_event_at plot_first_only plot_attentions plot_targets
                              plot_sources "att")
               [0] events.
Proof.
  apply store_attention_plots_index_error.
  - repeat constructor; vm_compute; discriminate.
  - unfold plottable. vm_compute. intros [[_ Hlt] _]. discriminate.
Defined.

(** ** The mask of subsequent positions *)

Lemma nth_error_imap_from {A B : Type} (f : nat -> A -> B) (l : list A)
      (start i : nat) :
  nth_error (map (fun ix => f (fst ix) (snd ix))
                 (combine (seq start (List.length l)) l)) i
  = option_map (f (start + i)%nat) (nth_error l i).
Proof.
  revert start i. induction l as [| x rest IH]; intros start i; simpl.
  - now destruct i.
  - destruct i as [| i]; simpl.
    + now rewrite Nat.add_0_r.
    + rewrite IH. now rewrite Nat.add_succ_r.
Qed.

Lemma nth_error_imap {A B : Type} (f : nat -> A -> B) (l : list A) (i : nat) :
  nth_error (imap f l) i = option_map (f i) (nth_error l i).
Proof.
  unfold imap. now rewrite nth_error_imap_from.
Qed.

Lemma imap_length {A B : Type} (f : nat -> A -> B) (l : list A) :
  List.length (imap f l) = List.length l.
Proof.
  unfold imap. rewrite length_map, length_combine, length_seq. lia.
Qed.

Lemma nth_error_repeat_lt {A : Type} (x : A) (n i : nat) :
  (i < n)%nat -> nth_error (repeat x n) i = Some x.
Proof.
  revert i. induction n as [| n IH]; intros i Hlt; [lia |].
  destruct i as [| i]; simpl; [reflexivity | apply IH; lia].
Qed.

(** X16.  [subsequent_mask] fails on a negative size; on a size [n] that
    is not negative it returns one square mask of [n] rows and [n]
    columns in which position [i] may attend to position [j] exactly when
    [j] is not after [i]. *)
Theorem subsequent_mask_lower_triangle (size : Z) :
  (size < 0 /\ subsequent_mask size = None)
  \/ (0 <= size
      /\ exists mask,
          subsequent_mask size = Some [mask]
          /\ List.length mask = Z.to_nat size
          /\ forall i j, (i < Z.to_nat size)%nat -> (j < Z.to_nat size)%nat ->
                         exists row,
                           nth_error mask i = Some row
                           /\ List.length row = Z.to_nat size
                           /\ nth_error row j = Some (j <=? i)%nat).
Proof.
  unfold subsequent_mask.
  destruct (size <? 0) eqn:Hneg;
    [apply Z.ltb_lt in Hneg | apply Z.ltb_ge in Hneg].
  - left. auto.
  - right. split; [assumption |]. cbv zeta. simpl fst. simpl snd.
    set (n := Z.to_nat size).
    unfold np_ones, np_triu, astype_uint8, eq_zero. simpl repeat. simpl map.
    eexists. split; [reflexivity |]. split.
    + now rewrite !length_map, imap_length, repeat_length.
    + intros i j Hi Hj.
      rewrite !nth_error_map, nth_error_imap, (nth_error_repeat_lt _ n i Hi).
      simpl option_map. eexists. split; [reflexivity |]. split.
      * now rewrite !length_map, imap_length, repeat_length.
      * rewrite !nth_error_map, nth_error_imap, (nth_error_repeat_lt _ n j Hj).
        simpl option_map. f_equal.
        destruct (1 <=? Z.of_nat j - Z.of_nat i) eqn:Hk.
        -- apply Z.leb_le in Hk. change (1 mod 256 =? 0) with false.
           symmetry. apply Nat.leb_gt. lia.
        -- apply Z.leb_gt in Hk. change (0 mod 256 =? 0) with true.
           symmetry. apply Nat.leb_le. lia.
Qed.

(** ** Lines and tokens *)

Lemma lstrip_head (s : string) :
  lstrip s = "" \/ exists c rest, lstrip s = String c rest /\ isspace c = false.
Proof.
  induction s as [| c rest IH]; simpl; [now left |].
  destruct (isspace c) eqn:Hc; [exact IH |].
  right. exists c, rest. auto.
Qed.

Lemma rstrip_head (c : ascii) (rest : string) :
  isspace c = false -> exists rest', rstrip (String c rest) = String c rest'.
Proof.
  intro Hc. simpl. rewrite Hc. destruct (rstrip rest); eauto.
Qed.

Lemma strip_head (s : string) :
  strip s = "" \/ exists c rest, strip s = String c rest /\ isspace c = false.
Proof.
  unfold strip. destruct (lstrip_head s) as [-> | (c & rest & -> & Hc)].
  - now left.
  - right. destruct (rstrip_head c rest Hc) as (rest' & ->). eauto.
Qed.

Lemma split_ws_nonempty (cur s : string) : cur <> "" -> split_ws cur s <> [].
Proof.
  revert cur. induction s as [| c rest IH]; intros cur Hcur; simpl.
  - destruct cur; [congruence | discriminate].
  - destruct (isspace c).
    + destruct cur; [congruence | discriminate].
    + apply IH. discriminate.
Qed.

(** A stripped line that is not empty has a token, at either level. *)
Lemma tok_fun_nonempty (level : string) (line : string) :
  strip line <> "" -> tok_fun level (strip line) <> [].
Proof.
  intro Hne. destruct (strip_head line) as [Heq | (c & rest & Heq & Hc)];
    [congruence |].
  rewrite Heq. unfold tok_fun. destruct (String.eqb level "char").
  - discriminate.
  - unfold split. simpl. rewrite Hc. apply split_ws_nonempty. discriminate.
Qed.

Lemma preprocess_nonempty (init eos pad unk : option string) (level : string)
      (lowercase : bool) (line : string) :
  strip line <> "" ->
  preprocess (mk_Field init eos pad unk (tok_fun level) lowercase) (strip line)
  <> [].
Proof.
  intros Hne Hnil. apply (tok_fun_nonempty level line Hne).
  apply length_zero_iff_nil. apply length_zero_iff_nil in Hnil.
  now rewrite preprocess_length in Hnil.
Qed.

(** ** [MonoDataset] *)

(** X17.  A [MonoDataset] that is returned has at most one example per
    line of its file, and none of its examples has an empty source: blank
    lines are skipped. *)
Theorem MonoDataset_sources_nonempty
        {Sound Signal Sample : Type} (w : World Sound Signal Sample)
        (path ext : string) (init eos pad unk : option string) (level : string)
        (lowercase : bool) (ds : Dataset MonoExample) :
  MonoDataset w path ext (mk_Field init eos pad unk (tok_fun level) lowercase)
  = Ok ds ->
  exists text,
    read_text w (expanduser w (path ++ ext)) = Some text
    /\ (List.length (examples ds) <= List.length (file_lines text))%nat
    /\ forall e, In e (examples ds) -> mono_src e <> [].
Proof.
  unfold MonoDataset, open_read.
  destruct (read_text w (expanduser w (path ++ ext))) as [text |];
    simpl; [| discriminate].
  intro Heq. inversion Heq; subst. clear Heq. exists text.
  split; [reflexivity |]. simpl. split.
  - induction (file_lines text) as [| line rest IH]; simpl; [lia |].
    rewrite length_app.
    destruct (negb (String.eqb (strip line) "")); simpl; lia.
  - intros e Hin. apply in_flat_map in Hin. destruct Hin as (line & _ & Hin).
    destruct (String.eqb (strip line) "") eqn:Hblank; simpl in Hin;
      [contradiction |].
    destruct Hin as [<- | []]. simpl.
    apply preprocess_nonempty. now apply String.eqb_neq.
Qed.

Lemma MonoDataset_sources_nonempty_witness :
  exists text,
    read_text (corpus_world mono_files []) ("test" ++ ".src") = Some text
    /\ (List.length
          (examples (mk_Dataset [mk_MonoExample ["a"; "b"]; mk_MonoExample ["c"]]
                                ["src"]))
        <= List.length (file_lines text))%nat
    /\ forall e,
        In e (examples (mk_Dataset
                          [mk_MonoExample ["a"; "b"]; mk_MonoExample ["c"]]
                          ["src"])) ->
        mono_src e <> [].
Proof.
  apply (MonoDataset_sources_nonempty (corpus_world mono_files []) "test" ".src"
           None (Some "</s>") (Some "<pad>") (Some "<unk>") "word" false).
  vm_compute. reflexivity.
Defined.

(** ** Invariants of the loop of [AudioDataset] *)

Section LoopCases.

Context {Sound Signal Sample : Type}.
Variable module_names : list string.
Variable w : World Sound Signal Sample.
Variable field : Field.
Variable num : Z.
Variable char_level : bool.

(** An iteration that returns leaves the loop variables as they were, on
    the training split only, or records one example with its [check]. *)
Lemma loop_body_cases (train : bool) (st st' : loop_state)
      (lines : string * string) :
  loop_body module_names w field num char_level train st lines = Ok st' ->
  (train = true /\ st' = st)
  \/ exists clip,
      features_of w num (strip (snd lines)) = Some clip
      /\ st' = record_example st
                 (example_of field char_level (strip (fst lines)) clip)
                 (frame_count clip / (str_len (strip (fst lines)) + 1))
      /\ (train = true ->
          strip (fst lines) <> ""
          /\ frame_count clip / (str_len (strip (fst lines)) + 1) < 10).
Proof.
  unfold loop_body, features_of.
  destruct (lookup_global module_names "ta"); simpl; [| discriminate].
  destruct (ta_load w _) as [[sound rate] |]; simpl; [| discriminate].
  destruct (lookup_global module_names "librosa"); simpl; [| discriminate].
  destruct (librosa_load w _) as [[y sr] |]; simpl; [| discriminate].
  destruct (librosa_feature_mfcc w y sr num) as [features |]; simpl;
    [| discriminate].
  destruct (lookup_global module_names "torch"); simpl; [| discriminate].
  destruct train.
  - destruct (String.eqb (strip (fst lines)) "") eqn:Ht; simpl.
    + intro Heq. inversion Heq. left. auto.
    + destruct (negb (String.eqb (strip (snd lines)) "")); simpl.
      * destruct (getsize w _) as [size |]; simpl; [| discriminate].
        destruct (44 <? size); simpl.
        -- destruct (_ <? 10) eqn:Hcheck; intro Heq; inversion Heq.
           ++ right. eexists. split; [reflexivity |]. split; [reflexivity |].
              intros _. apply String.eqb_neq in Ht. apply Z.ltb_lt in Hcheck.
              auto.
           ++ left. auto.
        -- intro Heq. inversion Heq. left. auto.
      * intro Heq. inversion Heq. left. auto.
  - intro Heq. inversion Heq. right. eexists.
    split; [reflexivity |]. split; [reflexivity |]. discriminate.
Qed.

End LoopCases.

(** The final state of a construction that returns, and the statistics
    line that it appends. *)
Lemma AudioDataset_Ok_state
      {Sound Signal Sample : Type} (module_names : list string)
      (w : World Sound Signal Sample) (path text_ext audio_ext : string)
      (field : Field) (num : Z) (char_level train : bool)
      (filter_pred : option (@AudioExample Sound Signal Sample -> bool))
      (sc sc' : sidecar) (ds : Dataset (@AudioExample Sound Signal Sample)) :
  AudioDataset module_names w path text_ext audio_ext field num char_level train
               filter_pred sc = Ok (ds, sc') ->
  exists text audio st,
    read_text w (expanduser w (path ++ text_ext)) = Some text
    /\ read_text w (expanduser w (path ++ audio_ext)) = Some audio
    /\ len (splitlines text) = len (splitlines audio)
    /\ for_each (loop_body module_names w field num char_level train)
                (combine (file_lines text) (file_lines audio))
                (mk_loop_state [] 1 10 0 0) = Ok st
    /\ ls_count st <> 0
    /\ ds = Dataset_init (ls_examples st)
                         ["trg"; "audio"; "audio2"; "mfcc"; "src"] filter_pred
    /\ sc' = (expanduser w (path ++ "_length_statistics"),
              mk_stat_line (ls_mini st) (ls_maxi st) (ls_summa st, ls_count st))
               :: sc.
Proof.
  unfold AudioDataset, open_read.
  destruct (open_append w _); simpl; [| discriminate].
  destruct (read_text w (expanduser w (path ++ text_ext))) as [text |];
    simpl; [| discriminate].
  destruct (read_text w (expanduser w (path ++ audio_ext))) as [audio |];
    simpl; [| discriminate].
  destruct (len (splitlines text) =? len (splitlines audio)) eqn:Hlen;
    simpl; [| discriminate].
  destruct (for_each _ _ _) as [st |] eqn:Hrun; simpl; [| discriminate].
  destruct (ls_count st =? 0) eqn:Hc; simpl; [discriminate |].
  intro Heq. inversion Heq; subst.
  exists text, audio, st. apply Z.eqb_neq in Hc. apply Z.eqb_eq in Hlen.
  repeat split; auto.
Qed.

Lemma record_example_statistics {Sound Signal Sample : Type}
      (st : @loop_state Sound Signal Sample) (ex : AudioExample) (check : Z) :
  statistics_ok st -> statistics_ok (record_example st ex check).
Proof.
  unfold statistics_ok, record_example, len. simpl.
  intros (Hmini & Hmaxi & Hcount & Hlow & Hhigh).
  rewrite length_app. simpl List.length.
  assert (Hpos : 0 <= ls_count st) by lia.
  destruct (ls_maxi st <? check) eqn:Hmax;
    [apply Z.ltb_lt in Hmax | apply Z.ltb_ge in Hmax];
    (destruct (check <? ls_mini st) eqn:Hmin;
     [apply Z.ltb_lt in Hmin | apply Z.ltb_ge in Hmin]);
    repeat split; try lia; nia.
Qed.

Lemma loop_statistics {Sound Signal Sample : Type} (module_names : list string)
      (w : World Sound Signal Sample) (field : Field) (num : Z)
      (char_level train : bool) (pairs : list (string * string))
      (st : loop_state) :
  for_each (loop_body module_names w field num char_level train) pairs
           (mk_loop_state [] 1 10 0 0) = Ok st ->
  statistics_ok st.
Proof.
  apply (for_each_invariant statistics_ok).
  - intros st0 lines st1 Hinv Hbody.
    apply loop_body_cases in Hbody.
    destruct Hbody as [[_ ->] | (clip & _ & -> & _)]; [assumption |].
    now apply record_example_statistics.
  - unfold statistics_ok, len. simpl. lia.
Qed.

Lemma Dataset_init_length {E : Type} (exs : list E) (flds : list string)
      (filter_pred : option (E -> bool)) :
  (List.length (examples (Dataset_init exs flds filter_pred))
   <= List.length exs)%nat.
Proof.
  destruct filter_pred as [p |]; simpl; [apply filter_length_le | lia].
Qed.

(** X18.  A construction of an [AudioDataset] that returns appends one
    line to the statistics file of its path.  In that line [mini] is at
    most 10 and [maxi] at least 1, whatever the ratios were; the mean is
    taken over a positive count that is at least the number of examples
    of the data set; and the mean lies between [mini] and [maxi]. *)
Theorem AudioDataset_statistics_line
        {Sound Signal Sample : Type} (module_names : list string)
        (w : World Sound Signal Sample) (path text_ext audio_ext : string)
        (field : Field) (num : Z) (char_level train : bool)
        (filter_pred : option (@AudioExample Sound Signal Sample -> bool))
        (sc sc' : sidecar) (ds : Dataset (@AudioExample Sound Signal Sample)) :
  AudioDataset module_names w path text_ext audio_ext field num char_level train
               filter_pred sc = Ok (ds, sc') ->
  exists mini maxi summa count,
    sc' = (expanduser w (path ++ "_length_statistics"),
           mk_stat_line mini maxi (summa, count)) :: sc
    /\ mini <= 10 /\ 1 <= maxi /\ mini <= maxi
    /\ 0 < count /\ len (examples ds) <= count
    /\ mini * count <= summa <= maxi * count.
Proof.
  intro Hok. apply AudioDataset_Ok_state in Hok.
  destruct Hok as (text & audio & st & _ & _ & _ & Hrun & Hcount & -> & ->).
  apply loop_statistics in Hrun.
  destruct Hrun as (Hmini & Hmaxi & Hlen & Hlow & Hhigh).
  exists (ls_mini st), (ls_maxi st), (ls_summa st), (ls_count st).
  pose proof (Dataset_init_length (ls_examples st)
                ["trg"; "audio"; "audio2"; "mfcc"; "src"] filter_pred) as Hle.
  unfold len in *.
  assert (Hpos : 0 < ls_count st) by lia.
  repeat split; try lia; nia.
Qed.

Lemma AudioDataset_statistics_line_witness :
  exists mini maxi summa count,
    [("train_length_statistics", mk_stat_line 0 1 (1, 2))]
    = (expanduser (corpus_world speech_files speech_clips)
                  ("train" ++ "_length_statistics"),
       mk_stat_line mini maxi (summa, count)) :: []
    /\ mini <= 10 /\ 1 <= maxi /\ mini <= maxi
    /\ 0 < count
    /\ len (examples
              (mk_Dataset
                 (train_examples "<unk>" "<pad>" "</s>"
                    (corpus_world speech_files speech_clips)
                    (corpus_cfg "word" 10 2)
                    ("ab" ++ LF ++ "cd efg" ++ LF)
                    ("a.wav" ++ LF ++ "b.wav" ++ LF))
                 ["trg"; "audio"; "audio2"; "mfcc"; "src"])) <= count
    /\ mini * count <= summa <= maxi * count.
Proof.
  apply (AudioDataset_statistics_line Helpers.module_names
           (corpus_world speech_files speech_clips) "train" ".trg" ".txt"
           (audio_field "<unk>" "<pad>" "</s>" (corpus_cfg "word" 10 2)) 13
           false true (Some (audio_filter_pred (corpus_cfg "word" 10 2)))).
  vm_compute. reflexivity.
Defined.

(** X19.  Every example of a training split that [load_audio_data]
    constructs has a transcript of at least one and at most
    [max_sent_length] tokens, a placeholder source of at most
    [max_audio_length] tokens, and so a feature matrix of at most
    [max_audio_length + 1] frames. *)
Theorem training_examples_within_limits
        {Sound Signal Sample : Type} (UNK_TOKEN PAD_TOKEN EOS_TOKEN : string)
        (module_names : list string) (w : World Sound Signal Sample)
        (cfg : Cfg) (sc sc' : sidecar)
        (ds : Dataset (@AudioExample Sound Signal Sample)) :
  load_audio_train UNK_TOKEN PAD_TOKEN EOS_TOKEN module_names w cfg sc
  = Ok (ds, sc') ->
  forall e, In e (examples ds) ->
            a_trg e <> []
            /\ len (a_trg e) <= data_max_sent_length cfg
            /\ len (a_src e) <= data_max_audio_length cfg
            /\ shape0 (a_mfcc e) <= data_max_audio_length cfg + 1.
Proof.
  unfold load_audio_train. intros Hok e Hin.
  apply AudioDataset_Ok_state in Hok.
  destruct Hok as (text & audio & st & _ & _ & _ & Hrun & _ & -> & _).
  simpl in Hin. apply filter_In in Hin. destruct Hin as [Hin Hpred].
  assert (Hall : Forall (fun e => a_trg e <> [] /\ placeholder_ok e)
                        (ls_examples st)).
  { eapply (for_each_invariant
              (fun st => Forall (fun e => a_trg e <> [] /\ placeholder_ok e)
                                (ls_examples st))); [| | exact Hrun].
    - intros st0 lines st1 Hinv Hbody.
      apply loop_body_cases in Hbody.
      destruct Hbody as [[_ ->] | (clip & _ & -> & Htrain)]; [assumption |].
      simpl. apply Forall_app. split; [assumption |].
      constructor; [| constructor].
      destruct (Htrain eq_refl) as [Hne _]. split.
      + simpl. unfold audio_field. now apply preprocess_nonempty.
      + unfold placeholder_ok, example_of, frame_count. simpl.
        now apply audio_dummy_length.
    - constructor. }
  rewrite Forall_forall in Hall. destruct (Hall e Hin) as [Hne Hph].
  unfold audio_filter_pred in Hpred. apply andb_prop in Hpred.
  destruct Hpred as [Hsrc Htrg]. apply Z.leb_le in Hsrc, Htrg.
  unfold placeholder_ok in Hph. unfold len in *.
  repeat split; try assumption. lia.
Qed.

Lemma training_examples_within_limits_witness :
  a_trg (example_of (audio_field "<unk>" "<pad>" "</s>" (corpus_cfg "word" 10 2))
                    false "ab"
                    (tt, 3%nat, transpose (mk_ndarray 13 3 (fun _ _ => 0))))
  <> []
  /\ len (a_trg (example_of
                   (audio_field "<unk>" "<pad>" "</s>" (corpus_cfg "word" 10 2))
                   false "ab"
                   (tt, 3%nat, transpose (mk_ndarray 13 3 (fun _ _ => 0)))))
     <= data_max_sent_length (corpus_cfg "word" 10 2)
  /\ len (a_src (example_of
                   (audio_field "<unk>" "<pad>" "</s>" (corpus_cfg "word" 10 2))
                   false "ab"
                   (tt, 3%nat, transpose (mk_ndarray 13 3 (fun _ _ => 0)))))
     <= data_max_audio_length (corpus_cfg "word" 10 2)
  /\ shape0 (a_mfcc (example_of
                       (audio_field "<unk>" "<pad>" "</s>" (corpus_cfg "word" 10 2))
                       false "ab"
                       (tt, 3%nat, transpose (mk_ndarray 13 3 (fun _ _ => 0)))))
     <= data_max_audio_length (corpus_cfg "word" 10 2) + 1.
Proof.
  apply (training_examples_within_limits "<unk>" "<pad>" "</s>"
           Helpers.module_names (corpus_world speech_files speech_clips)
           (corpus_cfg "word" 10 2) []
           [("train_length_statistics", mk_stat_line 0 1 (1, 2))]
           (mk_Dataset
              (train_examples "<unk>" "<pad>" "</s>"
                 (corpus_world speech_files speech_clips)
                 (corpus_cfg "word" 10 2)
                 ("ab" ++ LF ++ "cd efg" ++ LF)
                 ("a.wav" ++ LF ++ "b.wav" ++ LF))
              ["trg"; "audio"; "audio2"; "mfcc"; "src"])).
  - vm_compute. reflexivity.
  - vm_compute. left. reflexivity.
Defined.

(** ** Line counts *)

Lemma line_counts_agree (s : string) :
  lf_only s = true ->
  forall cur,
    List.length (splitlines_from cur s) = List.length (file_lines_from cur s).
Proof.
  induction s as [| c rest IH]; intros Hlf cur; [reflexivity |].
  cbn [lf_only] in Hlf. apply andb_prop in Hlf. destruct Hlf as [Hc Hrest].
  cbn [splitlines_from file_lines_from].
  destruct (Ascii.eqb c "010"%char) eqn:Hlf.
  - apply Ascii.eqb_eq in Hlf. subst c.
    change (is_linebreak "010"%char) with true. cbv iota.
    change (Ascii.eqb "010"%char "013"%char) with false.
    cbn [andb List.length]. f_equal.
    rewrite <- (IH Hrest ""). now destruct rest.
  - rewrite orb_false_r in Hc. apply negb_true_iff in Hc. rewrite Hc.
    apply IH. assumption.
Qed.

Lemma line_counts_lf_only (s : string) :
  lf_only s = true -> len (splitlines s) = len (file_lines s).
Proof.
  intro Hlf. unfold len, splitlines, file_lines.
  now rewrite (line_counts_agree s Hlf "").
Qed.

Lemma for_each_raise_inv {A S : Type} (body : S -> A -> result S)
      (xs : list A) (st : S) (e : exn) :
  for_each body xs st = Raise e ->
  exists x st0, In x xs /\ body st0 x = Raise e.
Proof.
  revert st. induction xs as [| x rest IH]; intro st; simpl; [discriminate |].
  destruct (body st x) as [st1 |] eqn:Hb.
  - intro Hrun. destruct (IH st1 Hrun) as (y & st0 & Hy & Hraise).
    exists y, st0. auto.
  - intro Heq. inversion Heq; subst. exists x, st. auto.
Qed.

Lemma lookup_global_raises (module_names : list string) (name : string)
      (e : exn) :
  lookup_global module_names name = Raise e -> e = NameError name.
Proof.
  unfold lookup_global. destruct (existsb _ _); [discriminate |].
  intro Heq. now inversion Heq.
Qed.

Lemma external_raises {A : Type} (callee arg : string) (r : option A) (e : exn) :
  external callee arg r = Raise e -> e = ExternalError callee arg.
Proof.
  destruct r; simpl; [discriminate |]. intro Heq. now inversion Heq.
Qed.

Lemma loop_body_raises {Sound Signal Sample : Type} (module_names : list string)
      (w : World Sound Signal Sample) (field : Field) (num : Z)
      (char_level train : bool) (st : loop_state) (lines : string * string)
      (e : exn) :
  loop_body module_names w field num char_level train st lines = Raise e ->
  (exists name, e = NameError name)
  \/ (exists callee arg, e = ExternalError callee arg).
Proof.
  unfold loop_body.
  destruct (lookup_global module_names "ta") eqn:H1; simpl;
    [| intro Heq; inversion Heq; subst; apply lookup_global_raises in H1; eauto].
  destruct (external "ta.load" _ _) as [[sound rate] |] eqn:H2; simpl;
    [| intro Heq; inversion Heq; subst; apply external_raises in H2; eauto].
  destruct (lookup_global module_names "librosa") eqn:H3; simpl;
    [| intro Heq; inversion Heq; subst; apply lookup_global_raises in H3; eauto].
  destruct (external "librosa.load" _ _) as [[y sr] |] eqn:H4; simpl;
    [| intro Heq; inversion Heq; subst; apply external_raises in H4; eauto].
  destruct (external "librosa.feature.mfcc" _ _) as [features |] eqn:H5; simpl;
    [| intro Heq; inversion Heq; subst; apply external_raises in H5; eauto].
  destruct (lookup_global module_names "torch") eqn:H6; simpl;
    [| intro Heq; inversion Heq; subst; apply lookup_global_raises in H6; eauto].
  destruct train; [| discriminate].
  destruct (negb _ && negb _); [| discriminate].
  destruct (external "os.path.getsize" _ _) as [size |] eqn:H7; simpl;
    [| intro Heq; inversion Heq; subst; apply external_raises in H7; eauto].
  destruct ((44 <? size) && _); discriminate.
Qed.





(** X20.  On two files whose only line boundaries are line feeds, the
    construction of an [AudioDataset] raises the alignment error exactly
    when the files differ in their number of lines. *)
Theorem alignment_check_exact
        {Sound Signal Sample : Type} (module_names : list string)
        (w : World Sound Signal Sample) (path text_ext audio_ext : string)
        (field : Field) (num : Z) (char_level train : bool)
        (filter_pred : option (@AudioExample Sound Signal Sample -> bool))
        (sc : sidecar) (text audio : string) :
  open_append w (expanduser w (path ++ "_length_statistics")) = true ->
  read_text w (expanduser w (path ++ text_ext)) = Some text ->
  read_text w (expanduser w (path ++ audio_ext)) = Some audio ->
  lf_only text = true -> lf_only audio = true ->
  AudioDataset module_names w path text_ext audio_ext field num char_level train
               filter_pred sc
  = Raise (IndexError "The size of the text and audio dataset differs.")
  <-> List.length (file_lines text) <> List.length (file_lines audio).
Proof.
  intros Hlog Htext Haudio Hlt Hla.
  pose proof (line_counts_lf_only text Hlt) as Ht.
  pose proof (line_counts_lf_only audio Hla) as Ha.
  destruct (Z.eq_dec (len (splitlines text)) (len (splitlines audio)))
    as [Heq | Hne].
  - split.
    + rewrite (AudioDataset_aligned _ _ _ _ _ _ _ _ _ _ _ text audio
                 Hlog Htext Haudio Heq).
      destruct (for_each _ _ _) as [st |] eqn:Hrun; simpl.
      * destruct (ls_count st =? 0); simpl; discriminate.
      * intro Hraise. inversion Hraise; subst.
        apply for_each_raise_inv in Hrun.
        destruct Hrun as (lines & st0 & _ & Hbody).
        apply loop_body_raises in Hbody.
        destruct Hbody as [(name & Hn) | (callee & arg & Hx)]; discriminate.
    + intro Hdiff. exfalso. apply Hdiff. unfold len in *. lia.
  - split.
    + intros _. unfold len in *. lia.
    + intros _.
      now apply (AudioDataset_mismatch module_names w path text_ext audio_ext
                   field num char_level train filter_pred sc text audio).
Qed.

Lemma alignment_check_exact_witness :
  Helpers.load_audio_train "<unk>" "<pad>" "</s>"
    (corpus_world misaligned_files speech_clips) (corpus_cfg "word" 10 10) []
  = Raise (IndexError "The size of the text and audio dataset differs.")
  <-> List.length (file_lines ("ab" ++ LF ++ "cd efg" ++ LF))
      <> List.length (file_lines ("a.wav" ++ LF)).
Proof.
  unfold Helpers.load_audio_train, load_audio_train.
  apply alignment_check_exact; reflexivity.
Defined.

(** ** [MonoAudioDataset] *)

Lemma file_lines_from_nil (s cur : string) :
  file_lines_from cur s = [] -> cur = "" /\ s = "".
Proof.
  revert cur. induction s as [| c rest IH]; intros cur; simpl.
  - destruct cur; [auto | discriminate].
  - destruct (Ascii.eqb c "010"%char); [discriminate |].
    intro Hnil. apply IH in Hnil. destruct Hnil; discriminate.
Qed.

(** X21.  [MonoAudioDataset] of [data.py] returns on an empty list of
    audio references only, with an empty data set; on any other list it
    raises the [NameError] of the unbound name [ta]. *)
Theorem data_MonoAudioDataset_only_empty
        {Sound Signal Sample : Type} (w : World Sound Signal Sample)
        (path audio_ext audio : string) :
  read_text w (expanduser w (path ++ audio_ext)) = Some audio ->
  Data.MonoAudioDataset w path audio_ext
  = if String.eqb audio "" then Ok (mk_Dataset [] ["src"])
    else Raise (NameError "ta").
Proof.
  intro Hread. unfold Data.MonoAudioDataset, MonoAudioDataset, open_read.
  rewrite Hread. simpl.
  destruct (String.eqb audio "") eqn:Hempty.
  - apply String.eqb_eq in Hempty. subst audio. reflexivity.
  - apply String.eqb_neq in Hempty.
    destruct (file_lines audio) as [| line rest] eqn:Hlines.
    + apply file_lines_from_nil in Hlines. tauto.
    + reflexivity.
Qed.

Lemma data_MonoAudioDataset_only_empty_witness :
  Data.MonoAudioDataset (corpus_world speech_files speech_clips) "train" ".txt"
  = if String.eqb ("a.wav" ++ LF ++ "b.wav" ++ LF) ""
    then Ok (mk_Dataset [] ["src"])
    else Raise (NameError "ta").
Proof.
  apply data_MonoAudioDataset_only_empty. reflexivity.
Defined.

(** ** Blank audio references *)

Lemma for_each_fails {A S : Type} (body : S -> A -> result S) (xs : list A)
      (x : A) :
  In x xs -> (forall st, is_ok (body st x) = false) ->
  forall st, is_ok (for_each body xs st) = false.
Proof.
  intros Hin Hfail. induction xs as [| y rest IH]; [contradiction |].
  intro st. simpl. destruct Hin as [-> | Hin].
  - specialize (Hfail st). destruct (body st x); [discriminate | reflexivity].
  - destruct (body st y); [now apply IH | reflexivity].
Qed.

(** X22.  A blank line in the list of audio references is not skipped: the
    audio file is loaded before the line is tested, so when [ta.load]
    fails on the empty path the construction of the [AudioDataset] fails,
    on every split and in both modules. *)
Theorem AudioDataset_blank_reference
        {Sound Signal Sample : Type} (module_names : list string)
        (w : World Sound Signal Sample) (path text_ext audio_ext : string)
        (field : Field) (num : Z) (char_level train : bool)
        (filter_pred : option (@AudioExample Sound Signal Sample -> bool))
        (sc : sidecar) (text audio : string) :
  read_text w (expanduser w (path ++ text_ext)) = Some text ->
  read_text w (expanduser w (path ++ audio_ext)) = Some audio ->
  ta_load w "" = None ->
  (exists lines, In lines (line_pairs text audio) /\ snd lines = "") ->
  is_ok (AudioDataset module_names w path text_ext audio_ext field num
                      char_level train filter_pred sc) = false.
Proof.
  intros Htext Haudio Hload (lines & Hin & Hblank).
  unfold AudioDataset, open_read. rewrite Htext, Haudio.
  destruct (open_append w _); simpl; [| reflexivity].
  destruct (negb _); [reflexivity |]. simpl.
  unfold line_pairs in Hin. apply in_map_iff in Hin.
  destruct Hin as (raw & <- & Hraw). simpl in Hblank.
  assert (Hfail : is_ok (for_each (loop_body module_names w field num
                                             char_level train)
                                  (combine (file_lines text) (file_lines audio))
                                  (mk_loop_state [] 1 10 0 0)) = false).
  { apply (for_each_fails _ _ raw Hraw). intro st. unfold loop_body.
    destruct (lookup_global module_names "ta"); simpl; [| reflexivity].
    rewrite Hblank, Hload. reflexivity. }
  destruct (for_each _ _ _); [discriminate | reflexivity].
Qed.

Lemma AudioDataset_blank_reference_witness :
  is_ok (Helpers.load_audio_eval "<unk>" "<pad>" "</s>"
           (corpus_world blank_reference_files speech_clips) "dev"
           (corpus_cfg "word" 10 10) []) = false.
Proof.
  unfold Helpers.load_audio_eval, load_audio_eval.
  apply AudioDataset_blank_reference
    with (text := ("ab" ++ LF ++ "cd" ++ LF)%string)
         (audio := ("a.wav" ++ LF ++ LF)%string).
  - reflexivity.
  - reflexivity.
  - reflexivity.
  - exists ("cd", ""). split; [vm_compute; auto | reflexivity].
Defined.

(** ** [load_data] *)

Lemma build_vocab_kw_call
      (UNK_TOKEN PAD_TOKEN BOS_TOKEN EOS_TOKEN : string)
      {E : Type} `{Bitext E} {V : Type} `{VocabularyClass V}
      (field : string) (min_freq max_size : Z) (dataset : Dataset E)
      (vocab_file : option string) :
  build_vocab_kw UNK_TOKEN PAD_TOKEN BOS_TOKEN EOS_TOKEN
    [("field", PStr field); ("min_freq", PInt min_freq);
     ("max_size", PInt max_size); ("dataset", PData dataset);
     ("vocab_file", opt_arg vocab_file)]
  = build_vocab UNK_TOKEN PAD_TOKEN BOS_TOKEN EOS_TOKEN
                field max_size min_freq (examples dataset) vocab_file.
Proof.
  unfold build_vocab_kw. destruct vocab_file; reflexivity.
Qed.

Lemma firstn_incl_NoDup (n : nat) (l : list string) :
  NoDup l -> NoDup (firstn n l) /\ incl (firstn n l) l.
Proof.
  intro Hnd. rewrite <- (firstn_skipn n l) in Hnd at 1. split.
  - now apply NoDup_app_remove_r in Hnd.
  - intros t Ht. rewrite <- (firstn_skipn n l). apply in_or_app. now left.
Qed.

(** Without a vocabulary file, the vocabulary that [build_vocab] returns
    is made from the tokens of the data. *)
Lemma build_vocab_from_data
      (UNK_TOKEN PAD_TOKEN BOS_TOKEN EOS_TOKEN : string)
      {E : Type} `{Bitext E} {V : Type} `{VocabularyClass V}
      (field : string) (max_size min_freq : Z) (examples : list E) (vocab : V) :
  build_vocab UNK_TOKEN PAD_TOKEN BOS_TOKEN EOS_TOKEN
              field max_size min_freq examples None = Ok vocab ->
  vocabulary_from UNK_TOKEN PAD_TOKEN BOS_TOKEN EOS_TOKEN max_size min_freq
                  (field_tokens field examples) vocab.
Proof.
  unfold build_vocab.
  destruct (Z_lt_le_dec max_size 0) as [Hneg | Hpos].
  - rewrite build_vocab_tokens_negative_size by exact Hneg. discriminate.
  - rewrite build_vocab_tokens_value by exact Hpos. cbn [bind].
    set (tokens := field_tokens field examples).
    destruct (Vocabulary_of_tokens _) as [v |] eqn:Hv; cbn [bind]; [| discriminate].
    destruct (for_each _ _ _) as [[] |]; cbn [bind]; [| discriminate].
    intros [= <-].
    destruct (ranking_spec min_freq tokens) as (Hnd & Hin & _).
    destruct (@firstn_incl_NoDup (Z.to_nat max_size) _ Hnd) as [Hnd' Hincl].
    exists (firstn (Z.to_nat max_size) (ranking min_freq tokens)).
    split; [exact Hv |]. split; [exact Hnd' |]. split.
    + unfold len. rewrite length_firstn. lia.
    + intros t Ht. apply Hin, Hincl, Ht.
Qed.

(** The training split of [load_data] holds pairs within the maximum
    sentence length only. *)
Lemma load_train_within {Sound Signal Sample : Type}
      (UNK_TOKEN PAD_TOKEN BOS_TOKEN EOS_TOKEN : string)
      (w : World Sound Signal Sample) (cfg : Cfg) (train_data : Dataset Example) :
  load_train UNK_TOKEN PAD_TOKEN BOS_TOKEN EOS_TOKEN w cfg = Ok train_data ->
  forall e, In e (examples train_data) ->
            len (src e) <= data_max_sent_length cfg
            /\ len (trg e) <= data_max_sent_length cfg.
Proof.
  unfold load_train, TranslationDataset.
  destruct (open_read w _) as [src_file |]; cbn [bind]; [| discriminate].
  destruct (open_read w _) as [trg_file |]; cbn [bind]; [| discriminate].
  intros [= <-] e He. cbn [Dataset_init examples] in He.
  apply filter_In in He. destruct He as [_ He].
  unfold text_filter_pred in He. apply andb_prop in He.
  destruct He as [Hs Ht]. apply Z.leb_le in Hs. apply Z.leb_le in Ht. auto.
Qed.

(** X23.  When [load_data] of [helpers.py] returns, every pair of its
    training split is within [max_sent_length] on both sides, and a
    vocabulary for which no file is configured is made from that split
    alone: the four reserved tokens, then at most [voc_limit] different
    tokens ([sys.maxsize] when it is not configured), each of them a
    token of that side of the training pairs that occurs there at least
    [voc_min_freq] times (once when it is not configured).  A token that
    occurs only in pairs dropped for their length, or only in the other
    splits, is in no vocabulary. *)
Theorem load_data_vocabulary_from_training
        {Sound Signal Sample : Type}
        (UNK_TOKEN PAD_TOKEN BOS_TOKEN EOS_TOKEN : string)
        {V : Type} `{VocabularyClass V}
        (w : World Sound Signal Sample) (cfg : Cfg)
        (train_data dev_data : Dataset Example)
        (test_data : option (Dataset Example + Dataset MonoExample))
        (src_vocab trg_vocab : V) :
  Helpers.load_data UNK_TOKEN PAD_TOKEN BOS_TOKEN EOS_TOKEN w cfg
  = Ok (train_data, dev_data, test_data, src_vocab, trg_vocab) ->
  (forall e, In e (examples train_data) ->
             len (src e) <= data_max_sent_length cfg
             /\ len (trg e) <= data_max_sent_length cfg)
  /\ (data_get cfg "src_vocab" = None ->
      vocabulary_from UNK_TOKEN PAD_TOKEN BOS_TOKEN EOS_TOKEN
        (match data_voc_limit cfg with Some n => n | None => sys_maxsize end)
        (match data_voc_min_freq cfg with Some n => n | None => 1 end)
        (flat_map src (examples train_data)) src_vocab)
  /\ (data_get cfg "trg_vocab" = None ->
      vocabulary_from UNK_TOKEN PAD_TOKEN BOS_TOKEN EOS_TOKEN
        (match data_voc_limit cfg with Some n => n | None => sys_maxsize end)
        (match data_voc_min_freq cfg with Some n => n | None => 1 end)
        (flat_map trg (examples train_data)) trg_vocab).
Proof.
  unfold Helpers.load_data, load_data.
  destruct (load_train _ _ _ _ w cfg) as [tr |] eqn:Htrain; [| discriminate].
  cbn [bind]. rewrite !build_vocab_kw_call.
  destruct (build_vocab _ _ _ _ "src" _ _ _ _) as [sv |] eqn:Hsv;
    [| discriminate].
  cbn [bind].
  destruct (build_vocab _ _ _ _ "trg" _ _ _ _) as [tv |] eqn:Htv;
    [| discriminate].
  cbn [bind].
  destruct (load_dev _ _ _ _ w cfg) as [dv |]; [| discriminate]. cbn [bind].
  destruct (load_test _ _ _ _ w cfg) as [te |]; [| discriminate]. cbn [bind].
  intro Heq. inversion Heq; subst. split; [| split].
  - exact (@load_train_within _ _ _ _ _ _ _ _ _ _ Htrain).
  - intro Hfile. rewrite Hfile in Hsv.
    apply (@build_vocab_from_data _ _ _ _ _ _ _ _ "src" _ _ _ _ Hsv).
  - intro Hfile. rewrite Hfile in Htv.
    apply (@build_vocab_from_data _ _ _ _ _ _ _ _ "trg" _ _ _ _ Htv).
Qed.

Lemma load_data_vocabulary_from_training_witness :
  (forall e, In e [mk_Example ["c"] ["z"]] ->
             len (src e) <= 1 /\ len (trg e) <= 1)
  /\ (data_get (limited_cfg 1 10) "src_vocab" = None ->
      vocabulary_from "<unk>" "<pad>" "<s>" "</s>" 10 1
        (flat_map src [mk_Example ["c"] ["z"]])
        ["<unk>"; "<pad>"; "<s>"; "</s>"; "c"])
  /\ (data_get (limited_cfg 1 10) "trg_vocab" = None ->
      vocabulary_from "<unk>" "<pad>" "<s>" "</s>" 10 1
        (flat_map trg [mk_Example ["c"] ["z"]])
        ["<unk>"; "<pad>"; "<s>"; "</s>"; "z"]).
Proof.
  apply (load_data_vocabulary_from_training "<unk>" "<pad>" "<s>" "</s>"
           (corpus_world text_corpus []) (limited_cfg 1 10)
           (mk_Dataset [mk_Example ["c"] ["z"]] ["src"; "trg"])
           (mk_Dataset [mk_Example ["a"; "b"] ["x"; "y"]; mk_Example ["c"] ["z"]]
                       ["src"; "trg"])
           None).
  vm_compute. reflexivity.
Defined.

(** ** Logging the configuration *)

Lemma cfg_value_induction (P : cfg_value -> Prop) :
  (forall rendered, P (CfgLeaf rendered)) ->
  (forall items, Forall (fun kv => P (snd kv)) items -> P (CfgDict items)) ->
  forall v, P v.
Proof.
  intros Hleaf Hdict. fix IH 1. intros [rendered | items].
  - apply Hleaf.
  - apply Hdict. induction items as [| [k v] rest IHrest]; constructor.
    + apply IH.
    + apply IHrest.
Qed.

Lemma log_cfg_dict (prefix k : string) (items : list (string * cfg_value)) :
  log_cfg_item prefix k (CfgDict items)
  = log_cfg items (prefix ++ "." ++ k).
Proof.
  unfold log_cfg. simpl.
  induction items as [| [k' v'] rest IH]; [reflexivity |].
  simpl. now rewrite IH.
Qed.

Lemma str_prefix_append (p s : string) : String.prefix p (p ++ s) = true.
Proof.
  induction p as [| c p IH]; simpl.
  - now destruct s.
  - destruct (ascii_dec c c); [assumption | congruence].
Qed.

Lemma str_prefix_weaken (a b line : string) :
  String.prefix (a ++ b) line = true -> String.prefix a line = true.
Proof.
  revert line. induction a as [| c a IH]; intros line.
  - intros _. now destruct line.
  - destruct line as [| c' line]; simpl; [discriminate |].
    destruct (ascii_dec c c'); [apply IH | discriminate].
Qed.

Lemma log_cfg_item_lines (v : cfg_value) :
  forall prefix k,
    List.length (log_cfg_item prefix k v) = cfg_leaves v
    /\ Forall (fun line => String.prefix (prefix ++ ".") line = true)
              (log_cfg_item prefix k v).
Proof.
  induction v as [rendered | items IH] using cfg_value_induction;
    intros prefix k.
  - split; [reflexivity |]. constructor; [| constructor].
    cbn [log_cfg_item]. unfold ljust34.
    set (pad := repeat_nat " " _).
    replace (((prefix ++ "." ++ k) ++ pad) ++ " : " ++ rendered)%string
      with ((prefix ++ ".") ++ (k ++ pad ++ " : " ++ rendered))%string
      by (now rewrite !str_append_assoc).
    apply str_prefix_append.
  - rewrite log_cfg_dict. unfold log_cfg.
    induction IH as [| [k' v'] rest Hv Hrest IHrest]; [split; constructor |].
    destruct IHrest as [Hlen Hall].
    destruct (Hv (prefix ++ "." ++ k)%string k') as [Hlen' Hall'].
    cbn [snd] in Hlen', Hall'. cbn [flat_map fst snd]. split.
    + rewrite length_app, Hlen', Hlen. reflexivity.
    + apply Forall_app. split; [| exact Hall].
      eapply Forall_impl; [| exact Hall']. intros line Hline.
      apply (str_prefix_weaken _ (k ++ ".")).
      now rewrite !str_append_assoc in *.
Qed.

(** X24.  [log_cfg] gives the logger one line for every value of the
    configuration that is not a dictionary, nested ones included, and
    none for a dictionary without such a value; every line starts with
    the prefix and a dot. *)
Theorem log_cfg_lines (cfg : list (string * cfg_value)) (prefix : string) :
  List.length (log_cfg cfg prefix) = cfg_leaves (CfgDict cfg)
  /\ Forall (fun line => String.prefix (prefix ++ ".") line = true)
            (log_cfg cfg prefix).
Proof.
  unfold log_cfg. induction cfg as [| [k v] rest IH]; [split; constructor |].
  destruct IH as [Hlen Hall].
  destruct (log_cfg_item_lines v prefix k) as [Hlen' Hall'].
  cbn [flat_map fst snd]. split.
  - rewrite length_app, Hlen', Hlen. reflexivity.
  - apply Forall_app. auto.
Qed.

(** *** Tiling *)

Lemma ravel_lt (shape idx : list nat) :
  within idx shape -> (ravel shape idx < numel shape)%nat.
Proof.
  intros H. induction H as [|i d idx shape Hi _ IH]; cbn [ravel numel fold_right].
  - lia.
  - fold (numel shape). nia.
Qed.

Lemma unravel_ravel (shape idx : list nat) :
  within idx shape -> unravel shape (ravel shape idx) = idx.
Proof.
  intros H. induction H as [|i d idx shape Hi Hrest IH]; cbn [ravel unravel].
  - reflexivity.
  - pose proof (@ravel_lt _ _ Hrest) as Hlt.
    assert (Hk : numel shape <> 0%nat) by lia.
    rewrite Nat.div_add_l by exact Hk.
    rewrite (Nat.div_small _ _ Hlt), Nat.add_0_r.
    rewrite Nat.add_comm, Nat.Div0.mod_add, (Nat.mod_small _ _ Hlt).
    now rewrite IH.
Qed.

Lemma tile_offsets (b c k r : nat) :
  (r < k)%nat -> (0 < c)%nat ->
  let f := (b * k + r)%nat in
  ((f / (c * k * 1)) * (k * 1) + (((f mod (c * k * 1)) / 1) mod k * 1 + 0)
   = (b / c) * k + r)%nat.
Proof.
  intros Hr Hc f. subst f.
  rewrite !Nat.mul_1_r, Nat.add_0_r, Nat.div_1_r.
  assert (Hk : k <> 0%nat) by lia.
  assert (Hq : ((b * k + r) / k = b)%nat).
  { rewrite Nat.div_add_l by exact Hk. rewrite (Nat.div_small _ _ Hr). lia. }
  assert (Hm : ((b * k + r) mod k = r)%nat).
  { rewrite Nat.add_comm, Nat.Div0.mod_add. now apply Nat.mod_small. }
  rewrite (Nat.mul_comm c k).
  rewrite <- Nat.Div0.div_div, Hq.
  rewrite Nat.Div0.mod_mul_r, Hq, Hm.
  rewrite (Nat.mul_comm k), Nat.Div0.mod_add, (Nat.mod_small _ _ Hr).
  reflexivity.
Qed.

Lemma numel_rows (batch : nat) (rest : list nat) :
  (0 < batch)%nat ->
  (numel (batch :: rest) mod batch = 0 /\
   numel (batch :: rest) / batch = numel rest)%nat.
Proof.
  intros Hb. cbn [numel fold_right]. fold (numel rest).
  rewrite Nat.mul_comm. split.
  - apply Nat.Div0.mod_mul.
  - apply Nat.div_mul. lia.
Qed.

Lemma list_index_first (n : nat) : list_index (S n) 0 = Ok 0%nat.
Proof.
  unfold list_index. change (0 <? 0) with false. cbv iota.
  change (0 <? 0) with false. cbn [orb].
  destruct (Z.of_nat (S n) <=? 0) eqn:Hn; [apply Z.leb_le in Hn; lia|].
  reflexivity.
Qed.

(** The tiling of the first dimension. *)
Lemma tile_tensor_rows (L A : Type) (T : Torch L) (x : tensor L A) (count : Z)
    (batch : nat) (rest : list nat) :
  t_shape x = batch :: rest ->
  (0 < batch)%nat ->
  0 <= count ->
  can_view T x [batch; numel rest] = true ->
  exists y,
    tile_tensor T x count 0 = Ok y
    /\ t_shape y = (batch * Z.to_nat count)%nat :: rest
    /\ t_layout y = Contiguous
    /\ forall b idx,
         (b < batch * Z.to_nat count)%nat -> within idx rest ->
         t_at y (b :: idx) = t_at x ((b / Z.to_nat count)%nat :: idx).
Proof.
  intros Hshape Hbatch Hcount Hview.
  destruct (@numel_rows batch rest Hbatch) as [Hmod Hdiv].
  unfold tile_tensor.
  change (negb (0 =? 0)) with false. cbv iota.
  unfold bind at 1.
  rewrite Hshape. cbn [List.length nth].
  rewrite list_index_first.
  cbn [bind nth set_item].
  unfold view_rows. rewrite Hshape.
  assert (Hb0 : Nat.eqb batch 0 = false) by (apply Nat.eqb_neq; lia).
  rewrite Hb0, Hmod, Hdiv. cbn [Nat.eqb negb orb].
  unfold view at 1. rewrite Hshape, Hview.
  assert (Hn1 : Nat.eqb (numel (batch :: rest)) (numel [batch; numel rest]) = true).
  { apply Nat.eqb_eq. cbn [numel fold_right]. fold (numel rest). lia. }
  rewrite Hn1. cbn [negb bind].
  unfold repeat_rows.
  assert (Hc0 : (count <? 0) = false) by (apply Z.ltb_ge; lia).
  rewrite Hc0. cbn [bind transpose01 t_shape nth].
  unfold view. cbn [contiguous transpose01 t_shape t_layout can_view nth].
  assert (Hn2 : Nat.eqb (numel [batch; (Z.to_nat count * numel rest)%nat])
                        (numel ((batch * Z.to_nat count)%nat :: rest)) = true).
  { apply Nat.eqb_eq. cbn [numel fold_right]. fold (numel rest). lia. }
  rewrite Hn2. cbn [negb bind].
  eexists. split; [reflexivity|]. cbn [t_shape t_at t_layout].
  split; [reflexivity|]. split; [reflexivity|].
  intros b idx Hb Hidx.
  pose proof (@ravel_lt _ _ Hidx) as Hr.
  assert (Hc : (0 < Z.to_nat count)%nat) by nia.
  cbn [contiguous transpose01 t_at t_shape nth ravel unravel numel fold_right].
  fold (numel rest).
  rewrite (@tile_offsets b (Z.to_nat count) (numel rest) _ Hr Hc).
  assert (Hk : numel rest <> 0%nat) by lia.
  rewrite Nat.div_add_l by exact Hk.
  rewrite (Nat.div_small _ _ Hr), Nat.add_0_r.
  rewrite Nat.add_comm, Nat.Div0.mod_add, (Nat.mod_small _ _ Hr).
  now rewrite (@unravel_ravel _ _ Hidx).
Qed.

Lemma set_item_length (l : list nat) (k v : nat) :
  List.length (set_item l k v) = List.length l.
Proof.
  revert k. induction l as [|a l IH]; intros [|k]; cbn [set_item List.length];
    try reflexivity.
  now rewrite IH.
Qed.

Lemma nth_set_item (l : list nat) (k v i : nat) :
  (k < List.length l)%nat ->
  nth i (set_item l k v) 0%nat = if Nat.eqb i k then v else nth i l 0%nat.
Proof.
  revert k i. induction l as [|a l IH]; intros k i Hk; cbn [List.length] in Hk.
  - lia.
  - destruct k as [|k], i as [|i]; cbn [set_item nth Nat.eqb]; try reflexivity.
    apply IH. lia.
Qed.

Lemma swapped_length (l : list nat) (d : nat) :
  List.length (swapped l d) = List.length l.
Proof. unfold swapped. now rewrite !set_item_length. Qed.

Lemma nth_swapped (l : list nat) (d i : nat) :
  (d < List.length l)%nat ->
  nth i (swapped l d) 0%nat
  = nth (if Nat.eqb i d then 0 else if Nat.eqb i 0 then d else i)%nat l 0%nat.
Proof.
  intros Hd. unfold swapped.
  rewrite nth_set_item by (rewrite set_item_length; exact Hd).
  destruct (Nat.eqb i d); [reflexivity|].
  rewrite nth_set_item by lia.
  now destruct (Nat.eqb i 0).
Qed.

Lemma swap_first_seq (n : nat) (dim : Z) (d : nat) :
  list_index n dim = Ok d ->
  (d < n)%nat /\ swap_first (seq 0 n) dim = Ok (swapped (seq 0 n) d).
Proof.
  intros Hd. unfold swap_first. rewrite length_seq, Hd.
  assert (Hlt : (d < n)%nat).
  { unfold list_index in Hd.
    destruct ((_ <? 0) || _) eqn:Hr in Hd; [discriminate|].
    injection Hd as <-. apply Bool.orb_false_iff in Hr as [H1 H2].
    apply Z.ltb_ge in H1. apply Z.leb_gt in H2. lia. }
  split; [exact Hlt|].
  cbn [bind]. unfold list_index.
  change (0 <? 0) with false. cbv iota. cbn [orb].
  destruct (Z.of_nat n <=? 0) eqn:Hn; [apply Z.leb_le in Hn; lia|].
  reflexivity.
Qed.

Lemma nth_swapped_seq (n d i : nat) :
  (d < n)%nat -> (i < n)%nat ->
  nth i (swapped (seq 0 n) d) 0%nat
  = (if Nat.eqb i d then 0 else if Nat.eqb i 0 then d else i)%nat.
Proof.
  intros Hd Hi. rewrite nth_swapped by (rewrite length_seq; exact Hd).
  rewrite seq_nth; [reflexivity|].
  destruct (Nat.eqb i d); [lia|]. destruct (Nat.eqb i 0); lia.
Qed.

Lemma swapped_seq_NoDup (n d : nat) :
  (d < n)%nat -> NoDup (swapped (seq 0 n) d).
Proof.
  intros Hd. apply (NoDup_nth _ 0%nat).
  intros i j Hi Hj. rewrite swapped_length, length_seq in Hi, Hj.
  rewrite !nth_swapped_seq by assumption.
  destruct (Nat.eqb_spec i d), (Nat.eqb_spec j d),
           (Nat.eqb_spec i 0), (Nat.eqb_spec j 0); lia.
Qed.

Lemma position_nth (l : list nat) (i : nat) :
  NoDup l -> (i < List.length l)%nat -> position l (nth i l 0%nat) = i.
Proof.
  intros Hnd. revert i. induction Hnd as [|a l Ha Hnd IH]; intros i Hi;
    cbn [List.length] in Hi.
  - lia.
  - destruct i as [|i]; cbn [nth position].
    + now rewrite Nat.eqb_refl.
    + destruct (Nat.eqb_spec a (nth i l 0%nat)) as [E|E].
      * exfalso. apply Ha. rewrite E. apply nth_In. lia.
      * f_equal. apply IH. lia.
Qed.

Lemma position_swapped_seq (n d j : nat) :
  (d < n)%nat -> (j < n)%nat ->
  position (swapped (seq 0 n) d) j
  = (if Nat.eqb j d then 0 else if Nat.eqb j 0 then d else j)%nat.
Proof.
  intros Hd Hj.
  set (k := (if Nat.eqb j d then 0 else if Nat.eqb j 0 then d else j)%nat).
  assert (Hk : (k < n)%nat).
  { subst k. destruct (Nat.eqb j d); [lia|]. destruct (Nat.eqb j 0); lia. }
  assert (E : nth k (swapped (seq 0 n) d) 0%nat = j).
  { rewrite nth_swapped_seq by assumption. subst k.
    destruct (Nat.eqb_spec j d); [|destruct (Nat.eqb_spec j 0)];
    repeat match goal with
           | |- context [Nat.eqb ?a ?b] => destruct (Nat.eqb_spec a b)
           end; lia. }
  rewrite <- E at 1.
  apply position_nth.
  - now apply swapped_seq_NoDup.
  - now rewrite swapped_length, length_seq.
Qed.

(** Both ways in which [permute] uses the exchanged dimensions exchange
    the items of a list of that length. *)
Lemma gather_swapped (l : list nat) (d : nat) :
  (d < List.length l)%nat ->
  map (fun p => nth p l 0%nat) (swapped (seq 0 (List.length l)) d) = swapped l d.
Proof.
  intros Hd. apply (nth_ext _ _ 0%nat 0%nat).
  - now rewrite length_map, !swapped_length, length_seq.
  - intros i Hi. rewrite length_map, swapped_length, length_seq in Hi.
    rewrite (nth_indep _ 0%nat (nth 0 l 0%nat))
      by now rewrite length_map, swapped_length, length_seq.
    rewrite (map_nth (fun p => nth p l 0%nat)).
    rewrite nth_swapped_seq by assumption.
    now rewrite nth_swapped by assumption.
Qed.

Lemma scatter_swapped (l : list nat) (d : nat) :
  (d < List.length l)%nat ->
  map (fun j => nth (position (swapped (seq 0 (List.length l)) d) j) l 0%nat)
      (seq 0 (List.length l))
  = swapped l d.
Proof.
  intros Hd. apply (nth_ext _ _ 0%nat 0%nat).
  - now rewrite length_map, swapped_length, length_seq.
  - intros i Hi. rewrite length_map, length_seq in Hi.
    set (f := fun j => nth (position (swapped (seq 0 (List.length l)) d) j) l 0%nat).
    rewrite (nth_indep _ 0%nat (f 0%nat)) by now rewrite length_map, length_seq.
    rewrite (map_nth f). rewrite seq_nth by exact Hi. subst f. cbn beta.
    rewrite Nat.add_0_l.
    rewrite position_swapped_seq by assumption.
    now rewrite nth_swapped by assumption.
Qed.

Lemma within_length (idx shape : list nat) :
  within idx shape -> List.length idx = List.length shape.
Proof. intros H. induction H; cbn [List.length]; congruence. Qed.

Lemma within_nth (idx shape : list nat) :
  within idx shape <->
  List.length idx = List.length shape
  /\ forall i, (i < List.length shape)%nat ->
               (nth i idx 0 < nth i shape 0)%nat.
Proof.
  split.
  - intros H. split; [now apply within_length|].
    induction H as [|a b idx shape Hab _ IH]; intros i Hi; cbn [List.length] in Hi.
    + lia.
    + destruct i as [|i]; cbn [nth]; [exact Hab|]. apply IH. lia.
  - revert shape. induction idx as [|a idx IH]; intros [|b shape] [Hlen Hnth];
      cbn [List.length] in *; try discriminate.
    + constructor.
    + constructor.
      * apply (Hnth 0%nat). lia.
      * apply IH. split; [lia|]. intros i Hi. apply (Hnth (S i)). lia.
Qed.

Ltac eqb_cases :=
  repeat (cbv iota;
          match goal with
          | |- context [Nat.eqb ?a ?b] =>
              lazymatch a with context [Nat.eqb] => fail | _ => idtac end;
              lazymatch b with context [Nat.eqb] => fail | _ => idtac end;
              destruct (Nat.eqb_spec a b)
          end);
  cbv iota.

Lemma swapped_set_first (l : list nat) (d : nat) (g : nat -> nat) :
  (d < List.length l)%nat ->
  swapped (set_item (swapped l d) 0 (g (nth 0 (swapped l d) 0%nat))) d
  = set_item l d (g (nth d l 0%nat)).
Proof.
  intros Hd. apply (nth_ext _ _ 0%nat 0%nat).
  - now rewrite swapped_length, !set_item_length, swapped_length.
  - intros i _.
    rewrite nth_swapped by (now rewrite set_item_length, swapped_length).
    rewrite nth_set_item by (rewrite swapped_length; lia).
    rewrite !nth_swapped by assumption.
    rewrite nth_set_item by assumption.
    eqb_cases; subst; try reflexivity; try lia.
Qed.

Lemma within_swapped (idx shape : list nat) (d : nat) :
  (d < List.length shape)%nat ->
  within idx (swapped shape d) -> within (swapped idx d) shape.
Proof.
  intros Hd H. apply within_nth in H as [Hlen Hnth].
  rewrite swapped_length in Hlen, Hnth.
  apply within_nth. split; [now rewrite swapped_length|].
  intros i Hi. rewrite nth_swapped by lia.
  set (k := (if Nat.eqb i d then 0 else if Nat.eqb i 0 then d else i)%nat).
  assert (Hk : (k < List.length shape)%nat).
  { subst k. destruct (Nat.eqb i d); [lia|]. destruct (Nat.eqb i 0); lia. }
  specialize (Hnth k Hk). rewrite nth_swapped in Hnth by exact Hd.
  replace (if Nat.eqb k d then 0 else if Nat.eqb k 0 then d else k)%nat
    with i in Hnth; [exact Hnth|].
  subst k.
  destruct (Nat.eqb_spec i d); [|destruct (Nat.eqb_spec i 0)];
    repeat match goal with
           | |- context [Nat.eqb ?a ?b] => destruct (Nat.eqb_spec a b)
           end; lia.
Qed.

(** The tiling of the first dimension, on positions as lists. *)

(** The tiling of the first dimension, on positions as lists. *)
Lemma tile_tensor_first (L A : Type) (T : Torch L) (x : tensor L A) (count : Z)
    (s : list nat) :
  t_shape x = s ->
  (0 < List.length s)%nat ->
  (0 < nth 0 s 0)%nat ->
  0 <= count ->
  can_view T x [nth 0 s 0%nat; (numel s / nth 0 s 0)%nat] = true ->
  exists y,
    tile_tensor T x count 0 = Ok y
    /\ t_shape y = set_item s 0 (nth 0 s 0 * Z.to_nat count)%nat
    /\ t_layout y = Contiguous
    /\ forall idx,
         within idx (t_shape y) ->
         t_at y idx = t_at x (set_item idx 0 (nth 0 idx 0 / Z.to_nat count)%nat).
Proof.
  intros Hshape Hlen Hbatch Hcount Hview.
  destruct s as [|batch rest]; cbn [List.length nth] in *; [lia|].
  destruct (@numel_rows batch rest Hbatch) as [_ Hdiv]. rewrite Hdiv in Hview.
  destruct (@tile_tensor_rows L A T x count batch rest Hshape Hbatch Hcount Hview)
    as (y & Hy & Hsy & Hly & Hat).
  exists y. split; [exact Hy|]. split; [exact Hsy|]. split; [exact Hly|].
  intros idx Hidx. rewrite Hsy in Hidx.
  inversion Hidx as [|b ? idx' ? Hb Hrest]; subst.
  cbn [set_item nth]. now apply Hat.
Qed.

(** For another dimension, [tile] exchanges it with the first one,
    tiles the first one and exchanges the two again. *)
Lemma tile_tensor_exchange (L A : Type) (T : Torch L) (x : tensor L A)
    (count : Z) (dim : Z) :
  dim <> 0 ->
  tile_tensor T x count dim
  = (perm <- swap_first (seq 0 (List.length (t_shape x))) dim ;;
     y <- tile_tensor T (contiguous (permute T x perm)) count 0 ;;
     Ok (contiguous (permute T y perm))).
Proof.
  intros Hdim. unfold tile_tensor.
  apply Z.eqb_neq in Hdim. rewrite Hdim.
  change (negb (0 =? 0)) with false. cbn [negb]. cbv iota.
  destruct (swap_first _ dim) as [perm|e]; cbn [bind]; [|reflexivity].
  destruct (list_index _ 0) as [z|e]; cbn [bind]; [|reflexivity].
  destruct (view_rows _ _ _) as [x1|e]; cbn [bind]; [|reflexivity].
  destruct (repeat_rows _ _) as [x2|e]; cbn [bind]; [|reflexivity].
  destruct (view _ _ _) as [x3|e]; cbn [bind]; reflexivity.
Qed.

Lemma list_index_zero (n : nat) (d : nat) :
  list_index n 0 = Ok d -> d = 0%nat.
Proof.
  unfold list_index. change (0 <? 0) with false. cbv iota.
  destruct ((0 <? 0) || _); [discriminate|]. now intros [= <-].
Qed.

Lemma tile_tensor_dim (L A : Type) (T : Torch L) (x : tensor L A) (count : Z)
    (dim : Z) (s : list nat) (d : nat) :
  t_shape x = s ->
  list_index (List.length s) dim = Ok d ->
  (0 < nth d s 0)%nat ->
  0 <= count ->
  (dim = 0 -> can_view T x [nth 0 s 0%nat; (numel s / nth 0 s 0)%nat] = true) ->
  exists y,
    tile_tensor T x count dim = Ok y
    /\ t_shape y = set_item s d (nth d s 0 * Z.to_nat count)%nat
    /\ t_layout y = Contiguous
    /\ forall idx,
         within idx (t_shape y) ->
         t_at y idx = t_at x (set_item idx d (nth d idx 0 / Z.to_nat count)%nat).
Proof.
  intros Hshape Hd Hsize Hcount Hview.
  destruct (@swap_first_seq _ _ _ Hd) as [Hlt Hswap].
  destruct (Z.eq_dec dim 0) as [->|Hdim].
  - apply list_index_zero in Hd. subst d.
    apply tile_tensor_first;
      [exact Hshape | lia | exact Hsize | exact Hcount | now apply Hview].
  - rewrite tile_tensor_exchange by exact Hdim.
    rewrite Hshape, Hswap. cbn [bind].
    set (perm := swapped (seq 0 (List.length s)) d).
    assert (Hs' : t_shape (contiguous (permute T x perm)) = swapped s d).
    { cbn [contiguous permute t_shape]. rewrite Hshape. now apply gather_swapped. }
    assert (Hfirst : nth 0 (swapped s d) 0%nat = nth d s 0%nat).
    { rewrite nth_swapped by exact Hlt. now destruct (Nat.eqb_spec 0 d) as [<-|_]. }
    destruct (@tile_tensor_first L A T (contiguous (permute T x perm)) count
                (swapped s d) Hs')
      as (y' & Hy' & Hsy' & _ & Hat'); try assumption.
    { rewrite swapped_length. lia. }
    { rewrite Hfirst. exact Hsize. }
    { reflexivity. }
    rewrite Hy'. cbn [bind].
    eexists. split; [reflexivity|].
    assert (Hlen' : List.length (t_shape y') = List.length s).
    { now rewrite Hsy', set_item_length, swapped_length. }
    assert (Hsy : t_shape (contiguous (permute T y' perm))
                  = set_item s d (nth d s 0 * Z.to_nat count)%nat).
    { cbn [contiguous permute t_shape]. subst perm. rewrite <- Hlen'.
      rewrite gather_swapped by (rewrite Hlen'; exact Hlt).
      rewrite Hsy'.
      exact (@swapped_set_first s d (fun v => (v * Z.to_nat count)%nat) Hlt). }
    split; [exact Hsy|]. split; [reflexivity|].
    intros idx Hidx.
    assert (Hlen : List.length idx = List.length s).
    { apply within_length in Hidx. now rewrite Hidx, Hsy, set_item_length. }
    assert (Hidx' : within (swapped idx d) (t_shape y')).
    { apply within_swapped; [rewrite Hlen'; exact Hlt|].
      cbn [contiguous permute t_shape] in Hidx. subst perm. rewrite <- Hlen' in Hidx.
      rewrite gather_swapped in Hidx by (rewrite Hlen'; exact Hlt).
      exact Hidx. }
    cbn [contiguous permute t_at]. rewrite Hlen', <- Hlen. subst perm. rewrite <- Hlen.
    rewrite scatter_swapped by (rewrite Hlen; exact Hlt).
    rewrite (Hat' _ Hidx').
    cbn [contiguous permute t_at]. rewrite Hshape.
    set (idx2 := set_item (swapped idx d) 0 _).
    assert (Hlen2 : List.length idx2 = List.length s).
    { subst idx2. now rewrite set_item_length, swapped_length. }
    rewrite <- Hlen2.
    rewrite scatter_swapped by (rewrite Hlen2; exact Hlt).
    subst idx2. f_equal.
    apply (@swapped_set_first idx d (fun v => (v / Z.to_nat count)%nat)).
    rewrite Hlen. exact Hlt.
Qed.

(** X25. [tile] multiplies dimension [dim] of a tensor (negative values
    count from the last dimension) by [count], when the tensor has that
    dimension, the dimension is not empty, the count is not negative
    and, for [dim = 0], where the argument is viewed as it is, [view]
    accepts to merge the dimensions after the first, as it does for
    every contiguous tensor.  The result is contiguous and repeats each
    entry of that dimension [count] times in a row: the element at a
    position of the result is the element of the argument at the same
    position with the index of dimension [dim] divided by [count]. *)
Theorem tile_repeats_entries (L A : Type) (T : Torch L) (x : tensor L A)
    (count : Z) (dim : Z) (d : nat)
    (Hdim : list_index (List.length (t_shape x)) dim = Ok d)
    (Hsize : (0 < nth d (t_shape x) 0)%nat)
    (Hcount : 0 <= count)
    (Hview : dim = 0 ->
             can_view T x [nth 0 (t_shape x) 0%nat;
                           (numel (t_shape x) / nth 0 (t_shape x) 0)%nat] = true) :
  exists y,
    tile T (One x) count dim = Ok (One y)
    /\ t_shape y
       = set_item (t_shape x) d (nth d (t_shape x) 0 * Z.to_nat count)%nat
    /\ t_layout y = Contiguous
    /\ forall idx,
         within idx (t_shape y) ->
         t_at y idx = t_at x (set_item idx d (nth d idx 0 / Z.to_nat count)%nat).
Proof.
  destruct (@tile_tensor_dim L A T x count dim (t_shape x) d eq_refl Hdim Hsize
              Hcount Hview)
    as (y & Hy & Hsy & Hly & Hat).
  exists y. cbn [tile]. rewrite Hy. cbn [bind].
  split; [reflexivity|]. split; [assumption|]. split; assumption.
Qed.

Lemma tile_repeats_entries_witness :
  exists y,
    tile strict_torch (One (positions [2; 3]%nat)) 2 0 = Ok (One y)
    /\ t_shape y = [4; 3]%nat
    /\ t_layout y = Contiguous
    /\ forall idx,
         within idx (t_shape y) ->
         t_at y idx = set_item idx 0 (nth 0 idx 0 / 2)%nat.
Proof.
  apply (@tile_repeats_entries unit (list nat) strict_torch
           (positions [2; 3]%nat) 2 0 0%nat).
  - reflexivity.
  - cbn. lia.
  - lia.
  - intros _. reflexivity.
Defined.

(** X26. [tile] on a tensor that does not have dimension [dim] raises
    the [IndexError] of the list of its dimensions: so it does for a
    tensor without dimensions and the default [dim=0], whatever the
    count. *)
Theorem tile_index_error (L A : Type) (T : Torch L) (x : tensor L A)
    (count : Z) (dim : Z)
    (Hdim : dim < - Z.of_nat (List.length (t_shape x))
            \/ Z.of_nat (List.length (t_shape x)) <= dim) :
  tile T (One x) count dim = Raise (IndexError "list index out of range").
Proof.
  assert (Hidx : list_index (List.length (t_shape x)) dim
                 = Raise (IndexError "list index out of range")).
  { unfold list_index.
    destruct (dim <? 0) eqn:Hneg.
    - apply Z.ltb_lt in Hneg.
      destruct (dim + _ <? 0) eqn:H1; [reflexivity|].
      apply Z.ltb_ge in H1. lia.
    - rewrite Hneg. apply Z.ltb_ge in Hneg. cbn [orb].
      destruct (_ <=? dim) eqn:H2; [reflexivity|].
      apply Z.leb_gt in H2. lia. }
  cbn [tile]. unfold tile_tensor.
  destruct (dim =? 0) eqn:Hz; cbn [negb]; cbv iota.
  - apply Z.eqb_eq in Hz. subst dim. cbn [bind]. now rewrite Hidx.
  - unfold swap_first. rewrite length_seq, Hidx. reflexivity.
Qed.

Lemma tile_index_error_witness :
  tile strict_torch (One (positions [])) 3 0
  = Raise (IndexError "list index out of range").
Proof.
  apply (@tile_index_error unit (list nat) strict_torch (positions []) 3 0).
  right. cbn. lia.
Defined.

Lemma view_raises (L A : Type) (T : Torch L) (x : tensor L A)
    (shape : list nat) (e : exn) :
  view T x shape = Raise e -> exists callee arg, e = ExternalError callee arg.
Proof.
  unfold view.
  destruct (negb (Nat.eqb _ _)); [intros [= <-]; eauto|].
  destruct (negb (can_view _ _ _)); [intros [= <-]; eauto|discriminate].
Qed.

(** X27. [tile] on a tensor that has dimension [dim] raises the error of
    a torch call when that dimension is empty (the view with an inferred
    dimension) or when the count is negative (the repetition). *)
Theorem tile_runtime_error (L A : Type) (T : Torch L) (x : tensor L A)
    (count : Z) (dim : Z) (d : nat)
    (Hdim : list_index (List.length (t_shape x)) dim = Ok d)
    (Hbad : nth d (t_shape x) 0%nat = 0%nat \/ count < 0) :
  exists callee arg,
    tile T (One x) count dim = Raise (ExternalError callee arg).
Proof.
  destruct (@swap_first_seq _ _ _ Hdim) as [Hlt Hswap].
  assert (Hfirst : forall x' : tensor L A,
             t_shape x' = swapped (t_shape x) d ->
             exists callee arg,
               tile_tensor T x' count 0 = Raise (ExternalError callee arg)).
  { intros x' Hs'.
    assert (Hb : nth 0 (t_shape x') 0%nat = nth d (t_shape x) 0%nat).
    { rewrite Hs', nth_swapped by exact Hlt.
      now destruct (Nat.eqb_spec 0 d) as [<-|_]. }
    assert (Hlen : (0 < List.length (t_shape x'))%nat).
    { rewrite Hs', swapped_length. lia. }
    unfold tile_tensor. change (negb (0 =? 0)) with false. cbv iota.
    unfold bind at 1.
    destruct (List.length (t_shape x')) as [|n] eqn:Hn; [lia|].
    rewrite list_index_first. cbn [bind].
    unfold view_rows. rewrite Hb.
    destruct (Nat.eqb_spec (nth d (t_shape x) 0%nat) 0) as [Hz|Hnz].
    - cbn [orb bind]. do 2 eexists. reflexivity.
    - cbn [orb].
      destruct (negb _); [cbn [bind]; do 2 eexists; reflexivity|].
      destruct (view T x' _) as [x1|e] eqn:Hv; cbn [bind].
      + unfold repeat_rows.
        destruct Hbad as [Hz|Hneg]; [congruence|].
        apply Z.ltb_lt in Hneg. rewrite Hneg. cbn [bind].
        do 2 eexists. reflexivity.
      + apply view_raises in Hv. destruct Hv as (callee & arg & ->).
        do 2 eexists. reflexivity. }
  cbn [tile].
  destruct (Z.eq_dec dim 0) as [->|Hnz].
  - apply list_index_zero in Hdim. subst d.
    destruct (Hfirst x) as (callee & arg & Hr).
    { unfold swapped.
      destruct (t_shape x) as [|a l]; [cbn in Hlt; lia|reflexivity]. }
    exists callee, arg. now rewrite Hr.
  - rewrite tile_tensor_exchange by exact Hnz.
    rewrite Hswap. cbn [bind].
    destruct (Hfirst (contiguous
                        (permute T x (swapped (seq 0 (List.length (t_shape x))) d))))
      as (callee & arg & Hr).
    { cbn [contiguous permute t_shape]. now apply gather_swapped. }
    exists callee, arg. now rewrite Hr.
Qed.

Lemma tile_runtime_error_witness :
  exists callee arg,
    tile strict_torch (One (positions [2; 0]%nat)) 3 1
    = Raise (ExternalError callee arg).
Proof.
  apply (@tile_runtime_error unit (list nat) strict_torch
           (positions [2; 0]%nat) 3 1 1%nat).
  - reflexivity.
  - left. reflexivity.
Defined.
